(** * Due-date feasibility simulator (Flowka-lab/Scenario-3)

    A shallow embedding of the two copies of the what-if simulator,
    [simulate_request] of app.py (the Streamlit dashboard) and
    [simulate_request_core] of main.py (the FastAPI service), together with
    the properties the specification states about them.

    Modelling conventions.
    - A pandas DataFrame is the list of its rows, in row order; a row is a
      record with one field per column the simulator reads.
    - Case quantities are Python/NumPy integers, modelled as [Z]; the sums the
      simulator forms are assumed to stay within the 64-bit range pandas uses.
    - [qty_per_case] and [on_hand_qty] are [float64] columns. A cell is
      given by the rational number of the table row and holds the binary64
      nearest to it ([float64]); products, differences and comparisons of
      such cells are those of binary64 arithmetic, rounded to nearest, ties
      to even. A NULL / NaN [on_hand_qty] is [None]; [qty_per_case] is never
      NULL, and no value reaches the overflow threshold 2^1024.
    - Line, product and material ids are text, so [str(line_id)] is the
      identity and ids are ordered as Python orders [str].
    - [pd.to_datetime(s).date()] is library code: it is a parameter
      [to_datetime : string -> option timestamp]. [None] stands for the
      exception pandas raises on a string it cannot parse, [Some NaT] for
      the missing value pandas returns on the empty string, [Some (Day d)]
      for a calendar day.
    - A blocker text built by an f-string is kept as a constructor of [note]
      carrying the interpolated values; literal texts are kept verbatim.
    - The free-text [message] / [explanation] entry of the returned dict is
      presentation only and is left out of the result records. *)

From Stdlib Require Import ZArith QArith Qround Qpower Lqa Bool List String.
From Stdlib Require Import Ascii Lia Permutation Sorted.
From Stdlib Require Import DecimalString.
Import ListNotations.

Local Open Scope string_scope.
Local Open Scope list_scope.
Local Open Scope Z_scope.

(** ** Calendar dates ([datetime.date]) *)

Record date := mkDate { year : Z; month : Z; day : Z }.

(** [datetime.date] compares lexicographically on (year, month, day). *)
Definition date_ltb (a b : date) : bool :=
  (year a <? year b)
  || ((year a =? year b)
      && ((month a <? month b)
          || ((month a =? month b) && (day a <? day b)))).

Definition date_eqb (a b : date) : bool :=
  (year a =? year b) && (month a =? month b) && (day a =? day b).

Definition date_leb (a b : date) : bool := date_ltb a b || date_eqb a b.

Definition date_lt (a b : date) : Prop := date_ltb a b = true.

(** [str(d)] for a [datetime.date]: ISO format, zero padded. *)
Definition digit (n : Z) : string :=
  String (ascii_of_nat (48 + Z.to_nat (n mod 10))) EmptyString.

Definition pad2 (n : Z) : string := (digit (n / 10) ++ digit n)%string.

Definition pad4 (n : Z) : string :=
  (digit (n / 1000) ++ digit (n / 100) ++ digit (n / 10) ++ digit n)%string.

Definition isoformat (d : date) : string :=
  (pad4 (year d) ++ "-" ++ pad2 (month d) ++ "-" ++ pad2 (day d))%string.

(** What [pd.to_datetime(s).date()] returns: a calendar day, or pandas'
    missing value [NaT], which is what the empty string is read as. *)
Inductive timestamp := Day (d : date) | NaT.

(** [d <= due_date_obj] as pandas evaluates it on a column of days: every
    comparison with [NaT] but [!=] is false. *)
Definition on_or_before (d : date) (due : timestamp) : bool :=
  match due with
  | Day due_day => date_leb d due_day
  | NaT => false
  end.

(** [str(due_date_obj)] *)
Definition str_of (due : timestamp) : string :=
  match due with
  | Day d => isoformat d
  | NaT => "NaT"
  end.

(** A concrete parser for the worked examples, standing for
    [pd.to_datetime(s).date()] on the strings they use: the empty string
    and the spellings of a missing value are read as [NaT]; a string
    [YYYY-MM-DD] naming a day of the calendar within the years a pandas
    timestamp can hold is read as that day; text without a date in it
    raises. pandas reads more formats than this one; the properties below
    are stated for any parser. *)
Definition digit_val (c : ascii) : option Z :=
  let n := Z.of_nat (nat_of_ascii c) in
  if (48 <=? n) && (n <=? 57) then Some (n - 48) else None.

Fixpoint number_of (cs : list ascii) (acc : Z) : option Z :=
  match cs with
  | [] => Some acc
  | c :: cs' =>
      match digit_val c with
      | Some v => number_of cs' (10 * acc + v)
      | None => None
      end
  end.

Definition is_leap (y : Z) : bool :=
  ((y mod 4 =? 0) && negb (y mod 100 =? 0)) || (y mod 400 =? 0).

Definition days_in_month (y m : Z) : Z :=
  if m =? 2 then (if is_leap y then 29 else 28)
  else if (m =? 4) || (m =? 6) || (m =? 9) || (m =? 11) then 30
  else 31.

Definition nat_strings : list string :=
  [""; "NaT"; "nat"; "NAT"; "nan"; "NaN"; "NAN"].

Definition parse_iso (s : string) : option timestamp :=
  if existsb (String.eqb s) nat_strings then Some NaT else
  match list_ascii_of_string s with
  | [y1; y2; y3; y4; d1; m1; m2; d2; dd1; dd2] =>
      if (Ascii.eqb d1 "-"%char) && (Ascii.eqb d2 "-"%char) then
        match number_of [y1; y2; y3; y4] 0,
              number_of [m1; m2] 0,
              number_of [dd1; dd2] 0 with
        | Some y, Some m, Some d =>
            if (1678 <=? y) && (y <=? 2261) && (1 <=? m) && (m <=? 12)
               && (1 <=? d) && (d <=? days_in_month y m)
            then Some (Day (mkDate y m d)) else None
        | _, _, _ => None
        end
      else None
  | _ => None
  end.

(** ** The snapshot: one record per table row *)

Record ScheduleRow := mkSchedule {
  s_line_id : string;
  s_production_date : date;
  s_product_id : string;
  s_planned_qty_cases : Z;
  s_is_firm : bool
}.

Record LineRow := mkLine {
  l_line_id : string;
  l_line_name : string;
  l_daily_capacity_cases : Z
}.

Record CapabilityRow := mkCapability {
  c_line_id : string;
  c_product_id : string;
  c_rate_cases_per_hour : Q
}.

Record BomRow := mkBom {
  b_product_id : string;
  b_material_id : string;
  b_qty_per_case : Q;
  b_material_name : string;
  b_supplier_lead_time_days : option Z
}.

Record InventoryRow := mkInventory {
  i_material_id : string;
  i_on_hand_qty : option Q
}.

Record ProductRow := mkProduct {
  p_product_id : string;
  p_product_name : string
}.

(** The dict returned by [load_master_data_for_sim] /
    [load_master_data_for_sim_from_db]. *)
Record Data := mkData {
  schedule : list ScheduleRow;
  lines : list LineRow;
  capability : list CapabilityRow;
  bom : list BomRow;
  inventory : list InventoryRow;
  products : list ProductRow
}.

(** ** The pandas operations the simulator uses *)

(** [Series.unique()]: the distinct values in order of first appearance. *)
Fixpoint unique {A : Type} (eqb : A -> A -> bool) (l : list A) : list A :=
  match l with
  | [] => []
  | x :: l' => x :: filter (fun y => negb (eqb y x)) (unique eqb l')
  end.

(** A stable sort by a boolean order: [sorted(...)] and
    [DataFrame.sort_values([...])] keep equal keys in their input order. *)
Fixpoint insert_by {A : Type} (leb : A -> A -> bool) (x : A) (l : list A)
  : list A :=
  match l with
  | [] => [x]
  | y :: l' => if leb x y then x :: l else y :: insert_by leb x l'
  end.

Fixpoint sort_by {A : Type} (leb : A -> A -> bool) (l : list A) : list A :=
  match l with
  | [] => []
  | x :: l' => insert_by leb x (sort_by leb l')
  end.

(** [df["planned_qty_cases"].sum()]; the sum of no rows is 0, which is also
    what the source's [... if len(df) else 0] gives. *)
Definition sum_planned (rows : list ScheduleRow) : Z :=
  fold_right (fun r acc => s_planned_qty_cases r + acc) 0 rows.

(** [schedule_df[schedule_df["prod_date_only"] <= due_date_obj]] *)
Definition sched_window_of (due : timestamp) (schedule_df : list ScheduleRow)
  : list ScheduleRow :=
  filter (fun r => on_or_before (s_production_date r) due) schedule_df.

(** [sched_window[sched_window["product_id"] == product_id]] *)
Definition sku_sched_of (product_id : string) (sched_window : list ScheduleRow)
  : list ScheduleRow :=
  filter (fun r => String.eqb (s_product_id r) product_id) sched_window.

(** The key of [sort_values(["prod_date_only", "line_id"])]: dates first,
    then line ids, which are text. *)
Definition sched_key_leb (a b : ScheduleRow) : bool :=
  date_ltb (s_production_date a) (s_production_date b)
  || (date_eqb (s_production_date a) (s_production_date b)
      && String.leb (s_line_id a) (s_line_id b)).

(** [cap_df[cap_df["product_id"] == product_id]["line_id"].unique().tolist()] *)
Definition capable_lines_of (product_id : string)
  (cap_df : list CapabilityRow) : list string :=
  unique String.eqb
    (map c_line_id
       (filter (fun r => String.eqb (c_product_id r) product_id) cap_df)).

(** [sorted(sched_window["prod_date_only"].unique())] *)
Definition window_dates (sched_window : list ScheduleRow) : list date :=
  sort_by date_leb (unique date_eqb (map s_production_date sched_window)).

(** [lines_df[lines_df["line_id"] == line_id]] *)
Definition line_info_of (line_id : string) (lines_df : list LineRow)
  : list LineRow :=
  filter (fun r => String.eqb (l_line_id r) line_id) lines_df.

(** [sched_window[(line_id == ...) & (prod_date_only == this_date)]] *)
Definition todays_runs_of (line_id : string) (this_date : date)
  (sched_window : list ScheduleRow) : list ScheduleRow :=
  filter (fun r => String.eqb (s_line_id r) line_id
                   && date_eqb (s_production_date r) this_date)
         sched_window.

(** ** Floating-point numbers ([float], NumPy's [float64])

    The quantity columns of the BOM and of the inventory are [float64]
    columns, which is what [pd.read_sql] makes of numeric database
    columns. A finite binary64 value is the rational it denotes, and
    [float64 q] is the binary64 nearest to [q], a tie going to the even
    significand: the value a [float64] cell holds for the number [q], the
    result of [float(q)], and the result of a floating-point operation whose
    exact result is [q]. Significands have 53 bits and the last place has
    exponent -1074 at least (subnormal numbers); overflow to infinity, from
    2^1024 on, is not modelled. *)

(** [floor(log2 q)], for [q > 0]. *)
Definition ilog2 (q : Q) : Z :=
  if Qle_bool 1 q then Z.log2 (Qfloor q)
  else - Z.log2_up (Qceiling (/ q)).

(** The nearest integer, a tie going to the even one. *)
Definition round_half_even (x : Q) : Z :=
  let f := Qfloor x in
  match (x - inject_Z f ?= 1 # 2)%Q with
  | Lt => f
  | Gt => f + 1
  | Eq => if Z.even f then f else f + 1
  end.

(** The exponent of the last place of the binary64 numbers around [q]. *)
Definition ulp_exponent (q : Q) : Z := Z.max (ilog2 q - 52) (-1074).

Definition float64_pos (q : Q) : Q :=
  let e := ulp_exponent q in
  (inject_Z (round_half_even (q / 2 ^ e)) * 2 ^ e)%Q.

Definition float64 (q : Q) : Q :=
  Qred match (q ?= 0)%Q with
       | Eq => 0%Q
       | Gt => float64_pos q
       | Lt => (- float64_pos (- q))%Q
       end.

(** [sku_bom["qty_per_case"] * new_capacity_cases]: the product of a
    [float64] cell and an integer, which NumPy converts to [float64]
    first. *)
Definition needed_qty (qty_per_case : Q) (new_capacity_cases : Z) : Q :=
  float64 (float64 qty_per_case * float64 (inject_Z new_capacity_cases))%Q.

(** One row of [pd.merge(sku_bom, inv_df, on="material_id", how="left")]:
    the BOM row with its [needed_qty] column, and the joined [on_hand_qty]
    ([None] for NaN: no inventory row, or a NULL quantity). *)
Record MergedRow := mkMerged {
  m_bom : BomRow;
  m_needed_qty : Q;
  m_on_hand_qty : option Q
}.

(** The [on_hand_qty] cells joined to one BOM row: one per inventory row
    with its [material_id], or a single NaN when there is none. *)
Definition joined_on_hand (b : BomRow) (inv_df : list InventoryRow)
  : list (option Q) :=
  match filter (fun i => String.eqb (i_material_id i) (b_material_id b))
               inv_df with
  | [] => [None]
  | matches => map i_on_hand_qty matches
  end.

Definition merge_left_one (needed : Q) (b : BomRow)
  (inv_df : list InventoryRow) : list MergedRow :=
  map (mkMerged b needed) (joined_on_hand b inv_df).

(** The left join keeps the BOM rows in order; a BOM row with several
    inventory rows is repeated once per match, one without a match is kept
    with a NaN quantity. *)
Definition merge_left (new_capacity_cases : Z) (sku_bom : list BomRow)
  (inv_df : list InventoryRow) : list MergedRow :=
  flat_map
    (fun b =>
       merge_left_one (needed_qty (b_qty_per_case b) new_capacity_cases)
                      b inv_df)
    sku_bom.

(** ** Results shared by both copies *)

Inductive source := already_planned | new_plan.

Inductive note :=
| Text (s : string)
    (* a literal blocker text *)
| ShortCases (shortfall : Z) (due : timestamp)
    (* f"Short {int(capacity_shortfall)} cases before {due_date_obj}" *)
| MaterialShort (material_name : string) (shortage : Q) (lead : option Z).
    (* f"{r['material_name']} short by {shortage:,.0f} (lead {lead}d)" *)

Inductive exn := ValueError.

Inductive outcome (A : Type) :=
| Returned (a : A)
| Raised (e : exn).
Arguments Returned {A} a.
Arguments Raised {A} e.

(** [float(r["on_hand_qty"]) if pd.notnull(r["on_hand_qty"]) else 0.0] *)
Definition on_hand_or_zero (cell : option Q) : Q :=
  match cell with
  | Some q => float64 q
  | None => 0%Q
  end.

(** [need > have] on the two floats of a merged row; [need] is
    [float(r["needed_qty"])], the cell itself. *)
Definition is_short (r : MergedRow) : bool :=
  negb (Qle_bool (m_needed_qty r) (on_hand_or_zero (m_on_hand_qty r))).

(** The note, with [shortage = need - have] as a float. *)
Definition shortage_note (r : MergedRow) : note :=
  MaterialShort (b_material_name (m_bom r))
                (float64
                   (m_needed_qty r - on_hand_or_zero (m_on_hand_qty r)))%Q
                (b_supplier_lead_time_days (m_bom r)).

(** ** The intermediate values of one call, by name

    Both copies compute the same window, already-planned quantity and
    capable lines from the snapshot; these definitions name those
    sub-expressions of the source so that statements can refer to them. *)

Definition sched_window (due : date) (data : Data) : list ScheduleRow :=
  sched_window_of (Day due) (schedule data).

Definition already_planned_cases (product_id : string) (due : date)
  (data : Data) : Z :=
  sum_planned (sku_sched_of product_id (sched_window due data)).

Definition capable_lines (product_id : string) (data : Data) : list string :=
  capable_lines_of product_id (capability data).

(** [headroom] of the allocation loop for one (date, line) pair; a line
    without a row in [lines_df] is skipped, which leaves it no headroom. *)
Definition headroom_at (lines_df : list LineRow)
  (sched_window : list ScheduleRow) (this_date : date) (line_id : string)
  : Z :=
  match line_info_of line_id lines_df with
  | [] => 0
  | line_info :: _ =>
      Z.max (l_daily_capacity_cases line_info
             - sum_planned (todays_runs_of line_id this_date sched_window)) 0
  end.

(** The (date, line) pairs the two nested loops visit, in visiting order,
    and those among them on which the loop body reaches the allocation. *)
Definition visited_pairs (due : date) (product_id : string) (data : Data)
  : list (date * string) :=
  list_prod (window_dates (sched_window due data))
            (capable_lines product_id data).

Definition eligible (due : date) (data : Data) (k : date * string) : bool :=
  0 <? headroom_at (lines data) (sched_window due data) (fst k) (snd k).

Definition eligible_pairs (due : date) (product_id : string) (data : Data)
  : list (date * string) :=
  filter (eligible due data) (visited_pairs due product_id data).

(** Everything scheduled on a line and day, whatever the product and
    whether firm or not. *)
Definition scheduled_on (data : Data) (line_id : string) (d : date) : Z :=
  sum_planned (todays_runs_of line_id d (schedule data)).


(** ** app.py: [simulate_request] *)

Module App.

Record plan_row := mkRow {
  line_id : string;
  production_date : date;
  allocated_cases : Z;
  row_source : source
}.

Record result := mkResult {
  can_fulfill : bool;
  allocated_total : Z;
  remaining : Z;
  plan_rows : list plan_row;
  material_blockers : list note;
  capacity_blockers : list note
}.

(** STEP 1: the rows that already cover the product, in (date, line) order. *)
Definition covering_rows_of (sku_sched : list ScheduleRow) : list plan_row :=
  map (fun r => mkRow (s_line_id r) (s_production_date r)
                      (s_planned_qty_cases r) already_planned)
      (sort_by sched_key_leb sku_sched).

(** STEP 2, the inner [for line_id in capable_lines] loop; the state is
    [(remaining_capacity_allocation, extra_plan_rows)]. *)
Fixpoint alloc_lines (lines_df : list LineRow) (sched_window : list ScheduleRow)
  (this_date : date) (capable_lines : list string)
  (st : Z * list plan_row) : Z * list plan_row :=
  match capable_lines with
  | [] => st
  | line_id :: rest =>
      let '(remaining_capacity_allocation, extra_plan_rows) := st in
      if remaining_capacity_allocation <=? 0 then st (* break *)
      else
        match line_info_of line_id lines_df with
        | [] => alloc_lines lines_df sched_window this_date rest st
        | line_info :: _ =>
            let daily_capacity := l_daily_capacity_cases line_info in
            let todays_runs := todays_runs_of line_id this_date sched_window in
            let total_planned_now := sum_planned todays_runs in
            let headroom := Z.max (daily_capacity - total_planned_now) 0 in
            if headroom <=? 0
            then alloc_lines lines_df sched_window this_date rest st
            else
              let allocate_now :=
                Z.min headroom remaining_capacity_allocation in
              alloc_lines lines_df sched_window this_date rest
                (remaining_capacity_allocation - allocate_now,
                 extra_plan_rows
                   ++ [mkRow line_id this_date allocate_now new_plan])
        end
  end.

(** The outer [for this_date in sorted(...)] loop. *)
Fixpoint alloc_dates (lines_df : list LineRow) (sched_window : list ScheduleRow)
  (capable_lines : list string) (dates : list date)
  (st : Z * list plan_row) : Z * list plan_row :=
  match dates with
  | [] => st
  | this_date :: rest =>
      if fst st <=? 0 then st (* break *)
      else
        alloc_dates lines_df sched_window capable_lines rest
          (alloc_lines lines_df sched_window this_date capable_lines st)
  end.

(** STEP 3: the material check of the newly planned part. *)
Definition material_check (product_id : string) (new_capacity_cases : Z)
  (bom_df : list BomRow) (inv_df : list InventoryRow) : list note :=
  if 0 <? new_capacity_cases then
    match filter (fun b => String.eqb (b_product_id b) product_id) bom_df with
    | [] => [Text "No BOM for this SKU."]
    | sku_bom =>
        map shortage_note
            (filter is_short (merge_left new_capacity_cases sku_bom inv_df))
    end
  else [].

(** The values [simulate_request] computes on its way, by name. *)
Definition covering_rows (product_id : string) (due : date) (data : Data)
  : list plan_row :=
  covering_rows_of (sku_sched_of product_id (sched_window due data)).

Definition allocation (product_id : string) (extra_cases : Z) (due : date)
  (data : Data) : Z * list plan_row :=
  alloc_dates (lines data) (sched_window due data)
    (capable_lines product_id data) (window_dates (sched_window due data))
    (extra_cases - already_planned_cases product_id due data, []).

Definition extra_plan_rows (product_id : string) (extra_cases : Z)
  (due : date) (data : Data) : list plan_row :=
  snd (allocation product_id extra_cases due data).

Definition new_capacity_cases (product_id : string) (extra_cases : Z)
  (due : date) (data : Data) : Z :=
  (extra_cases - already_planned_cases product_id due data)
  - fst (allocation product_id extra_cases due data).

Definition capacity_shortfall (product_id : string) (extra_cases : Z)
  (due : date) (data : Data) : Z :=
  Z.max (extra_cases
         - (already_planned_cases product_id due data
            + new_capacity_cases product_id extra_cases due data)) 0.

Definition mat_blockers (product_id : string) (extra_cases : Z)
  (due : date) (data : Data) : list note :=
  material_check product_id
    (new_capacity_cases product_id extra_cases due data)
    (bom data) (inventory data).

Section Simulate.

Variable to_datetime : string -> option timestamp.

Definition simulate_request (product_id : string) (extra_cases : Z)
  (due_date_str : string) (data : Data) : outcome result :=
  match to_datetime due_date_str with
  | None => Raised ValueError
  | Some due_date_obj =>
      let schedule_df := schedule data in
      let lines_df := lines data in
      let cap_df := capability data in
      let bom_df := bom data in
      let inv_df := inventory data in
      let sched_window := sched_window_of due_date_obj schedule_df in
      let sku_sched := sku_sched_of product_id sched_window in
      let already_planned_cases := sum_planned sku_sched in
      let covering_rows := covering_rows_of sku_sched in
      if extra_cases <=? already_planned_cases then
        Returned (mkResult true extra_cases 0 covering_rows [] [])
      else
        let need_after_plan := extra_cases - already_planned_cases in
        let capable_lines := capable_lines_of product_id cap_df in
        match capable_lines with
        | [] =>
            Returned
              (mkResult false already_planned_cases need_after_plan
                 covering_rows
                 [Text "No line can run this product"]
                 [Text "No capable line found"])
        | _ :: _ =>
            let '(remaining_capacity_allocation, extra_plan_rows) :=
              alloc_dates lines_df sched_window capable_lines
                (window_dates sched_window) (need_after_plan, []) in
            let new_capacity_cases :=
              need_after_plan - remaining_capacity_allocation in
            let total_possible_capacity :=
              already_planned_cases + new_capacity_cases in
            let capacity_shortfall :=
              Z.max (extra_cases - total_possible_capacity) 0 in
            let mat_blockers :=
              material_check product_id new_capacity_cases bom_df inv_df in
            if (capacity_shortfall =? 0)
               && (Nat.eqb (List.length mat_blockers) 0)
            then
              Returned
                (mkResult true extra_cases 0
                   (covering_rows ++ extra_plan_rows) [] [])
            else
              let feasible_new_cases :=
                if Nat.ltb 0 (List.length mat_blockers)
                then 0 else new_capacity_cases in
              let total_feasible :=
                already_planned_cases + feasible_new_cases in
              let remaining_after_feasible :=
                Z.max (extra_cases - total_feasible) 0 in
              let cap_blockers :=
                if 0 <? capacity_shortfall
                then [ShortCases capacity_shortfall due_date_obj] else [] in
              let partial_plan_rows :=
                covering_rows
                  ++ (if (0 <? feasible_new_cases)
                         && (Nat.eqb (List.length mat_blockers) 0)
                      then extra_plan_rows else []) in
              Returned
                (mkResult false total_feasible remaining_after_feasible
                   partial_plan_rows mat_blockers cap_blockers)
        end
  end.

End Simulate.

End App.

(** ** main.py: [simulate_request_core] *)

Module Main.

Inductive status := full | partial | no.

(** A row of [existing_orders_used]: line id and date are rendered with
    [str]. *)
Record row := mkRow {
  line_id : string;
  production_date : string;
  allocated_cases : Z;
  row_source : source
}.

(** The dict returned to the API, without its [explanation] text. *)
Record result := mkResult {
  sku : string;
  product_name : string;
  dc_name : string;
  requested_date : string;
  requested_qty : Z;
  status_of : status;
  covered_qty_on_requested_date : Z;
  remaining_qty : Z;
  next_available_date : option string;
  next_available_additional_qty : Z;
  existing_orders_used : list row;
  capacity_notes : list note;
  material_notes : list note
}.

Definition covering_rows_of (sku_sched : list ScheduleRow) : list row :=
  map (fun r => mkRow (s_line_id r) (isoformat (s_production_date r))
                      (s_planned_qty_cases r) already_planned)
      (sort_by sched_key_leb sku_sched).

(** The inner [for line_id in capable_lines] loop. *)
Fixpoint alloc_lines (lines_df : list LineRow) (sched_window : list ScheduleRow)
  (this_date : date) (capable_lines : list string)
  (st : Z * list row) : Z * list row :=
  match capable_lines with
  | [] => st
  | line_id :: rest =>
      let '(remaining_capacity_allocation, extra_plan_rows) := st in
      if remaining_capacity_allocation <=? 0 then st (* break *)
      else
        match line_info_of line_id lines_df with
        | [] => alloc_lines lines_df sched_window this_date rest st
        | line_info :: _ =>
            let daily_capacity := l_daily_capacity_cases line_info in
            let todays_runs := todays_runs_of line_id this_date sched_window in
            let total_planned_now := sum_planned todays_runs in
            let headroom := Z.max (daily_capacity - total_planned_now) 0 in
            if headroom <=? 0
            then alloc_lines lines_df sched_window this_date rest st
            else
              let allocate_now :=
                Z.min headroom remaining_capacity_allocation in
              alloc_lines lines_df sched_window this_date rest
                (remaining_capacity_allocation - allocate_now,
                 extra_plan_rows
                   ++ [mkRow line_id (isoformat this_date) allocate_now
                             new_plan])
        end
  end.

(** The outer [for this_date in sorted(...)] loop. *)
Fixpoint alloc_dates (lines_df : list LineRow) (sched_window : list ScheduleRow)
  (capable_lines : list string) (dates : list date)
  (st : Z * list row) : Z * list row :=
  match dates with
  | [] => st
  | this_date :: rest =>
      if fst st <=? 0 then st (* break *)
      else
        alloc_dates lines_df sched_window capable_lines rest
          (alloc_lines lines_df sched_window this_date capable_lines st)
  end.

(** The material check for the extra part only. *)
Definition material_check (product_id : string) (new_capacity_cases : Z)
  (bom_df : list BomRow) (inv_df : list InventoryRow) : list note :=
  if 0 <? new_capacity_cases then
    match filter (fun b => String.eqb (b_product_id b) product_id) bom_df with
    | [] => [Text "No BOM defined for this SKU"]
    | sku_bom =>
        map shortage_note
            (filter is_short (merge_left new_capacity_cases sku_bom inv_df))
    end
  else [].

(** [row_match.iloc[0]["product_name"] if not row_match.empty else product_id] *)
Definition product_name_of (product_id : string)
  (products_df : list ProductRow) : string :=
  match filter (fun p => String.eqb (p_product_id p) product_id)
               products_df with
  | [] => product_id
  | p :: _ => p_product_name p
  end.

(** The values [simulate_request_core] computes on its way, by name. *)
Definition covering_rows (product_id : string) (due : date) (data : Data)
  : list row :=
  covering_rows_of (sku_sched_of product_id (sched_window due data)).

Definition allocation (product_id : string) (requested_qty_cases : Z) (due : date)
  (data : Data) : Z * list row :=
  alloc_dates (lines data) (sched_window due data)
    (capable_lines product_id data) (window_dates (sched_window due data))
    (requested_qty_cases - already_planned_cases product_id due data, []).

Definition extra_plan_rows (product_id : string) (requested_qty_cases : Z)
  (due : date) (data : Data) : list row :=
  snd (allocation product_id requested_qty_cases due data).

Definition new_capacity_cases (product_id : string) (requested_qty_cases : Z)
  (due : date) (data : Data) : Z :=
  (requested_qty_cases - already_planned_cases product_id due data)
  - fst (allocation product_id requested_qty_cases due data).

Definition capacity_shortfall (product_id : string) (requested_qty_cases : Z)
  (due : date) (data : Data) : Z :=
  Z.max (requested_qty_cases
         - (already_planned_cases product_id due data
            + new_capacity_cases product_id requested_qty_cases due data)) 0.

Definition mat_blockers (product_id : string) (requested_qty_cases : Z)
  (due : date) (data : Data) : list note :=
  material_check product_id
    (new_capacity_cases product_id requested_qty_cases due data)
    (bom data) (inventory data).

Section Simulate.

Variable to_datetime : string -> option timestamp.

Definition simulate_request_core (product_id : string)
  (requested_qty_cases : Z) (requested_due_date : string)
  (dc : string) (data : Data) : outcome result :=
  match to_datetime requested_due_date with
  | None => Raised ValueError
  | Some due_date_obj =>
      let schedule_df := schedule data in
      let lines_df := lines data in
      let cap_df := capability data in
      let name := product_name_of product_id (products data) in
      let sched_window := sched_window_of due_date_obj schedule_df in
      let sku_sched := sku_sched_of product_id sched_window in
      let already_planned_cases := sum_planned sku_sched in
      let covering_rows := covering_rows_of sku_sched in
      let answer st covered left next_date next_qty rows caps mats :=
        Returned
          (mkResult product_id name dc (str_of due_date_obj)
             requested_qty_cases st covered left next_date next_qty
             rows caps mats) in
      (* CASE A: already fully covered *)
      if requested_qty_cases <=? already_planned_cases then
        answer full requested_qty_cases 0
               (Some (str_of due_date_obj)) requested_qty_cases
               covering_rows [] []
      else
        let need_after_plan := requested_qty_cases - already_planned_cases in
        let capable_lines := capable_lines_of product_id cap_df in
        match capable_lines with
        | [] =>
            answer no already_planned_cases need_after_plan
                   None already_planned_cases
                   covering_rows [Text "No capable line for this SKU"] []
        | _ :: _ =>
            let '(remaining_capacity_allocation, extra_plan_rows) :=
              alloc_dates lines_df sched_window capable_lines
                (window_dates sched_window) (need_after_plan, []) in
            let new_capacity_cases :=
              need_after_plan - remaining_capacity_allocation in
            let total_possible_capacity :=
              already_planned_cases + new_capacity_cases in
            let capacity_shortfall :=
              Z.max (requested_qty_cases - total_possible_capacity) 0 in
            let mat_blockers :=
              material_check product_id new_capacity_cases
                             (bom data) (inventory data) in
            if (capacity_shortfall =? 0)
               && (Nat.eqb (List.length mat_blockers) 0)
            then
              answer full requested_qty_cases 0
                     (Some (str_of due_date_obj)) requested_qty_cases
                     (covering_rows ++ extra_plan_rows) [] []
            else
              let feasible_new_cases :=
                if Nat.ltb 0 (List.length mat_blockers)
                then 0 else new_capacity_cases in
              let total_feasible :=
                already_planned_cases + feasible_new_cases in
              let remaining_after_feasible :=
                Z.max (requested_qty_cases - total_feasible) 0 in
              let cap_notes :=
                if 0 <? capacity_shortfall
                then [ShortCases capacity_shortfall due_date_obj] else [] in
              let partial_rows :=
                covering_rows
                  ++ (if (0 <? feasible_new_cases)
                         && (Nat.eqb (List.length mat_blockers) 0)
                      then extra_plan_rows else []) in
              let status_val :=
                if 0 <? total_feasible then partial else no in
              answer status_val total_feasible remaining_after_feasible
                     (Some (str_of due_date_obj)) total_feasible
                     partial_rows cap_notes mat_blockers
        end
  end.

(** The [/simulate_request] endpoint: it passes the request body on
    unchanged, and an exception of the core propagates to the caller. *)
Record SimulateIn := mkSimulateIn {
  in_sku : string;
  in_qty_requested : Z;
  in_requested_date : string;
  in_dc_name : string
}.

Definition simulate_request (body : SimulateIn) (data : Data)
  : outcome result :=
  simulate_request_core (in_sku body) (in_qty_requested body)
                        (in_requested_date body) (in_dc_name body) data.

End Simulate.

End Main.

(** ** A flat description of the allocation loops

    [greedy slots need] walks a list of (slot, headroom) pairs once and
    takes from each as much as is still needed; the nested loops with their
    two [break]s are shown below to compute exactly this on the eligible
    pairs. *)

Fixpoint greedy {K : Type} (slots : list (K * Z)) (need : Z) : list (K * Z) :=
  match slots with
  | [] => []
  | (k, h) :: rest =>
      if need <=? 0 then []
      else (k, Z.min h need) :: greedy rest (need - Z.min h need)
  end.

Definition total {K : Type} (l : list (K * Z)) : Z :=
  fold_right (fun p acc => snd p + acc) 0 l.

(** Every slot offered to the fill has room. *)
Definition positive_slots {K : Type} (s : list (K * Z)) : Prop :=
  Forall (fun p => 0 < snd p) s.

Definition slots_of (lines_df : list LineRow) (sched_window : list ScheduleRow)
  (pairs : list (date * string)) : list ((date * string) * Z) :=
  filter (fun p => 0 <? snd p)
    (map (fun k => (k, headroom_at lines_df sched_window (fst k) (snd k)))
         pairs).

Definition is_new (s : source) : bool :=
  match s with new_plan => true | already_planned => false end.

(** The snapshot with the [is_firm] flag of every scheduled run replaced. *)
Definition with_firm (flag : ScheduleRow -> bool) (data : Data) : Data :=
  mkData
    (map (fun r => mkSchedule (s_line_id r) (s_production_date r)
                     (s_product_id r) (s_planned_qty_cases r) (flag r))
         (schedule data))
    (lines data) (capability data) (bom data) (inventory data)
    (products data).

(** The (date, line) pair of a new-plan row, and the order on such pairs
    by date first and line id second. *)
Definition row_key (r : App.plan_row) : date * string :=
  (App.production_date r, App.line_id r).

Definition key_leb (a b : date * string) : bool :=
  date_ltb (fst a) (fst b)
  || (date_eqb (fst a) (fst b) && String.leb (snd a) (snd b)).

Definition new_rows (rows : list App.plan_row) : list App.plan_row :=
  filter (fun r => is_new (App.row_source r)) rows.

Definition main_new_rows (rows : list Main.row) : list Main.row :=
  filter (fun r => is_new (Main.row_source r)) rows.

(** The fill of the eligible pairs of one request. *)
Definition fill (product_id : string) (qty : Z) (due : date) (data : Data)
  : list ((date * string) * Z) :=
  greedy (slots_of (lines data) (sched_window due data)
                   (visited_pairs due product_id data))
         (qty - already_planned_cases product_id due data).

Definition app_row (p : (date * string) * Z) : App.plan_row :=
  App.mkRow (snd (fst p)) (fst (fst p)) (snd p) new_plan.

Definition main_row (p : (date * string) * Z) : Main.row :=
  Main.mkRow (snd (fst p)) (isoformat (fst (fst p))) (snd p) new_plan.

(** [str] applied to the line and date cells of an app.py row gives the
    main.py row. *)
Definition render (r : App.plan_row) : Main.row :=
  Main.mkRow (App.line_id r) (isoformat (App.production_date r))
             (App.allocated_cases r) (App.row_source r).

(** The classifier branch a request takes. *)
Inductive branch :=
| AlreadyCovered | NoCapableLine | FullAfterAllocation | PartialOrNo.

Definition branch_of (product_id : string) (qty : Z) (due : date)
  (data : Data) : branch :=
  if qty <=? already_planned_cases product_id due data then AlreadyCovered
  else match capable_lines product_id data with
       | [] => NoCapableLine
       | _ :: _ =>
           if (App.capacity_shortfall product_id qty due data =? 0)
              && (Nat.eqb
                    (List.length (App.mat_blockers product_id qty due data))
                    0)
           then FullAfterAllocation else PartialOrNo
       end.

(** The results of the two copies, laid out branch by branch; they are
    shown below to be what [App.simulate_request] and
    [Main.simulate_request_core] return. *)
Definition app_answer (product_id : string) (qty : Z) (due : date)
  (data : Data) : App.result :=
  let A := already_planned_cases product_id due data in
  match branch_of product_id qty due data with
  | AlreadyCovered =>
      App.mkResult true qty 0 (App.covering_rows product_id due data) [] []
  | NoCapableLine =>
      App.mkResult false A (qty - A) (App.covering_rows product_id due data)
        [Text "No line can run this product"] [Text "No capable line found"]
  | FullAfterAllocation =>
      App.mkResult true qty 0
        (App.covering_rows product_id due data
           ++ App.extra_plan_rows product_id qty due data) [] []
  | PartialOrNo =>
      let mats := App.mat_blockers product_id qty due data in
      let short := App.capacity_shortfall product_id qty due data in
      let feasible_new :=
        match mats with
        | [] => App.new_capacity_cases product_id qty due data
        | _ :: _ => 0
        end in
      App.mkResult false (A + feasible_new)
        (Z.max (qty - (A + feasible_new)) 0)
        (App.covering_rows product_id due data
           ++ (if 0 <? feasible_new
               then App.extra_plan_rows product_id qty due data else []))
        mats
        (if 0 <? short then [ShortCases short (Day due)] else [])
  end.

Definition main_answer (product_id : string) (qty : Z) (dc : string)
  (due : date) (data : Data) : Main.result :=
  let A := already_planned_cases product_id due data in
  let answer st covered left next_date next_qty rows caps mats :=
    Main.mkResult product_id
      (Main.product_name_of product_id (products data)) dc (isoformat due)
      qty st covered left next_date next_qty rows caps mats in
  match branch_of product_id qty due data with
  | AlreadyCovered =>
      answer Main.full qty 0 (Some (isoformat due)) qty
             (Main.covering_rows product_id due data) [] []
  | NoCapableLine =>
      answer Main.no A (qty - A) None A
             (Main.covering_rows product_id due data)
             [Text "No capable line for this SKU"] []
  | FullAfterAllocation =>
      answer Main.full qty 0 (Some (isoformat due)) qty
             (Main.covering_rows product_id due data
                ++ Main.extra_plan_rows product_id qty due data) [] []
  | PartialOrNo =>
      let mats := Main.mat_blockers product_id qty due data in
      let short := Main.capacity_shortfall product_id qty due data in
      let feasible_new :=
        match mats with
        | [] => Main.new_capacity_cases product_id qty due data
        | _ :: _ => 0
        end in
      answer (if 0 <? A + feasible_new then Main.partial else Main.no)
             (A + feasible_new) (Z.max (qty - (A + feasible_new)) 0)
             (Some (isoformat due)) (A + feasible_new)
             (Main.covering_rows product_id due data
                ++ (if 0 <? feasible_new
                    then Main.extra_plan_rows product_id qty due data
                    else []))
             (if 0 <? short then [ShortCases short (Day due)] else [])
             mats
  end.

(** ** Worked snapshots *)

Module Sample.

Definition nov3 : date := mkDate 2025 11 3.
Definition nov4 : date := mkDate 2025 11 4.

(** Two lines, both able to run [P1]; the capability table lists [L2]
    first. [P3] has no BOM, [P4] a BOM with a negative quantity per case,
    [P9] no capable line. *)
Definition snapshot : Data :=
  mkData
    [ mkSchedule "L1" nov3 "P1" 400 true;
      mkSchedule "L2" nov4 "P2" 100 false ]
    [ mkLine "L1" "Line 1" 1000; mkLine "L2" "Line 2" 500 ]
    [ mkCapability "L2" "P1" 10%Q; mkCapability "L1" "P1" 12%Q;
      mkCapability "L2" "P1" 10%Q; mkCapability "L1" "P3" 8%Q;
      mkCapability "L1" "P4" 8%Q; mkCapability "L1" "P5" 8%Q ]
    [ mkBom "P1" "M1" (1 # 2)%Q "Sugar" (Some 5);
      mkBom "P1" "M2" 1%Q "Bottle" None;
      mkBom "P4" "M3" (-1)%Q "Credit" (Some 2);
      mkBom "P5" "M4" 3%Q "Syrup" (Some 7) ]
    [ mkInventory "M1" (Some 2000%Q); mkInventory "M2" (Some 2600%Q);
      mkInventory "M3" (Some (-5)%Q) ]
    [ mkProduct "P1" "Cola" ].

End Sample.

(** ** Totals over plans and over the window *)

(** The cases of a plan, added up. *)
Definition sum_cases (rows : list App.plan_row) : Z :=
  fold_right (fun r acc => App.allocated_cases r + acc) 0 rows.

Definition main_sum_cases (rows : list Main.row) : Z :=
  fold_right (fun r acc => Main.allocated_cases r + acc) 0 rows.

(** The rows of a plan that come from the schedule. *)
Definition planned_rows (rows : list App.plan_row) : list App.plan_row :=
  filter (fun r => negb (is_new (App.row_source r))) rows.

(** The headroom of all the (date, line) pairs the loops visit. *)
Definition total_headroom (due : date) (product_id : string) (data : Data)
  : Z :=
  fold_right
    (fun k acc =>
       headroom_at (lines data) (sched_window due data) (fst k) (snd k) + acc)
    0 (visited_pairs due product_id data).

(** ** main.py: [build_dc_reply]

    The [sim_result] dict holds, under the keys the function reads, values
    of the types [simulate_request_core] puts there; a key that is absent
    is [None], and [d.get(key, default)] is [get]. *)

Module Reply.

Record sim_result := mkSimResult {
  product_name : option string;
  sku : option string;
  dc_name : option string;
  requested_qty : option Z;
  requested_date : option string;
  covered_qty_on_requested_date : option Z;
  remaining_qty : option Z;
  status : option string;
  capacity_notes : option (list string);
  material_notes : option (list string)
}.

Definition get {A : Type} (value : option A) (default : A) : A :=
  match value with
  | Some v => v
  | None => default
  end.

(** An integer inside an f-string. *)
Definition str_int (z : Z) : string := NilZero.string_of_int (Z.to_int z).

Definition newline : string := String (ascii_of_nat 10) EmptyString.

Definition full_body (req_qty : Z) (sku_name dc req_date : string)
  : list string :=
  [ ("We can supply the full " ++ str_int req_qty ++ " cases of " ++ sku_name
       ++ " to " ++ dc ++ " by " ++ req_date ++ ".")%string;
    "This volume is already in plan or can be added without impacting other confirmed orders.";
    "";
    "No further action needed unless you want to change quantities." ].

Definition recap (req_qty : Z) (sku_name dc req_date : string) : string :=
  ("Request recap: " ++ str_int req_qty ++ " cases of " ++ sku_name
     ++ " for " ++ dc ++ " by " ++ req_date ++ ".")%string.

Definition partial_body (req_qty covered remaining : Z)
  (sku_name dc req_date : string) : list string :=
  [ recap req_qty sku_name dc req_date;
    "";
    ("- We can confirm " ++ str_int covered ++ " cases by " ++ req_date
       ++ ".")%string;
    ("- The remaining " ++ str_int remaining
       ++ " cases cannot be produced in time due to capacity and/or materials.")%string;
    "";
    "Please choose one of these options:";
    ("1. Deliver only " ++ str_int covered ++ " cases on " ++ req_date
       ++ ".")%string;
    ("2. Split delivery: " ++ str_int covered ++ " first, then "
       ++ str_int remaining ++ " as soon as available.")%string;
    "3. Cancel or adjust the request." ].

Definition no_body (req_qty : Z) (sku_name dc req_date : string)
  : list string :=
  [ recap req_qty sku_name dc req_date;
    "";
    "We cannot cover this quantity on that date.";
    "Reason: capacity and/or material constraints.";
    "";
    "Options:";
    "1. Accept delivery later.";
    "2. Reduce the requested quantity.";
    "3. Cancel." ].

Definition other_body (req_qty covered : Z) (sku_name req_date : string)
  : list string :=
  [ ("For " ++ sku_name ++ ": " ++ str_int covered ++ "/" ++ str_int req_qty
       ++ " cases are feasible by " ++ req_date ++ ".")%string;
    "Some volume can’t be produced on time due to load or material availability.";
    "";
    "Do you prefer partial first shipment, or full order later?" ].

(** The human-facing message: the [if] / [elif] chain on [status]. *)
Definition body_lines (d : sim_result) : list string :=
  let sku_name := get (product_name d) (get (sku d) "") in
  let dc := get (dc_name d) "your DC" in
  let req_qty := get (requested_qty d) 0 in
  let req_date := get (requested_date d) "" in
  let covered := get (covered_qty_on_requested_date d) 0 in
  let remaining := get (remaining_qty d) 0 in
  let status := get (status d) "" in
  if String.eqb status "full" then
    full_body req_qty sku_name dc req_date
  else if String.eqb status "partial" && (0 <? covered) && (0 <? remaining)
  then partial_body req_qty covered remaining sku_name dc req_date
  else if String.eqb status "no" then
    no_body req_qty sku_name dc req_date
  else other_body req_qty covered sku_name req_date.

Definition nonempty {A : Type} (l : list A) : bool :=
  match l with [] => false | _ :: _ => true end.

Definition tech_bits (d : sim_result) : list string :=
  let cap_notes := get (capacity_notes d) [] in
  let mat_notes := get (material_notes d) [] in
  (if nonempty cap_notes
   then [("Capacity notes: " ++ String.concat "; " cap_notes)%string]
   else [])
  ++ (if nonempty mat_notes
      then [("Material notes: " ++ String.concat "; " mat_notes)%string]
      else []).

Definition signature : list string := [""; "Thanks,"; "Planning Team"].

(** [body_lines + signature], after the planning information is added to
    the body. *)
Definition reply_lines (d : sim_result) : list string :=
  (if nonempty (tech_bits d)
   then body_lines d ++ [""; "Info for planning:"] ++ tech_bits d
   else body_lines d)
  ++ signature.

Definition build_dc_reply (d : sim_result) : string :=
  String.concat newline (reply_lines d).

(** The dict [simulate_request_core] returns, as [build_dc_reply] reads
    it; [show] gives the text of a note. *)
Definition status_text (st : Main.status) : string :=
  match st with
  | Main.full => "full"
  | Main.partial => "partial"
  | Main.no => "no"
  end.

Definition of_result (show : note -> string) (r : Main.result)
  : sim_result :=
  mkSimResult
    (Some (Main.product_name r)) (Some (Main.sku r)) (Some (Main.dc_name r))
    (Some (Main.requested_qty r)) (Some (Main.requested_date r))
    (Some (Main.covered_qty_on_requested_date r))
    (Some (Main.remaining_qty r))
    (Some (status_text (Main.status_of r)))
    (Some (map show (Main.capacity_notes r)))
    (Some (map show (Main.material_notes r))).

End Reply.

(** ** main.py: [parse_dc_email_with_llm]

    The five [re.search] calls are run by a small backtracking matcher with
    the semantics of Python's [re] on the constructs they use: the search
    takes the leftmost position at which the pattern matches, a repetition
    is greedy and gives characters back when what follows fails, and [\b]
    holds between a word character and a non-word character or an end of
    the text. A text is the list of its characters; the classes [\d], [\s]
    and [\w] are the ones Python uses on characters below 128. *)

Module Email.

Definition code (c : ascii) : nat := nat_of_ascii c.

Definition between (lo hi : nat) (c : ascii) : bool :=
  Nat.leb lo (code c) && Nat.leb (code c) hi.

(** [\d] *)
Definition is_digit : ascii -> bool := between 48 57.

Definition is_upper : ascii -> bool := between 65 90.

Definition is_lower : ascii -> bool := between 97 122.

Definition is_letter (c : ascii) : bool := is_upper c || is_lower c.

Definition is_char (x c : ascii) : bool := Ascii.eqb c x.

(** [\s]: tab, line feed, vertical tab, form feed, carriage return, the
    four separators 28 to 31, and the space. *)
Definition is_space (c : ascii) : bool := between 9 13 c || between 28 32 c.

(** [\w] *)
Definition is_word (c : ascii) : bool :=
  is_digit c || is_letter c || is_char "_" c.

(** [k] under [re.IGNORECASE] *)
Definition is_k (c : ascii) : bool := is_char "k" c || is_char "K" c.

(** [[A-Z0-9]] and [[A-Z0-9_]] *)
Definition is_sku_head (c : ascii) : bool := is_upper c || is_digit c.

Definition is_sku_tail (c : ascii) : bool :=
  is_upper c || is_digit c || is_char "_" c.

Inductive regex :=
| Eps
| Chr (p : ascii -> bool)             (* one character of a class *)
| Boundary                            (* \b *)
| Many (p : ascii -> bool) (least : nat)
                                      (* greedy p{least,} *)
| Seq (r1 r2 : regex).

(** The character before the current position, if any, is carried along
    for [\b]. *)
Definition at_boundary (prev : option ascii) (s : list ascii) : bool :=
  xorb (match prev with Some c => is_word c | None => false end)
       (match s with c :: _ => is_word c | [] => false end).

Section Matcher.

Context {R : Type}.

Fixpoint many (p : ascii -> bool) (least : nat) (prev : option ascii)
  (s : list ascii) (k : option ascii -> list ascii -> option R) : option R :=
  match s with
  | c :: s' =>
      if p c then
        match many p (Nat.pred least) (Some c) s' k with
        | Some r => Some r
        | None => match least with O => k prev s | S _ => None end
        end
      else match least with O => k prev s | S _ => None end
  | [] => match least with O => k prev s | S _ => None end
  end.

Fixpoint run (r : regex) (prev : option ascii) (s : list ascii)
  (k : option ascii -> list ascii -> option R) : option R :=
  match r with
  | Eps => k prev s
  | Chr p =>
      match s with
      | c :: s' => if p c then k (Some c) s' else None
      | [] => None
      end
  | Boundary => if at_boundary prev s then k prev s else None
  | Many p least => many p least prev s k
  | Seq r1 r2 => run r1 prev s (fun prev' s' => run r2 prev' s' k)
  end.

End Matcher.

(** A pattern with one capturing group: what stands before the group, the
    group, and what stands after it. *)
Record pattern := mkPattern {
  before : regex;
  group : regex;
  after : regex
}.

(** A match of the pattern starting at the current position; the result is
    the text of the group. *)
Definition match_at (pat : pattern) (prev : option ascii) (s : list ascii)
  : option (list ascii) :=
  run (before pat) prev s
    (fun p1 s1 =>
       run (group pat) p1 s1
         (fun p2 s2 =>
            run (after pat) p2 s2
              (fun _ _ =>
                 Some (firstn (List.length s1 - List.length s2) s1)))).

(** [re.search]: the first position, from the left, with a match. *)
Fixpoint search (pat : pattern) (prev : option ascii) (s : list ascii)
  : option (list ascii) :=
  match match_at pat prev s with
  | Some g => Some g
  | None =>
      match s with
      | [] => None
      | c :: s' => search pat (Some c) s'
      end
  end.

Definition lit (x : ascii) : regex := Chr (is_char x).

Definition digit_class : regex := Chr is_digit.

(** [r"(\d+)\s*k"] with [re.IGNORECASE] *)
Definition k_pattern : pattern :=
  mkPattern Eps (Many is_digit 1) (Seq (Many is_space 0) (Chr is_k)).

(** [r"\b(\d{3,})\b"] *)
Definition num_pattern : pattern :=
  mkPattern Boundary (Many is_digit 3) Boundary.

(** [r"\b(20\d{2}-\d{2}-\d{2})\b"] *)
Definition date_pattern : pattern :=
  mkPattern Boundary
    (Seq (lit "2") (Seq (lit "0") (Seq digit_class (Seq digit_class
     (Seq (lit "-") (Seq digit_class (Seq digit_class
     (Seq (lit "-") (Seq digit_class digit_class)))))))))
    Boundary.

(** [r"\b([A-Z][a-zA-Z]+(?:\s+DC))\b"] *)
Definition dc_pattern : pattern :=
  mkPattern Boundary
    (Seq (Chr is_upper) (Seq (Many is_letter 1)
     (Seq (Many is_space 1) (Seq (lit "D") (lit "C")))))
    Boundary.

(** [r"\b([A-Z0-9]+_[A-Z0-9_]+)\b"] *)
Definition sku_pattern : pattern :=
  mkPattern Boundary
    (Seq (Many is_sku_head 1) (Seq (lit "_") (Many is_sku_tail 1)))
    Boundary.

(** [int(m.group(1))] on a group of decimal digits. *)
Definition int_of (digits : list ascii) : Z :=
  fold_left (fun acc c => 10 * acc + (Z.of_nat (code c) - 48)) digits 0.

(** The dict the function returns. *)
Record parsed := mkParsed {
  sku : option string;
  qty_requested : option Z;
  requested_date : option string;
  dc_name : option string
}.

Definition parse_chars (text : list ascii) : parsed :=
  let m_k := search k_pattern None text in
  let m_num := search num_pattern None text in
  let qty_requested :=
    match m_k with
    | Some g => Some (int_of g * 1000)
    | None =>
        match m_num with
        | Some g => Some (int_of g)
        | None => None
        end
    end in
  let requested_date :=
    option_map string_of_list_ascii (search date_pattern None text) in
  let dc_name :=
    option_map string_of_list_ascii (search dc_pattern None text) in
  let sku :=
    option_map string_of_list_ascii (search sku_pattern None text) in
  mkParsed sku qty_requested requested_date dc_name.

Definition parse_dc_email_with_llm (raw_email_text : string) : parsed :=
  parse_chars (list_ascii_of_string raw_email_text).

(** What it means for a pattern to match, stated without the matcher:
    [matches r prev s prev' s'] says that [r] can take the text from the
    position before [s] to the position before [s']. *)
Definition last_of (prev : option ascii) (cs : list ascii) : option ascii :=
  last (map Some cs) prev.

Inductive matches
  : regex -> option ascii -> list ascii -> option ascii -> list ascii -> Prop :=
| M_eps prev s : matches Eps prev s prev s
| M_chr p prev c s :
    p c = true -> matches (Chr p) prev (c :: s) (Some c) s
| M_boundary prev s :
    at_boundary prev s = true -> matches Boundary prev s prev s
| M_many p least prev cs s :
    Forall (fun c => p c = true) cs ->
    (least <= List.length cs)%nat ->
    matches (Many p least) prev (cs ++ s) (last_of prev cs) s
| M_seq r1 r2 prev s prev1 s1 prev2 s2 :
    matches r1 prev s prev1 s1 ->
    matches r2 prev1 s1 prev2 s2 ->
    matches (Seq r1 r2) prev s prev2 s2.

(** Every character of the text is below 128. *)
Definition plain (text : list ascii) : Prop :=
  Forall (fun c => (code c < 128)%nat) text.

(** The texts a pattern can take, word boundaries aside. *)
Fixpoint lang (r : regex) (g : list ascii) : Prop :=
  match r with
  | Eps => g = []
  | Chr p => exists c, g = [c] /\ p c = true
  | Boundary => g = []
  | Many p least =>
      Forall (fun c => p c = true) g /\ (least <= List.length g)%nat
  | Seq r1 r2 => exists g1 g2, g = g1 ++ g2 /\ lang r1 g1 /\ lang r2 g2
  end.

(** [digits] stands in the text as a quantity in thousands: it is followed
    by optional blanks and a letter k. *)
Definition k_form (text digits : list ascii) : Prop :=
  exists pre blanks c post,
    text = pre ++ digits ++ blanks ++ c :: post
    /\ digits <> []
    /\ Forall (fun c => is_digit c = true) digits
    /\ Forall (fun c => is_space c = true) blanks
    /\ is_k c = true.

Definition not_word (c : option ascii) : Prop :=
  match c with
  | Some c => is_word c = false
  | None => True
  end.


End Email.

(** ** app.py: the product choice of the sidebar

    [product_options] is built by a dict comprehension over the rows of the
    products table; a Python dict keeps its keys in the order in which they
    were first set, and setting a key again replaces its value in place. *)

Module Sidebar.

Fixpoint dict_set (key value : string) (d : list (string * string))
  : list (string * string) :=
  match d with
  | [] => [(key, value)]
  | (k, v) :: d' =>
      if String.eqb k key then (k, value) :: d'
      else (k, v) :: dict_set key value d'
  end.

(** [d[key]]; [None] stands for the [KeyError]. *)
Fixpoint dict_get (key : string) (d : list (string * string))
  : option string :=
  match d with
  | [] => None
  | (k, v) :: d' => if String.eqb k key then Some v else dict_get key d'
  end.

(** [{row["product_name"]: row["product_id"] for _, row in ...iterrows()}] *)
Definition product_options (products_df : list ProductRow)
  : list (string * string) :=
  fold_left (fun d row => dict_set (p_product_name row) (p_product_id row) d)
            products_df [].

(** [list(product_options.keys())] *)
Definition product_display_names (options : list (string * string))
  : list string :=
  map fst options.

End Sidebar.

(** * Properties *)

(** ** Dates *)

Ltac date_bools :=
  unfold date_lt, date_leb, date_ltb, date_eqb in *; simpl in *;
  repeat rewrite ?orb_true_iff, ?andb_true_iff, ?Z.ltb_lt, ?Z.eqb_eq in *.

Lemma date_eqb_eq (a b : date) : date_eqb a b = true <-> a = b.
Proof.
  destruct a as [ya ma da], b as [yb mb db]; date_bools; split.
  - intros [[-> ->] ->]; reflexivity.
  - intros H; injection H as -> -> ->; auto.
Qed.

Lemma date_eqb_refl (a : date) : date_eqb a a = true.
Proof. apply date_eqb_eq; reflexivity. Qed.

Lemma date_leb_refl (a : date) : date_leb a a = true.
Proof. unfold date_leb; rewrite date_eqb_refl; apply orb_true_r. Qed.

Lemma date_leb_total (a b : date) : date_leb a b = true \/ date_leb b a = true.
Proof. destruct a, b; date_bools; lia. Qed.

Lemma date_leb_trans (a b c : date) :
  date_leb a b = true -> date_leb b c = true -> date_leb a c = true.
Proof. destruct a, b, c; date_bools; lia. Qed.

Lemma string_eqb_eq (a b : string) : String.eqb a b = true <-> a = b.
Proof. apply String.eqb_eq. Qed.

(** ** [unique] and [sort_by] *)

Section Unique.

Context {A : Type} (eqb : A -> A -> bool).
Hypothesis eqb_spec : forall x y, eqb x y = true <-> x = y.

Lemma unique_In (l : list A) (x : A) : In x (unique eqb l) <-> In x l.
Proof.
  induction l as [|y l IH]; simpl; [tauto|].
  rewrite filter_In, IH, negb_true_iff.
  split.
  - intros [->|[H _]]; auto.
  - intros [->|H]; auto.
    destruct (eqb x y) eqn:E; [left; symmetry; now apply eqb_spec|auto].
Qed.

Lemma unique_NoDup (l : list A) : NoDup (unique eqb l).
Proof.
  induction l as [|y l IH]; simpl; constructor.
  - rewrite filter_In, negb_true_iff.
    intros [_ H]. assert (eqb y y = true) by now apply eqb_spec. congruence.
  - now apply NoDup_filter.
Qed.

Lemma unique_nil_iff (l : list A) : unique eqb l = [] <-> l = [].
Proof. destruct l; simpl; split; congruence. Qed.

End Unique.

Section Sorting.

Context {A : Type} (leb : A -> A -> bool).

Lemma insert_by_perm (x : A) (l : list A) :
  Permutation (insert_by leb x l) (x :: l).
Proof.
  induction l as [|y l IH]; simpl; auto.
  destruct (leb x y); auto.
  rewrite IH. apply perm_swap.
Qed.

Lemma sort_by_perm (l : list A) : Permutation (sort_by leb l) l.
Proof.
  induction l as [|x l IH]; simpl; auto.
  rewrite insert_by_perm. now constructor.
Qed.

Hypothesis leb_total : forall x y, leb x y = true \/ leb y x = true.
Hypothesis leb_trans :
  forall x y z, leb x y = true -> leb y z = true -> leb x z = true.

Let le (x y : A) : Prop := leb x y = true.

Lemma insert_by_sorted (x : A) (l : list A) :
  StronglySorted le l -> StronglySorted le (insert_by leb x l).
Proof.
  induction 1 as [|y l Hs IH Hall]; simpl.
  - repeat constructor.
  - destruct (leb x y) eqn:E.
    + constructor; [now constructor|].
      constructor; [exact E|].
      eapply Forall_impl; [|exact Hall]. intros z Hz. eapply leb_trans; eauto.
    + constructor; [exact IH|].
      assert (Hyx : le y x) by (destruct (leb_total x y); [congruence|auto]).
      rewrite Forall_forall in *. intros z Hz.
      apply (Permutation_in _ (insert_by_perm x l)) in Hz.
      destruct Hz as [<-|Hz]; auto.
Qed.

Lemma sort_by_sorted (l : list A) : StronglySorted le (sort_by leb l).
Proof.
  induction l as [|x l IH]; simpl; [constructor|now apply insert_by_sorted].
Qed.

End Sorting.

(** The dates of the window, ascending and without repetition. *)
Lemma window_dates_sorted (w : list ScheduleRow) :
  StronglySorted (fun a b => date_leb a b = true) (window_dates w).
Proof.
  apply sort_by_sorted; [apply date_leb_total|apply date_leb_trans].
Qed.

Lemma window_dates_NoDup (w : list ScheduleRow) : NoDup (window_dates w).
Proof.
  unfold window_dates.
  eapply Permutation_NoDup; [symmetry; apply sort_by_perm|].
  apply unique_NoDup, date_eqb_eq.
Qed.

Lemma window_dates_In (w : list ScheduleRow) (d : date) :
  In d (window_dates w) <-> exists r, In r w /\ s_production_date r = d.
Proof.
  unfold window_dates. split.
  - intros H. apply (Permutation_in _ (sort_by_perm _ _)) in H.
    apply -> (unique_In _ date_eqb_eq) in H. apply in_map_iff in H.
    destruct H as [r [E Hr]]; eauto.
  - intros [r [Hr E]].
    apply (Permutation_in _ (Permutation_sym (sort_by_perm _ _))).
    apply <- (unique_In _ date_eqb_eq). apply in_map_iff; eauto.
Qed.

Lemma window_dates_strict (w : list ScheduleRow) :
  StronglySorted date_lt (window_dates w).
Proof.
  pose proof (window_dates_sorted w) as Hs.
  pose proof (window_dates_NoDup w) as Hn.
  induction Hs as [|d l Hs IH Hall]; constructor.
  - apply IH. now inversion Hn.
  - inversion Hn as [|? ? Hnin _]; subst.
    rewrite Forall_forall in *. intros e He.
    specialize (Hall e He). unfold date_lt, date_leb in *.
    apply orb_true_iff in Hall. destruct Hall as [H|H]; auto.
    apply date_eqb_eq in H. subst. contradiction.
Qed.

(** ** The greedy fill *)

Section Greedy.

Context {K : Type}.
Implicit Types (s : list (K * Z)) (n : Z).

Lemma total_app s1 s2 : total (s1 ++ s2) = total s1 + total s2.
Proof. induction s1 as [|p s1 IH]; simpl; [reflexivity|rewrite IH; lia]. Qed.

Lemma greedy_nonpos s n : n <= 0 -> greedy s n = [].
Proof.
  intros H. destruct s as [|[k h] s]; simpl; auto.
  destruct (Z.leb_spec n 0); [reflexivity|lia].
Qed.

Lemma greedy_app s1 s2 n :
  greedy (s1 ++ s2) n
  = greedy s1 n ++ greedy s2 (n - total (greedy s1 n)).
Proof.
  revert n. induction s1 as [|[k h] s1 IH]; intros n; simpl.
  - f_equal. lia.
  - destruct (Z.leb_spec n 0) as [Hn|Hn]; simpl.
    + rewrite greedy_nonpos by lia. reflexivity.
    + rewrite IH, Z.sub_add_distr. reflexivity.
Qed.

Lemma total_nonneg s : positive_slots s -> 0 <= total s.
Proof. induction 1 as [|p s Hp _ IH]; simpl; lia. Qed.

Lemma greedy_total s n :
  positive_slots s -> 0 <= n -> total (greedy s n) = Z.min n (total s).
Proof.
  intros Hs. revert n.
  induction Hs as [|[k h] s Hh Hs IH]; intros n Hn; simpl in *.
  - lia.
  - pose proof (total_nonneg s Hs).
    destruct (Z.leb_spec n 0); simpl; [lia|].
    rewrite IH by lia. lia.
Qed.

Lemma greedy_prefix s n :
  exists rest, map fst s = map fst (greedy s n) ++ rest.
Proof.
  revert n. induction s as [|[k h] s IH]; intros n; simpl.
  - exists []. reflexivity.
  - destruct (n <=? 0); simpl.
    + eexists; reflexivity.
    + destruct (IH (n - Z.min h n)) as [rest E].
      exists rest. now rewrite <- E.
Qed.

Lemma greedy_bound s n :
  positive_slots s ->
  Forall (fun p => exists h, In (fst p, h) s /\ 0 < snd p <= h
                             /\ snd p <= n)
         (greedy s n).
Proof.
  intros Hs. revert n.
  induction Hs as [|[k h] s Hh Hs IH]; intros n; simpl in *.
  - constructor.
  - destruct (Z.leb_spec n 0); [constructor|].
    constructor.
    + simpl. exists h. split; [now left|lia].
    + eapply Forall_impl; [|apply IH].
      intros p [h' [Hin Hb]]. exists h'. split; [now right|lia].
Qed.

(** Once something is still needed after the fill, every slot was used. *)
Lemma greedy_exhausts s n :
  positive_slots s -> 0 < n - total (greedy s n) ->
  map fst (greedy s n) = map fst s.
Proof.
  intros Hs. revert n.
  induction Hs as [|[k h] s Hh Hs IH]; intros n Hn; simpl in *; auto.
  destruct (Z.leb_spec n 0); simpl in *.
  - lia.
  - f_equal. apply IH. lia.
Qed.

End Greedy.

Lemma slots_of_app ld sw p1 p2 :
  slots_of ld sw (p1 ++ p2) = slots_of ld sw p1 ++ slots_of ld sw p2.
Proof. unfold slots_of. now rewrite map_app, filter_app. Qed.

Lemma slots_of_cons ld sw k ps :
  slots_of ld sw (k :: ps)
  = (if 0 <? headroom_at ld sw (fst k) (snd k)
     then [(k, headroom_at ld sw (fst k) (snd k))] else [])
    ++ slots_of ld sw ps.
Proof.
  unfold slots_of. simpl.
  destruct (0 <? headroom_at ld sw (fst k) (snd k)); reflexivity.
Qed.

Lemma slots_of_positive ld sw ps : positive_slots (slots_of ld sw ps).
Proof.
  unfold positive_slots, slots_of. apply Forall_forall.
  intros p Hp. apply filter_In in Hp. destruct Hp as [_ Hp].
  now apply Z.ltb_lt.
Qed.

Lemma slots_of_keys ld sw ps :
  map fst (slots_of ld sw ps)
  = filter (fun k => 0 <? headroom_at ld sw (fst k) (snd k)) ps.
Proof.
  unfold slots_of. induction ps as [|k ps IH]; simpl; auto.
  destruct (0 <? headroom_at ld sw (fst k) (snd k)); simpl; now rewrite IH.
Qed.

Lemma slots_of_In ld sw ps k h :
  In (k, h) (slots_of ld sw ps) ->
  In k ps /\ h = headroom_at ld sw (fst k) (snd k).
Proof.
  unfold slots_of. rewrite filter_In, in_map_iff.
  intros [[k' [E Hk]] _]. injection E as -> <-. auto.
Qed.

(** ** The loops compute the greedy fill of the eligible pairs *)

Lemma app_alloc_lines_greedy ld sw d ls rem rows :
  let g := greedy (slots_of ld sw (map (pair d) ls)) rem in
  App.alloc_lines ld sw d ls (rem, rows)
  = (rem - total g, rows ++ map app_row g).
Proof.
  revert rem rows. induction ls as [|l ls IH]; intros rem rows.
  - simpl. rewrite app_nil_r. f_equal. lia.
  - cbn zeta in IH. cbn [map App.alloc_lines]. rewrite slots_of_cons.
    destruct (Z.leb_spec rem 0) as [Hr|Hr].
    + rewrite greedy_nonpos by lia. simpl. rewrite app_nil_r. f_equal. lia.
    + unfold headroom_at. cbn [fst snd].
      destruct (line_info_of l ld) as [|info infos].
      * cbn [Z.ltb Z.compare app]. apply IH.
      * cbv zeta. set (h := Z.max _ 0).
        destruct (Z.leb_spec h 0) as [Hh|Hh].
        -- destruct (Z.ltb_spec 0 h); [lia|]. apply IH.
        -- destruct (Z.ltb_spec 0 h); [|lia].
           cbn [app greedy]. destruct (Z.leb_spec rem 0); [lia|].
           rewrite IH. cbn [total fold_right map snd fst].
           rewrite <- app_assoc. cbn [app]. f_equal.
           fold (total (greedy (slots_of ld sw (map (pair d) ls))
                               (rem - Z.min h rem))). lia.
Qed.

Lemma app_alloc_dates_greedy ld sw ls ds rem rows :
  let g := greedy (slots_of ld sw (list_prod ds ls)) rem in
  App.alloc_dates ld sw ls ds (rem, rows)
  = (rem - total g, rows ++ map app_row g).
Proof.
  revert rem rows. induction ds as [|d ds IH]; intros rem rows; simpl.
  - rewrite app_nil_r. f_equal. lia.
  - destruct (Z.leb_spec rem 0) as [Hr|Hr].
    + rewrite greedy_nonpos by lia. simpl. rewrite app_nil_r. f_equal. lia.
    + rewrite app_alloc_lines_greedy, IH. cbv zeta.
      change (map (fun y : string => (d, y)) ls) with (map (pair d) ls).
      rewrite slots_of_app, greedy_app, total_app, map_app.
      f_equal; [lia|]. rewrite <- app_assoc. reflexivity.
Qed.

Lemma main_alloc_lines_greedy ld sw d ls rem rows :
  let g := greedy (slots_of ld sw (map (pair d) ls)) rem in
  Main.alloc_lines ld sw d ls (rem, rows)
  = (rem - total g, rows ++ map main_row g).
Proof.
  revert rem rows. induction ls as [|l ls IH]; intros rem rows.
  - simpl. rewrite app_nil_r. f_equal. lia.
  - cbn zeta in IH. cbn [map Main.alloc_lines]. rewrite slots_of_cons.
    destruct (Z.leb_spec rem 0) as [Hr|Hr].
    + rewrite greedy_nonpos by lia. simpl. rewrite app_nil_r. f_equal. lia.
    + unfold headroom_at. cbn [fst snd].
      destruct (line_info_of l ld) as [|info infos].
      * cbn [Z.ltb Z.compare app]. apply IH.
      * cbv zeta. set (h := Z.max _ 0).
        destruct (Z.leb_spec h 0) as [Hh|Hh].
        -- destruct (Z.ltb_spec 0 h); [lia|]. apply IH.
        -- destruct (Z.ltb_spec 0 h); [|lia].
           cbn [app greedy]. destruct (Z.leb_spec rem 0); [lia|].
           rewrite IH. cbn [total fold_right map snd fst].
           rewrite <- app_assoc. cbn [app]. f_equal.
           fold (total (greedy (slots_of ld sw (map (pair d) ls))
                               (rem - Z.min h rem))). lia.
Qed.

Lemma main_alloc_dates_greedy ld sw ls ds rem rows :
  let g := greedy (slots_of ld sw (list_prod ds ls)) rem in
  Main.alloc_dates ld sw ls ds (rem, rows)
  = (rem - total g, rows ++ map main_row g).
Proof.
  revert rem rows. induction ds as [|d ds IH]; intros rem rows; simpl.
  - rewrite app_nil_r. f_equal. lia.
  - destruct (Z.leb_spec rem 0) as [Hr|Hr].
    + rewrite greedy_nonpos by lia. simpl. rewrite app_nil_r. f_equal. lia.
    + rewrite main_alloc_lines_greedy, IH. cbv zeta.
      change (map (fun y : string => (d, y)) ls) with (map (pair d) ls).
      rewrite slots_of_app, greedy_app, total_app, map_app.
      f_equal; [lia|]. rewrite <- app_assoc. reflexivity.
Qed.

(** ** The stages, in closed form *)

Section Stages.

Variables (product_id : string) (qty : Z) (due : date) (data : Data).

Let A := already_planned_cases product_id due data.
Let g := fill product_id qty due data.

Lemma app_allocation_eq :
  App.allocation product_id qty due data = (qty - A - total g, map app_row g).
Proof.
  unfold App.allocation. rewrite app_alloc_dates_greedy. reflexivity.
Qed.

Lemma main_allocation_eq :
  Main.allocation product_id qty due data
  = (qty - A - total g, map main_row g).
Proof.
  unfold Main.allocation. rewrite main_alloc_dates_greedy. reflexivity.
Qed.

Lemma app_new_capacity_eq :
  App.new_capacity_cases product_id qty due data = total g.
Proof.
  unfold App.new_capacity_cases. rewrite app_allocation_eq. simpl.
  fold A. lia.
Qed.

Lemma main_new_capacity_eq :
  Main.new_capacity_cases product_id qty due data = total g.
Proof.
  unfold Main.new_capacity_cases. rewrite main_allocation_eq. simpl.
  fold A. lia.
Qed.

Lemma app_extra_rows_eq :
  App.extra_plan_rows product_id qty due data = map app_row g.
Proof. unfold App.extra_plan_rows. now rewrite app_allocation_eq. Qed.

Lemma main_extra_rows_eq :
  Main.extra_plan_rows product_id qty due data = map main_row g.
Proof. unfold Main.extra_plan_rows. now rewrite main_allocation_eq. Qed.

(** What the loops allocate lies between nothing and the need. *)
Lemma fill_total_bounds : A < qty -> 0 <= total g <= qty - A.
Proof.
  intros H. unfold g, fill. fold A.
  rewrite greedy_total by (auto using slots_of_positive; lia).
  pose proof (total_nonneg _ (slots_of_positive (lines data)
                                (sched_window due data)
                                (visited_pairs due product_id data))).
  lia.
Qed.

Lemma shortfall_eq :
  Main.capacity_shortfall product_id qty due data
  = App.capacity_shortfall product_id qty due data.
Proof.
  unfold Main.capacity_shortfall, App.capacity_shortfall.
  now rewrite app_new_capacity_eq, main_new_capacity_eq.
Qed.

End Stages.

(** The two material checks differ in the text of the missing-BOM note
    only. *)
Lemma material_check_length pid n bom_df inv_df :
  List.length (Main.material_check pid n bom_df inv_df)
  = List.length (App.material_check pid n bom_df inv_df).
Proof.
  unfold Main.material_check, App.material_check.
  destruct (0 <? n); [|reflexivity].
  destruct (filter _ bom_df); reflexivity.
Qed.

Lemma mat_blockers_length pid qty due data :
  List.length (Main.mat_blockers pid qty due data)
  = List.length (App.mat_blockers pid qty due data).
Proof.
  unfold Main.mat_blockers, App.mat_blockers.
  rewrite main_new_capacity_eq, app_new_capacity_eq.
  apply material_check_length.
Qed.

Lemma mat_blockers_length_nil pid qty due data :
  Main.mat_blockers pid qty due data <> []
  <-> App.mat_blockers pid qty due data <> [].
Proof.
  rewrite <- !length_zero_iff_nil, mat_blockers_length. tauto.
Qed.

Lemma mat_blockers_nil pid qty due data :
  Main.mat_blockers pid qty due data = []
  <-> App.mat_blockers pid qty due data = [].
Proof.
  rewrite <- !length_zero_iff_nil, mat_blockers_length. tauto.
Qed.

Lemma render_app_row p : render (app_row p) = main_row p.
Proof. reflexivity. Qed.

Lemma render_covering pid due data :
  map render (App.covering_rows pid due data) = Main.covering_rows pid due data.
Proof.
  unfold App.covering_rows, Main.covering_rows,
    App.covering_rows_of, Main.covering_rows_of.
  rewrite map_map. reflexivity.
Qed.

Lemma render_extra pid qty due data :
  map render (App.extra_plan_rows pid qty due data)
  = Main.extra_plan_rows pid qty due data.
Proof.
  rewrite app_extra_rows_eq, main_extra_rows_eq, map_map.
  apply map_ext, render_app_row.
Qed.

(** ** Each copy, branch by branch *)

Section Branches.

Variable to_datetime : string -> option timestamp.
Variables (product_id : string) (qty : Z) (due_str dc : string)
          (due : date) (data : Data).
Hypothesis parsed : to_datetime due_str = Some (Day due).

Let A := already_planned_cases product_id due data.

Lemma app_simulate_eq :
  App.simulate_request to_datetime product_id qty due_str data
  = Returned (app_answer product_id qty due data).
Proof.
  unfold App.simulate_request, app_answer, branch_of. rewrite parsed.
  cbv zeta.
  fold (sched_window due data).
  fold (already_planned_cases product_id due data).
  fold (App.covering_rows product_id due data).
  fold (capable_lines product_id data). fold A.
  destruct (qty <=? A); [reflexivity|].
  destruct (capable_lines product_id data) as [|l ls] eqn:Ec; [reflexivity|].
  unfold App.capacity_shortfall, App.mat_blockers, App.new_capacity_cases,
    App.extra_plan_rows, App.allocation.
  rewrite Ec. fold A.
  destruct (App.alloc_dates _ _ _ _ _) as [rem rows]. cbn [fst snd].
  set (mats := App.material_check _ _ _ _).
  destruct (_ && _) eqn:Eb; [reflexivity|].
  destruct mats as [|m ms]; cbn [List.length Nat.ltb Nat.leb Nat.eqb];
    rewrite ?andb_true_r, ?andb_false_r; reflexivity.
Qed.

Lemma main_simulate_eq :
  Main.simulate_request_core to_datetime product_id qty due_str dc data
  = Returned (main_answer product_id qty dc due data).
Proof.
  unfold Main.simulate_request_core, main_answer, branch_of. rewrite parsed.
  rewrite <- shortfall_eq, <- mat_blockers_length.
  cbv zeta.
  fold (sched_window due data).
  fold (already_planned_cases product_id due data).
  fold (Main.covering_rows product_id due data).
  fold (capable_lines product_id data). fold A.
  destruct (qty <=? A); [reflexivity|].
  destruct (capable_lines product_id data) as [|l ls] eqn:Ec; [reflexivity|].
  unfold Main.capacity_shortfall, Main.mat_blockers, Main.new_capacity_cases,
    Main.extra_plan_rows, Main.allocation.
  rewrite Ec. fold A.
  destruct (Main.alloc_dates _ _ _ _ _) as [rem rows]. cbn [fst snd].
  set (mats := Main.material_check _ _ _ _).
  destruct (_ && _) eqn:Eb; [reflexivity|].
  destruct mats as [|m ms]; cbn [List.length Nat.ltb Nat.leb Nat.eqb];
    rewrite ?andb_true_r, ?andb_false_r; reflexivity.
Qed.

End Branches.

(** ** Facts about the branches *)

Section BranchFacts.

Variables (product_id : string) (qty : Z) (due : date) (data : Data).

Let A := already_planned_cases product_id due data.

Lemma branch_already_covered :
  branch_of product_id qty due data = AlreadyCovered <-> qty <= A.
Proof.
  unfold branch_of. fold A. destruct (Z.leb_spec qty A).
  - tauto.
  - split; [|lia]. destruct (capable_lines _ _); [discriminate|].
    destruct (_ && _); discriminate.
Qed.

Lemma branch_needs_more :
  branch_of product_id qty due data <> AlreadyCovered -> A < qty.
Proof. rewrite branch_already_covered. lia. Qed.

Lemma branch_no_capable_line :
  branch_of product_id qty due data = NoCapableLine
  <-> A < qty /\ capable_lines product_id data = [].
Proof.
  unfold branch_of. fold A. destruct (Z.leb_spec qty A).
  - split; [discriminate|lia].
  - destruct (capable_lines _ _).
    + tauto.
    + split; [destruct (_ && _); discriminate|intros [_ ?]; discriminate].
Qed.

Lemma shortfall_nonneg :
  0 <= App.capacity_shortfall product_id qty due data.
Proof. unfold App.capacity_shortfall. lia. Qed.

Lemma full_condition :
  (App.capacity_shortfall product_id qty due data =? 0)
  && Nat.eqb (List.length (App.mat_blockers product_id qty due data)) 0
  = true
  <-> App.capacity_shortfall product_id qty due data = 0
      /\ App.mat_blockers product_id qty due data = [].
Proof.
  rewrite andb_true_iff, Z.eqb_eq, Nat.eqb_eq, length_zero_iff_nil. tauto.
Qed.

Lemma branch_full_after_allocation :
  branch_of product_id qty due data = FullAfterAllocation
  <-> A < qty /\ capable_lines product_id data <> []
      /\ App.capacity_shortfall product_id qty due data = 0
      /\ App.mat_blockers product_id qty due data = [].
Proof.
  unfold branch_of. fold A. destruct (Z.leb_spec qty A).
  - split; [discriminate|lia].
  - destruct (capable_lines _ _).
    + split; [discriminate|tauto].
    + destruct (_ && _) eqn:E.
      * apply full_condition in E. intuition discriminate.
      * split; [discriminate|]. intros (_ & _ & H1 & H2).
        assert (E' : true = false) by (rewrite <- E; symmetry;
                                       now apply full_condition).
        discriminate.
Qed.

Lemma branch_partial_or_no :
  branch_of product_id qty due data = PartialOrNo
  <-> A < qty /\ capable_lines product_id data <> []
      /\ (0 < App.capacity_shortfall product_id qty due data
          \/ App.mat_blockers product_id qty due data <> []).
Proof.
  pose proof shortfall_nonneg as Hs.
  unfold branch_of. fold A. destruct (Z.leb_spec qty A).
  - split; [discriminate|lia].
  - destruct (capable_lines _ _).
    + split; [discriminate|tauto].
    + destruct (_ && _) eqn:E.
      * apply full_condition in E. destruct E as [E1 E2].
        split; [discriminate|]. intros (_ & _ & [?|?]); [lia|contradiction].
      * split; [|reflexivity]. intros _.
        repeat split; auto; try discriminate.
        destruct (Z.eq_dec (App.capacity_shortfall product_id qty due data) 0)
          as [E0|E0]; [|left; lia].
        right. intros Em.
        assert (E' : true = false) by (rewrite <- E; symmetry;
                                       now apply full_condition).
        discriminate.
Qed.

(** In the last branch the shortfall is what is left of the need. *)
Lemma shortfall_value :
  A < qty ->
  App.capacity_shortfall product_id qty due data
  = qty - A - App.new_capacity_cases product_id qty due data.
Proof.
  intros H. unfold App.capacity_shortfall.
  rewrite app_new_capacity_eq.
  pose proof (fill_total_bounds product_id qty due data H). unfold A. lia.
Qed.

End BranchFacts.

(** ** New-plan rows inside a plan *)

Lemma app_new_of_covering pid due data :
  new_rows (App.covering_rows pid due data) = [].
Proof.
  unfold new_rows, App.covering_rows, App.covering_rows_of.
  induction (sort_by _ _); simpl; auto.
Qed.

Lemma app_new_of_extra pid qty due data :
  new_rows (App.extra_plan_rows pid qty due data)
  = App.extra_plan_rows pid qty due data.
Proof.
  unfold new_rows. rewrite app_extra_rows_eq.
  induction (fill pid qty due data); simpl; congruence.
Qed.

Lemma main_new_of_covering pid due data :
  main_new_rows (Main.covering_rows pid due data) = [].
Proof.
  unfold main_new_rows, Main.covering_rows, Main.covering_rows_of.
  induction (sort_by _ _); simpl; auto.
Qed.

Lemma main_new_of_extra pid qty due data :
  main_new_rows (Main.extra_plan_rows pid qty due data)
  = Main.extra_plan_rows pid qty due data.
Proof.
  unfold main_new_rows. rewrite main_extra_rows_eq.
  induction (fill pid qty due data); simpl; congruence.
Qed.

(** ** Quantities of the result *)

Section Quantities.

Variables (product_id : string) (qty : Z) (dc : string) (due : date)
          (data : Data).

Let A := already_planned_cases product_id due data.

(** What is left over, whichever branch is taken. *)
Lemma app_quantities :
  let r := app_answer product_id qty due data in
  App.allocated_total r + App.remaining r = qty
  /\ (App.can_fulfill r = true <-> App.remaining r = 0)
  /\ (App.can_fulfill r = false -> 0 < App.remaining r).
Proof.
  unfold app_answer.
  destruct (branch_of product_id qty due data) eqn:Eb; cbn.
  - intuition (try lia; discriminate).
  - apply branch_no_capable_line in Eb. intuition (try lia; discriminate).
  - intuition (try lia; discriminate).
  - apply branch_partial_or_no in Eb. destruct Eb as (Hlt & _ & Hwhy).
    pose proof (shortfall_value product_id qty due data Hlt) as Hs.
    pose proof (fill_total_bounds product_id qty due data Hlt) as Hb.
    rewrite <- app_new_capacity_eq in Hb.
    destruct (App.mat_blockers product_id qty due data) eqn:Em.
    + destruct Hwhy as [Hw|Hw]; [|contradiction].
      intuition (try lia; discriminate).
    + intuition (try lia; discriminate).
Qed.

Lemma main_quantities :
  let r := main_answer product_id qty dc due data in
  Main.covered_qty_on_requested_date r + Main.remaining_qty r = qty
  /\ (Main.status_of r = Main.full <-> Main.remaining_qty r = 0)
  /\ (Main.status_of r <> Main.full -> 0 < Main.remaining_qty r).
Proof.
  unfold main_answer.
  destruct (branch_of product_id qty due data) eqn:Eb; cbn.
  - intuition (try lia; try discriminate; congruence).
  - apply branch_no_capable_line in Eb.
    intuition (try lia; try discriminate; congruence).
  - intuition (try lia; try discriminate; congruence).
  - apply branch_partial_or_no in Eb. destruct Eb as (Hlt & _ & Hwhy).
    pose proof (shortfall_value product_id qty due data Hlt) as Hs.
    pose proof (fill_total_bounds product_id qty due data Hlt) as Hb.
    rewrite <- app_new_capacity_eq in Hb.
    rewrite <- mat_blockers_length_nil in Hwhy.
    rewrite main_new_capacity_eq, <- app_new_capacity_eq.
    destruct (Main.mat_blockers product_id qty due data) eqn:Em.
    + destruct Hwhy as [Hw|Hw]; [|contradiction].
      destruct (0 <? _); intuition (try lia; try discriminate; congruence).
    + destruct (0 <? _); intuition (try lia; try discriminate; congruence).
Qed.

End Quantities.

(** [C1] For every request whose due date parses, and whatever branch of
    the classifier it takes, both copies return a result in which the
    quantity covered and the quantity remaining add up to the quantity
    requested. *)
Theorem allocated_plus_remaining
  (to_datetime : string -> option timestamp)
  (product_id : string) (qty : Z) (due_str dc : string) (due : date)
  (data : Data) :
  to_datetime due_str = Some (Day due) ->
  exists ra rm,
    App.simulate_request to_datetime product_id qty due_str data
    = Returned ra
    /\ Main.simulate_request_core to_datetime product_id qty due_str dc data
       = Returned rm
    /\ App.allocated_total ra + App.remaining ra = qty
    /\ Main.covered_qty_on_requested_date rm + Main.remaining_qty rm = qty.
Proof.
  intros Hd.
  exists (app_answer product_id qty due data),
         (main_answer product_id qty dc due data).
  split; [now apply app_simulate_eq|].
  split; [now apply main_simulate_eq|].
  split.
  - apply app_quantities.
  - apply main_quantities.
Qed.

(** [C10] The status is [full] exactly when nothing remains, and a
    [partial] or [no] outcome leaves a positive remainder; for app.py,
    [can_fulfill] is true exactly when nothing remains. *)
Theorem full_iff_nothing_remains
  (to_datetime : string -> option timestamp)
  (product_id : string) (qty : Z) (due_str dc : string) (due : date)
  (data : Data) :
  to_datetime due_str = Some (Day due) ->
  exists ra rm,
    App.simulate_request to_datetime product_id qty due_str data
    = Returned ra
    /\ Main.simulate_request_core to_datetime product_id qty due_str dc data
       = Returned rm
    /\ (Main.status_of rm = Main.full <-> Main.remaining_qty rm = 0)
    /\ (Main.status_of rm = Main.partial \/ Main.status_of rm = Main.no ->
        0 < Main.remaining_qty rm)
    /\ (App.can_fulfill ra = true <-> App.remaining ra = 0)
    /\ (App.can_fulfill ra = false -> 0 < App.remaining ra).
Proof.
  intros Hd.
  exists (app_answer product_id qty due data),
         (main_answer product_id qty dc due data).
  split; [now apply app_simulate_eq|].
  split; [now apply main_simulate_eq|].
  destruct (app_quantities product_id qty due data) as (_ & Ha1 & Ha2).
  destruct (main_quantities product_id qty dc due data) as (_ & Hm1 & Hm2).
  repeat split; try apply Ha1; try apply Hm1; auto.
  intros [E|E]; apply Hm2; rewrite E; discriminate.
Qed.

(** ** The last branch of the classifier *)

(** [C2] When more is needed than is planned, a capable line exists, and
    there is a capacity shortfall or a material blocker, then: with a
    material blocker the newly allocated quantity counts for nothing, even
    if the shortfall is zero; the total is the already-planned quantity plus
    the feasible new quantity; the new-plan rows are in the plan only if
    that quantity is positive; main.py's status is [partial] if the total is
    positive and [no] otherwise; and the capacity blockers hold the
    shortfall note exactly when the shortfall is positive. *)
Theorem last_branch_outcome
  (to_datetime : string -> option timestamp)
  (product_id : string) (qty : Z) (due_str dc : string) (due : date)
  (data : Data) :
  to_datetime due_str = Some (Day due) ->
  already_planned_cases product_id due data < qty ->
  capable_lines product_id data <> [] ->
  0 < Main.capacity_shortfall product_id qty due data
  \/ Main.mat_blockers product_id qty due data <> [] ->
  let A := already_planned_cases product_id due data in
  let short := Main.capacity_shortfall product_id qty due data in
  let mats := Main.mat_blockers product_id qty due data in
  let feasible_new :=
    match mats with
    | [] => Main.new_capacity_cases product_id qty due data
    | _ :: _ => 0
    end in
  exists rm ra,
    Main.simulate_request_core to_datetime product_id qty due_str dc data
    = Returned rm
    /\ App.simulate_request to_datetime product_id qty due_str data
       = Returned ra
    /\ (mats <> [] -> feasible_new = 0)
    /\ Main.covered_qty_on_requested_date rm = A + feasible_new
    /\ Main.existing_orders_used rm
       = Main.covering_rows product_id due data
         ++ (if 0 <? feasible_new
             then Main.extra_plan_rows product_id qty due data else [])
    /\ Main.status_of rm
       = (if 0 <? Main.covered_qty_on_requested_date rm
          then Main.partial else Main.no)
    /\ Main.capacity_notes rm
       = (if 0 <? short then [ShortCases short (Day due)] else [])
    /\ Main.material_notes rm = mats
    /\ App.can_fulfill ra = false
    /\ App.allocated_total ra = A + feasible_new
    /\ App.plan_rows ra
       = App.covering_rows product_id due data
         ++ (if 0 <? feasible_new
             then App.extra_plan_rows product_id qty due data else [])
    /\ App.capacity_blockers ra
       = (if 0 <? short then [ShortCases short (Day due)] else [])
    /\ App.material_blockers ra = App.mat_blockers product_id qty due data.
Proof.
  intros Hd Hlt Hcap Hwhy A short mats feasible_new.
  exists (main_answer product_id qty dc due data),
         (app_answer product_id qty due data).
  split; [now apply main_simulate_eq|].
  split; [now apply app_simulate_eq|].
  assert (Eb : branch_of product_id qty due data = PartialOrNo).
  { apply branch_partial_or_no. rewrite <- shortfall_eq.
    rewrite <- mat_blockers_length_nil. auto. }
  unfold main_answer, app_answer. rewrite Eb. cbn.
  fold A short mats feasible_new.
  assert (Ef : match App.mat_blockers product_id qty due data with
               | [] => App.new_capacity_cases product_id qty due data
               | _ :: _ => 0
               end = feasible_new).
  { unfold feasible_new, mats.
    pose proof (mat_blockers_length product_id qty due data) as Hl.
    rewrite main_new_capacity_eq, <- app_new_capacity_eq.
    destruct (Main.mat_blockers _ _ _ _), (App.mat_blockers _ _ _ _);
      simpl in Hl; congruence. }
  rewrite Ef. unfold short. rewrite <- shortfall_eq.
  repeat split; auto.
  unfold feasible_new. destruct mats; congruence.
Qed.

(** ** The new-plan rows of a result *)

Lemma new_rows_app l1 l2 : new_rows (l1 ++ l2) = new_rows l1 ++ new_rows l2.
Proof. apply filter_app. Qed.

Lemma main_new_rows_app l1 l2 :
  main_new_rows (l1 ++ l2) = main_new_rows l1 ++ main_new_rows l2.
Proof. apply filter_app. Qed.

(** The new-plan rows of both results come from one and the same fill:
    either all of it, or none of it. *)
Lemma new_rows_form pid qty dc due data :
  exists g,
    (g = [] \/ g = fill pid qty due data)
    /\ new_rows (App.plan_rows (app_answer pid qty due data))
       = map app_row g
    /\ main_new_rows
         (Main.existing_orders_used (main_answer pid qty dc due data))
       = map main_row g.
Proof.
  unfold app_answer, main_answer.
  destruct (branch_of pid qty due data); cbn.
  - exists []. rewrite app_new_of_covering, main_new_of_covering. auto.
  - exists []. rewrite app_new_of_covering, main_new_of_covering. auto.
  - exists (fill pid qty due data).
    rewrite new_rows_app, main_new_rows_app, app_new_of_covering,
      main_new_of_covering, app_new_of_extra, main_new_of_extra.
    rewrite app_extra_rows_eq, main_extra_rows_eq. auto.
  - rewrite new_rows_app, main_new_rows_app, app_new_of_covering,
      main_new_of_covering. cbn.
    pose proof (mat_blockers_length pid qty due data) as Hl.
    rewrite main_new_capacity_eq, app_new_capacity_eq.
    destruct (Main.mat_blockers pid qty due data),
             (App.mat_blockers pid qty due data); try discriminate Hl.
    + destruct (0 <? total (fill pid qty due data)).
      * exists (fill pid qty due data).
        rewrite app_new_of_extra, main_new_of_extra.
        rewrite app_extra_rows_eq, main_extra_rows_eq. auto.
      * exists []. auto.
    + exists []. auto.
Qed.

Lemma list_prod_NoDup {X Y : Type} (xs : list X) (ys : list Y) :
  NoDup xs -> NoDup ys -> NoDup (list_prod xs ys).
Proof.
  intros Hx Hy. induction Hx as [|x xs Hnin Hx IH]; simpl; [constructor|].
  apply NoDup_app; auto.
  - apply NoDup_map_NoDup_ForallPairs; auto.
    intros a b _ _ E. now injection E.
  - intros [a b] Ha Hb. apply in_map_iff in Ha. destruct Ha as [y [E _]].
    injection E as <- <-. apply in_prod_iff in Hb. tauto.
Qed.

Lemma capable_lines_NoDup pid data : NoDup (capable_lines pid data).
Proof. apply unique_NoDup, String.eqb_eq. Qed.

Lemma capable_lines_In pid data l :
  In l (capable_lines pid data)
  <-> exists c, In c (capability data)
                /\ c_product_id c = pid /\ c_line_id c = l.
Proof.
  unfold capable_lines, capable_lines_of.
  rewrite (unique_In _ String.eqb_eq), in_map_iff. split.
  - intros [c [E Hc]]. apply filter_In in Hc. destruct Hc as [Hc Hp].
    apply String.eqb_eq in Hp. eauto.
  - intros [c (Hc & Hp & El)]. exists c. split; auto.
    apply filter_In. split; auto. now apply String.eqb_eq.
Qed.

Lemma visited_pairs_NoDup due pid data : NoDup (visited_pairs due pid data).
Proof.
  apply list_prod_NoDup; [apply window_dates_NoDup|apply capable_lines_NoDup].
Qed.

Lemma visited_in_window due pid data d l :
  In (d, l) (visited_pairs due pid data) -> date_leb d due = true.
Proof.
  unfold visited_pairs. rewrite in_prod_iff, window_dates_In.
  intros [[r [Hr <-]] _]. unfold sched_window, sched_window_of, on_or_before in Hr.
  now apply filter_In in Hr.
Qed.

Lemma todays_runs_window due sch l d :
  date_leb d due = true ->
  todays_runs_of l d (sched_window_of (Day due) sch) = todays_runs_of l d sch.
Proof.
  intros Hd. unfold todays_runs_of, sched_window_of, on_or_before.
  induction sch as [|r sch IH]; simpl; auto.
  destruct (date_leb (s_production_date r) due) eqn:Er; simpl.
  - now rewrite IH.
  - rewrite IH.
    destruct (date_eqb (s_production_date r) d) eqn:Ed.
    + apply date_eqb_eq in Ed. congruence.
    + now rewrite andb_false_r.
Qed.

Lemma headroom_positive ld sw d l :
  0 < headroom_at ld sw d l ->
  exists info rest,
    line_info_of l ld = info :: rest
    /\ headroom_at ld sw d l
       = Z.max (l_daily_capacity_cases info
                - sum_planned (todays_runs_of l d sw)) 0.
Proof.
  unfold headroom_at. destruct (line_info_of l ld) as [|info rest]; [lia|].
  eauto.
Qed.

Section Fill.

Variables (product_id : string) (qty : Z) (due : date) (data : Data).

Let g := fill product_id qty due data.

Lemma fill_keys_prefix :
  exists rest, eligible_pairs due product_id data = map fst g ++ rest.
Proof.
  unfold eligible_pairs, eligible. rewrite <- slots_of_keys.
  apply greedy_prefix.
Qed.

Lemma eligible_pairs_NoDup : NoDup (eligible_pairs due product_id data).
Proof. apply NoDup_filter, visited_pairs_NoDup. Qed.

Lemma fill_keys_NoDup : NoDup (map fst g).
Proof.
  destruct fill_keys_prefix as [rest E].
  pose proof eligible_pairs_NoDup as Hn. rewrite E in Hn.
  now apply NoDup_app_remove_r in Hn.
Qed.

Lemma fill_within_headroom :
  Forall (fun p =>
            exists info rest,
              line_info_of (snd (fst p)) (lines data) = info :: rest
              /\ 0 < snd p
                 <= Z.max (l_daily_capacity_cases info
                           - scheduled_on data (snd (fst p)) (fst (fst p))) 0)
         g.
Proof.
  eapply Forall_impl;
    [|apply greedy_bound, slots_of_positive].
  intros [[d l] q] [h (Hin & Hq & _)]. cbn [fst snd] in *.
  apply slots_of_In in Hin. destruct Hin as [Hv ->]. cbn [fst snd] in *.
  destruct (headroom_positive (lines data) (sched_window due data) d l)
    as (info & rest & El & Eh); [lia|].
  exists info, rest. split; auto.
  unfold scheduled_on. rewrite Eh in Hq. unfold sched_window in Hq.
  rewrite todays_runs_window in Hq by (eapply visited_in_window; eauto).
  exact Hq.
Qed.

End Fill.

(** ** The [is_firm] flag is never read *)

Section Firm.

Variable flag : ScheduleRow -> bool.

Let sf (r : ScheduleRow) : ScheduleRow :=
  mkSchedule (s_line_id r) (s_production_date r) (s_product_id r)
             (s_planned_qty_cases r) (flag r).

Lemma filter_map_same {X : Type} (f : X -> X) (p : X -> bool) (l : list X) :
  (forall x, p (f x) = p x) -> filter p (map f l) = map f (filter p l).
Proof.
  intros H. induction l as [|x l IH]; simpl; auto.
  rewrite H. destruct (p x); simpl; now rewrite IH.
Qed.

Lemma sum_planned_sf l : sum_planned (map sf l) = sum_planned l.
Proof. induction l as [|r l IH]; simpl; auto. now rewrite IH. Qed.

Lemma sort_by_sf l :
  sort_by sched_key_leb (map sf l) = map sf (sort_by sched_key_leb l).
Proof.
  induction l as [|r l IH]; simpl; auto. rewrite IH.
  generalize (sort_by sched_key_leb l). intros s.
  induction s as [|y s IHs]; simpl; auto.
  change (sched_key_leb (sf r) (sf y)) with (sched_key_leb r y).
  destruct (sched_key_leb r y); simpl; auto. now rewrite IHs.
Qed.

Lemma sched_window_firm due data :
  sched_window due (with_firm flag data) = map sf (sched_window due data).
Proof.
  unfold sched_window, sched_window_of, on_or_before. simpl.
  now apply filter_map_same.
Qed.

Lemma window_dates_sf w : window_dates (map sf w) = window_dates w.
Proof. unfold window_dates. now rewrite map_map. Qed.

Lemma headroom_at_sf ld w d l :
  headroom_at ld (map sf w) d l = headroom_at ld w d l.
Proof.
  unfold headroom_at, todays_runs_of.
  rewrite filter_map_same by reflexivity. now rewrite sum_planned_sf.
Qed.

Lemma already_planned_firm pid due data :
  already_planned_cases pid due (with_firm flag data)
  = already_planned_cases pid due data.
Proof.
  unfold already_planned_cases, sku_sched_of. rewrite sched_window_firm.
  rewrite filter_map_same by reflexivity. apply sum_planned_sf.
Qed.

Lemma fill_firm pid qty due data :
  fill pid qty due (with_firm flag data) = fill pid qty due data.
Proof.
  unfold fill, visited_pairs. rewrite already_planned_firm, sched_window_firm.
  rewrite window_dates_sf. unfold slots_of. f_equal. f_equal.
  apply map_ext. intros k. now rewrite headroom_at_sf.
Qed.

Lemma app_covering_firm pid due data :
  App.covering_rows pid due (with_firm flag data)
  = App.covering_rows pid due data.
Proof.
  unfold App.covering_rows, App.covering_rows_of, sku_sched_of.
  rewrite sched_window_firm, filter_map_same by reflexivity.
  now rewrite sort_by_sf, map_map.
Qed.

Lemma main_covering_firm pid due data :
  Main.covering_rows pid due (with_firm flag data)
  = Main.covering_rows pid due data.
Proof.
  unfold Main.covering_rows, Main.covering_rows_of, sku_sched_of.
  rewrite sched_window_firm, filter_map_same by reflexivity.
  now rewrite sort_by_sf, map_map.
Qed.

Lemma app_stages_firm pid qty due data :
  App.new_capacity_cases pid qty due (with_firm flag data)
  = App.new_capacity_cases pid qty due data
  /\ App.extra_plan_rows pid qty due (with_firm flag data)
     = App.extra_plan_rows pid qty due data
  /\ App.capacity_shortfall pid qty due (with_firm flag data)
     = App.capacity_shortfall pid qty due data
  /\ App.mat_blockers pid qty due (with_firm flag data)
     = App.mat_blockers pid qty due data.
Proof.
  unfold App.capacity_shortfall, App.mat_blockers.
  rewrite !app_new_capacity_eq, !app_extra_rows_eq, fill_firm,
    already_planned_firm. auto.
Qed.

Lemma main_stages_firm pid qty due data :
  Main.new_capacity_cases pid qty due (with_firm flag data)
  = Main.new_capacity_cases pid qty due data
  /\ Main.extra_plan_rows pid qty due (with_firm flag data)
     = Main.extra_plan_rows pid qty due data
  /\ Main.capacity_shortfall pid qty due (with_firm flag data)
     = Main.capacity_shortfall pid qty due data
  /\ Main.mat_blockers pid qty due (with_firm flag data)
     = Main.mat_blockers pid qty due data.
Proof.
  unfold Main.capacity_shortfall, Main.mat_blockers.
  rewrite !main_new_capacity_eq, !main_extra_rows_eq, fill_firm,
    already_planned_firm. auto.
Qed.

Lemma branch_firm pid qty due data :
  branch_of pid qty due (with_firm flag data) = branch_of pid qty due data.
Proof.
  unfold branch_of. rewrite already_planned_firm.
  destruct (app_stages_firm pid qty due data) as (_ & _ & -> & ->).
  reflexivity.
Qed.

Lemma app_answer_firm pid qty due data :
  app_answer pid qty due (with_firm flag data) = app_answer pid qty due data.
Proof.
  unfold app_answer. rewrite branch_firm, already_planned_firm,
    app_covering_firm.
  destruct (app_stages_firm pid qty due data) as (-> & -> & -> & ->).
  reflexivity.
Qed.

Lemma main_answer_firm pid qty dc due data :
  main_answer pid qty dc due (with_firm flag data)
  = main_answer pid qty dc due data.
Proof.
  unfold main_answer. rewrite branch_firm, already_planned_firm,
    main_covering_firm.
  destruct (main_stages_firm pid qty due data) as (-> & -> & -> & ->).
  reflexivity.
Qed.

End Firm.

(** ** Headroom *)

(** [C5] Every new-plan row of a result allocates a positive quantity that
    is at most [max(daily_capacity - scheduled, 0)], where [scheduled] adds
    up every run on that line and day, of any product and firm or not; no
    (date, line) pair has two new-plan rows; and the result is the same
    whatever the [is_firm] flags of the schedule are. *)
Theorem new_rows_within_headroom
  (to_datetime : string -> option timestamp)
  (product_id : string) (qty : Z) (due_str dc : string) (due : date)
  (data : Data) :
  to_datetime due_str = Some (Day due) ->
  exists ra rm,
    App.simulate_request to_datetime product_id qty due_str data
    = Returned ra
    /\ Main.simulate_request_core to_datetime product_id qty due_str dc data
       = Returned rm
    /\ main_new_rows (Main.existing_orders_used rm)
       = map render (new_rows (App.plan_rows ra))
    /\ NoDup (map row_key (new_rows (App.plan_rows ra)))
    /\ Forall
         (fun r =>
            exists line_info rest,
              line_info_of (App.line_id r) (lines data) = line_info :: rest
              /\ 0 < App.allocated_cases r
                 <= Z.max (l_daily_capacity_cases line_info
                           - scheduled_on data (App.line_id r)
                                          (App.production_date r)) 0)
         (new_rows (App.plan_rows ra))
    /\ (forall flag,
          App.simulate_request to_datetime product_id qty due_str
            (with_firm flag data) = Returned ra
          /\ Main.simulate_request_core to_datetime product_id qty due_str dc
               (with_firm flag data) = Returned rm).
Proof.
  intros Hd.
  exists (app_answer product_id qty due data),
         (main_answer product_id qty dc due data).
  split; [now apply app_simulate_eq|].
  split; [now apply main_simulate_eq|].
  destruct (new_rows_form product_id qty dc due data) as (g & Hg & -> & ->).
  assert (Hk : map row_key (map app_row g) = map fst g).
  { rewrite map_map. apply map_ext. now intros [[d l] q]. }
  repeat split.
  - rewrite map_map. apply map_ext, render_app_row.
  - rewrite Hk. destruct Hg as [->| ->]; [constructor|].
    apply fill_keys_NoDup.
  - apply Forall_map. destruct Hg as [->| ->]; [constructor|].
    eapply Forall_impl; [|apply fill_within_headroom].
    intros [[d l] q] H. exact H.
  - rewrite (app_simulate_eq _ _ _ _ due _ Hd). now rewrite app_answer_firm.
  - rewrite (main_simulate_eq _ _ _ _ _ due _ Hd).
    now rewrite main_answer_firm.
Qed.

(** ** The order of allocation *)

Section SortedLists.

Context {X : Type} (R : X -> X -> Prop).

Lemma StronglySorted_app_intro (l1 l2 : list X) :
  StronglySorted R l1 -> StronglySorted R l2 ->
  (forall a b, In a l1 -> In b l2 -> R a b) ->
  StronglySorted R (l1 ++ l2).
Proof.
  intros H1 H2 H. induction H1 as [|a l1 H1 IH Ha]; simpl; auto.
  constructor.
  - apply IH. intros; apply H; simpl; auto.
  - apply Forall_app. split; auto.
    apply Forall_forall. intros b Hb. apply H; simpl; auto.
Qed.

Lemma StronglySorted_prefix (l1 l2 : list X) :
  StronglySorted R (l1 ++ l2) -> StronglySorted R l1.
Proof.
  induction l1 as [|a l1 IH]; simpl; intros H; [constructor|].
  apply StronglySorted_inv in H. destruct H as [H Ha]. constructor; auto.
  apply Forall_app in Ha. tauto.
Qed.

Lemma StronglySorted_filter (p : X -> bool) (l : list X) :
  StronglySorted R l -> StronglySorted R (filter p l).
Proof.
  induction 1 as [|a l H IH Ha]; simpl; [constructor|].
  destruct (p a); auto. constructor; auto.
  apply Forall_forall. intros b Hb. apply filter_In in Hb.
  rewrite Forall_forall in Ha. apply Ha. tauto.
Qed.

End SortedLists.

Lemma StronglySorted_map {X Y : Type} (R : Y -> Y -> Prop) (f : X -> Y)
  (l : list X) :
  StronglySorted (fun a b => R (f a) (f b)) l -> StronglySorted R (map f l).
Proof.
  induction 1 as [|a l H IH Ha]; simpl; constructor; auto.
  apply Forall_map. exact Ha.
Qed.

Lemma list_prod_sorted_by_date (ds : list date) (ls : list string) :
  StronglySorted (fun a b => date_leb a b = true) ds ->
  StronglySorted (fun a b : date * string => date_leb (fst a) (fst b) = true)
                 (list_prod ds ls).
Proof.
  induction 1 as [|d ds H IH Hd]; simpl; [constructor|].
  apply StronglySorted_app_intro; auto.
  - clear. induction ls as [|l ls IHl]; simpl; constructor; auto.
    apply Forall_forall. intros b Hb. apply in_map_iff in Hb.
    destruct Hb as [y [<- _]]. simpl. apply date_leb_refl.
  - intros a [d' l'] Ha Hb. apply in_map_iff in Ha. destruct Ha as [y [<- _]].
    apply in_prod_iff in Hb. destruct Hb as [Hb _]. simpl.
    rewrite Forall_forall in Hd. auto.
Qed.

Lemma eligible_pairs_by_date due pid data :
  StronglySorted (fun a b => date_leb a b = true)
                 (map fst (eligible_pairs due pid data)).
Proof.
  apply StronglySorted_map, StronglySorted_filter, list_prod_sorted_by_date,
    window_dates_sorted.
Qed.

(** [unique] lists values by first appearance: what first appears in an
    earlier part of the column comes before what first appears later. *)
Lemma unique_app {X : Type} (eqb : X -> X -> bool) (l1 l2 : list X) :
  unique eqb (l1 ++ l2)
  = unique eqb l1
    ++ filter (fun y => negb (existsb (eqb y) l1)) (unique eqb l2).
Proof.
  induction l1 as [|x l1 IH]; simpl.
  - induction (unique eqb l2) as [|y u IHu]; simpl; congruence.
  - f_equal. rewrite IH, filter_app. f_equal.
    generalize (unique eqb l2). intros u.
    induction u as [|y u IHu]; simpl; auto.
    destruct (eqb y x) eqn:E, (existsb (eqb y) l1); simpl;
      rewrite ?E; simpl; now rewrite IHu.
Qed.

Lemma capable_lines_by_first_appearance pid c1 c2 :
  capable_lines_of pid (c1 ++ c2)
  = capable_lines_of pid c1
    ++ filter (fun l =>
                 negb (existsb (String.eqb l)
                         (map c_line_id
                            (filter (fun r => String.eqb (c_product_id r) pid)
                                    c1))))
              (capable_lines_of pid c2).
Proof.
  unfold capable_lines_of. now rewrite filter_app, map_app, unique_app.
Qed.

(** [C3], as the code has it. The capable lines are the distinct line ids of
    the product's capability rows in the order in which they first appear
    in the capability table (they are not sorted by line id). The new-plan
    rows of a result are an initial run of the eligible (date, line) pairs,
    taken date by date in ascending date order and, within a date, in that
    order of the capable lines; so their dates ascend. *)
Theorem allocation_order
  (to_datetime : string -> option timestamp)
  (product_id : string) (qty : Z) (due_str dc : string) (due : date)
  (data : Data) :
  to_datetime due_str = Some (Day due) ->
  exists ra rm,
    App.simulate_request to_datetime product_id qty due_str data
    = Returned ra
    /\ Main.simulate_request_core to_datetime product_id qty due_str dc data
       = Returned rm
    /\ main_new_rows (Main.existing_orders_used rm)
       = map render (new_rows (App.plan_rows ra))
    /\ (exists rest,
          filter (eligible due data)
                 (list_prod (window_dates (sched_window due data))
                            (capable_lines product_id data))
          = map row_key (new_rows (App.plan_rows ra)) ++ rest)
    /\ StronglySorted date_lt (window_dates (sched_window due data))
    /\ NoDup (capable_lines product_id data)
    /\ (forall c1 c2,
          capability data = c1 ++ c2 ->
          exists later,
            capable_lines product_id data
            = capable_lines_of product_id c1 ++ later
            /\ forall l, In l later -> ~ In l (capable_lines_of product_id c1))
    /\ StronglySorted (fun a b => date_leb a b = true)
         (map App.production_date (new_rows (App.plan_rows ra))).
Proof.
  intros Hd.
  exists (app_answer product_id qty due data),
         (main_answer product_id qty dc due data).
  split; [now apply app_simulate_eq|].
  split; [now apply main_simulate_eq|].
  destruct (new_rows_form product_id qty dc due data) as (g & Hg & -> & ->).
  assert (Hk : map row_key (map app_row g) = map fst g).
  { rewrite map_map. apply map_ext. now intros [[d l] q]. }
  assert (Hpre : exists rest,
             eligible_pairs due product_id data = map fst g ++ rest).
  { destruct Hg as [->| ->]; [simpl; eauto|apply fill_keys_prefix]. }
  split; [rewrite map_map; apply map_ext, render_app_row|].
  split; [rewrite Hk; exact Hpre|].
  split; [apply window_dates_strict|].
  split; [apply capable_lines_NoDup|].
  split.
  - intros c1 c2 E. unfold capable_lines. rewrite E.
    rewrite capable_lines_by_first_appearance.
    eexists; split; [reflexivity|].
    intros l Hl. apply filter_In in Hl. destruct Hl as [_ Hl].
    apply negb_true_iff in Hl. intros Hin.
    unfold capable_lines_of in Hin.
    apply -> (unique_In _ String.eqb_eq) in Hin.
    assert (Hex : existsb (String.eqb l)
                    (map c_line_id
                       (filter (fun r => String.eqb (c_product_id r) product_id)
                               c1)) = true).
    { apply existsb_exists. exists l. split; auto. apply String.eqb_refl. }
    congruence.
  - replace (map App.production_date (map app_row g))
      with (map fst (map fst g))
      by (rewrite !map_map; apply map_ext; now intros [[d l] q]).
    destruct Hpre as [rest E].
    pose proof (eligible_pairs_by_date due product_id data) as Hs.
    rewrite E, map_app in Hs. now apply StronglySorted_prefix in Hs.
Qed.

(** [C3], as stated, fails: with a capability table that lists [L2] before
    [L1], the lines are tried in that order and the new-plan rows of one
    day come out as [L2], [L1]. *)
Lemma allocation_not_by_line_id :
  capable_lines "P1" Sample.snapshot = ["L2"; "L1"]
  /\ exists ra rm,
       App.simulate_request parse_iso "P1" 1200 "2025-11-04" Sample.snapshot
       = Returned ra
       /\ Main.simulate_request_core parse_iso "P1" 1200 "2025-11-04" "DC"
            Sample.snapshot = Returned rm
       /\ map row_key (new_rows (App.plan_rows ra))
          = [(Sample.nov3, "L2"); (Sample.nov3, "L1")]
       /\ map Main.line_id (main_new_rows (Main.existing_orders_used rm))
          = ["L2"; "L1"]
       /\ ~ StronglySorted (fun a b => key_leb a b = true)
              (map row_key (new_rows (App.plan_rows ra))).
Proof.
  split; [reflexivity|].
  eexists. eexists.
  split; [vm_compute; reflexivity|].
  split; [vm_compute; reflexivity|].
  split; [reflexivity|].
  split; [reflexivity|].
  cbn. intros H. apply StronglySorted_inv in H. destruct H as [_ H].
  apply Forall_inv in H. vm_compute in H. discriminate.
Qed.

(** ** Invalid input *)

Lemma sched_window_of_NaT sch : sched_window_of NaT sch = [].
Proof.
  unfold sched_window_of. induction sch as [|r sch IH]; simpl; auto.
Qed.

(** [C4], as the code has it. Neither copy checks its inputs; a call fails
    exactly when pandas' parser raises on the due date string, and that
    exception reaches the caller of the endpoint. A string the parser reads
    as [NaT], as it does the empty string, is accepted: the request is
    answered over an empty window, with a result dated [NaT] that covers
    nothing of a positive quantity. A non-positive quantity (of the 64-bit
    range) with a date that parses is accepted too: both copies return a
    result, which says [full] with the requested quantity as covered
    whenever the already-planned quantity is at least the one requested. *)
Theorem invalid_input_handling
  (to_datetime : string -> option timestamp)
  (product_id : string) (qty : Z) (due_str dc : string) (data : Data) :
  - 2 ^ 63 <= qty < 2 ^ 63 ->
  ((exists e,
      Main.simulate_request to_datetime
        (Main.mkSimulateIn product_id qty due_str dc) data = Raised e)
   <-> to_datetime due_str = None)
  /\ ((exists e,
         App.simulate_request to_datetime product_id qty due_str data
         = Raised e)
      <-> to_datetime due_str = None)
  /\ (to_datetime due_str = Some NaT ->
      exists rm ra,
        Main.simulate_request to_datetime
          (Main.mkSimulateIn product_id qty due_str dc) data = Returned rm
        /\ App.simulate_request to_datetime product_id qty due_str data
           = Returned ra
        /\ Main.requested_date rm = "NaT"
        /\ Main.requested_qty rm = qty
        /\ Main.existing_orders_used rm = []
        /\ Main.material_notes rm = []
        /\ App.plan_rows ra = []
        /\ (qty <= 0 ->
            Main.status_of rm = Main.full
            /\ Main.covered_qty_on_requested_date rm = qty
            /\ Main.remaining_qty rm = 0
            /\ App.can_fulfill ra = true
            /\ App.allocated_total ra = qty
            /\ App.remaining ra = 0)
        /\ (0 < qty ->
            Main.status_of rm = Main.no
            /\ Main.covered_qty_on_requested_date rm = 0
            /\ Main.remaining_qty rm = qty
            /\ App.can_fulfill ra = false
            /\ App.allocated_total ra = 0
            /\ App.remaining ra = qty
            /\ (capable_lines product_id data <> [] ->
                Main.capacity_notes rm = [ShortCases qty NaT]
                /\ App.capacity_blockers ra = [ShortCases qty NaT])))
  /\ (forall due,
        to_datetime due_str = Some (Day due) ->
        qty <= 0 ->
        exists rm ra,
          Main.simulate_request_core to_datetime product_id qty due_str dc data
          = Returned rm
          /\ Main.simulate_request to_datetime
               (Main.mkSimulateIn product_id qty due_str dc) data
             = Returned rm
          /\ App.simulate_request to_datetime product_id qty due_str data
             = Returned ra
          /\ Main.requested_qty rm = qty
          /\ (qty <= already_planned_cases product_id due data ->
              Main.status_of rm = Main.full
              /\ Main.covered_qty_on_requested_date rm = qty
              /\ Main.remaining_qty rm = 0
              /\ App.can_fulfill ra = true
              /\ App.allocated_total ra = qty
              /\ App.remaining ra = 0)).
Proof.
  intros _.
  assert (Hnat : to_datetime due_str = Some NaT ->
    exists rm ra,
      Main.simulate_request_core to_datetime product_id qty due_str dc data
      = Returned rm
      /\ App.simulate_request to_datetime product_id qty due_str data
         = Returned ra
      /\ Main.requested_date rm = "NaT"
      /\ Main.requested_qty rm = qty
      /\ Main.existing_orders_used rm = []
      /\ Main.material_notes rm = []
      /\ App.plan_rows ra = []
      /\ (qty <= 0 ->
          Main.status_of rm = Main.full
          /\ Main.covered_qty_on_requested_date rm = qty
          /\ Main.remaining_qty rm = 0
          /\ App.can_fulfill ra = true
          /\ App.allocated_total ra = qty
          /\ App.remaining ra = 0)
      /\ (0 < qty ->
          Main.status_of rm = Main.no
          /\ Main.covered_qty_on_requested_date rm = 0
          /\ Main.remaining_qty rm = qty
          /\ App.can_fulfill ra = false
          /\ App.allocated_total ra = 0
          /\ App.remaining ra = qty
          /\ (capable_lines product_id data <> [] ->
              Main.capacity_notes rm = [ShortCases qty NaT]
              /\ App.capacity_blockers ra = [ShortCases qty NaT]))).
  { intros Hd. unfold Main.simulate_request_core, App.simulate_request.
    rewrite Hd. cbv zeta. rewrite sched_window_of_NaT.
    unfold capable_lines.
    cbn [sku_sched_of filter sum_planned fold_right Main.covering_rows_of
         App.covering_rows_of sort_by map window_dates unique
         Main.alloc_dates App.alloc_dates].
    destruct (Z.leb_spec qty 0) as [Hq|Hq].
    - do 2 eexists. split; [reflexivity|]. split; [reflexivity|]. cbn.
      repeat split; auto; lia.
    - destruct (capable_lines_of product_id (capability data)) as [|l ls].
      + do 2 eexists. split; [reflexivity|]. split; [reflexivity|]. cbn.
        repeat split; auto; try lia; try congruence.
      + rewrite Z.sub_0_r, Z.sub_diag.
        unfold Main.material_check, App.material_check.
        cbn [Z.ltb Z.compare List.length Nat.eqb Nat.ltb Nat.leb andb
             Z.add].
        replace (Z.max (qty - 0) 0) with qty by lia.
        destruct (Z.eqb_spec qty 0) as [E|_]; [lia|].
        destruct (Z.ltb_spec 0 qty) as [_|E]; [|lia].
        cbn [andb Z.ltb Z.compare app].
        do 2 eexists. split; [reflexivity|]. split; [reflexivity|]. cbn.
        repeat split; auto; lia. }
  split; [|split; [|split; [|]]].
  - change (Main.simulate_request to_datetime
              (Main.mkSimulateIn product_id qty due_str dc) data)
      with (Main.simulate_request_core to_datetime product_id qty due_str dc
              data).
    split.
    + intros [e He].
      destruct (to_datetime due_str) as [[due|]|] eqn:Hd; [| |reflexivity].
      * rewrite (main_simulate_eq to_datetime product_id qty due_str dc due
                   data Hd) in He. discriminate.
      * destruct (Hnat eq_refl) as (rm & ra & Hm & _). congruence.
    + intros Hn. exists ValueError. unfold Main.simulate_request_core.
      now rewrite Hn.
  - split.
    + intros [e He].
      destruct (to_datetime due_str) as [[due|]|] eqn:Hd; [| |reflexivity].
      * rewrite (app_simulate_eq to_datetime product_id qty due_str due
                   data Hd) in He. discriminate.
      * destruct (Hnat eq_refl) as (rm & ra & _ & Ha & _). congruence.
    + intros Hn. exists ValueError. unfold App.simulate_request.
      now rewrite Hn.
  - exact Hnat.
  - intros due Hd _.
    exists (main_answer product_id qty dc due data),
           (app_answer product_id qty due data).
    split; [now apply main_simulate_eq|].
    split; [now apply main_simulate_eq|].
    split; [now apply app_simulate_eq|].
    split; [unfold main_answer;
            destruct (branch_of product_id qty due data); reflexivity|].
    intros Hq. apply branch_already_covered in Hq.
    unfold main_answer, app_answer. rewrite Hq. cbn.
    repeat split; reflexivity.
Qed.

(** [C4], as stated, fails on both inputs: a request for 0 cases, or for
    -5 cases, is answered rather than rejected, and so is a request whose
    due date is the empty string. *)
Lemma invalid_inputs_are_answered :
  (forall e,
     Main.simulate_request parse_iso
       (Main.mkSimulateIn "P1" 0 "2025-11-04" "DC") Sample.snapshot
     <> Raised e)
  /\ (exists r,
        Main.simulate_request_core parse_iso "P1" 0 "2025-11-04" "DC"
          Sample.snapshot = Returned r
        /\ Main.status_of r = Main.full
        /\ Main.covered_qty_on_requested_date r = 0)
  /\ (exists r,
        Main.simulate_request_core parse_iso "P1" (-5) "2025-11-04" "DC"
          Sample.snapshot = Returned r
        /\ Main.status_of r = Main.full
        /\ Main.covered_qty_on_requested_date r = -5)
  /\ (exists r,
        Main.simulate_request parse_iso
          (Main.mkSimulateIn "P1" 1200 "" "DC") Sample.snapshot = Returned r
        /\ Main.requested_date r = "NaT"
        /\ Main.status_of r = Main.no
        /\ Main.remaining_qty r = 1200)
  /\ (exists r,
        App.simulate_request parse_iso "P1" 1200 "" Sample.snapshot
        = Returned r
        /\ App.can_fulfill r = false
        /\ App.remaining r = 1200).
Proof.
  split; [intros e; vm_compute; discriminate|].
  repeat split; eexists;
    (split; [vm_compute; reflexivity|repeat split; reflexivity]).
Qed.

(** ** Rounding to binary64 is monotone *)

Module FloatFacts.

Local Open Scope Q_scope.

Lemma pow2_pos e : 0 < 2 ^ e.
Proof. apply Qpower_0_lt. reflexivity. Qed.

Lemma pow2_add a b : 2 ^ (a + b) == 2 ^ a * 2 ^ b.
Proof. apply Qpower_plus. discriminate. Qed.

Lemma pow2_le a b : (a <= b)%Z -> 2 ^ a <= 2 ^ b.
Proof. intros H. apply Qpower_le_compat_l; [exact H|discriminate]. Qed.

Lemma pow2_lt a b : (a < b)%Z -> 2 ^ a < 2 ^ b.
Proof. intros H. apply Qpower_lt_compat_l; [exact H|reflexivity]. Qed.

Lemma pow2_lt_inv a b : 2 ^ a < 2 ^ b -> (a < b)%Z.
Proof. intros H. eapply Qpower_lt_compat_l_inv; [exact H|reflexivity]. Qed.

Lemma pow2_Z n : (0 <= n)%Z -> inject_Z (2 ^ n) == 2 ^ n.
Proof. intros H. now rewrite Zpower_Qpower. Qed.

Lemma ilog2_spec q : 0 < q -> 2 ^ ilog2 q <= q /\ q < 2 ^ (ilog2 q + 1).
Proof.
  intros Hq. unfold ilog2. destruct (Qle_bool 1 q) eqn:E.
  - apply Qle_bool_iff in E.
    assert (Hn : (1 <= Qfloor q)%Z)
      by (apply (Qfloor_resp_le 1 q) in E; exact E).
    destruct (Z.log2_spec (Qfloor q)) as [Hlo Hhi]; [lia|].
    pose proof (Z.log2_nonneg (Qfloor q)) as Hk.
    split.
    + rewrite <- pow2_Z by exact Hk.
      eapply Qle_trans; [|apply Qfloor_le]. now rewrite <- Zle_Qle.
    + eapply Qlt_le_trans; [apply Qlt_floor|].
      rewrite <- pow2_Z by lia. rewrite <- Zle_Qle.
      unfold Z.succ in Hhi. lia.
  - assert (Hlt : q < 1).
    { apply Qnot_le_lt. intros H. apply Qle_bool_iff in H. congruence. }
    assert (Hqr : q * / q == 1) by (apply Qmult_inv_r; lra).
    assert (Hr : 1 < / q) by (apply Qlt_shift_inv_l; lra).
    pose proof (Qle_ceiling (/ q)) as Hc.
    pose proof (Qceiling_lt (/ q)) as Hc'.
    set (c := Qceiling (/ q)) in *.
    assert (Hc1 : (1 < c)%Z)
      by (rewrite Zlt_Qlt; change (inject_Z 1) with 1; lra).
    destruct (Z.log2_up_spec c Hc1) as [Hlo Hhi].
    pose proof (Z.log2_up_pos c Hc1) as Hj.
    set (j := Z.log2_up c) in *.
    pose proof (pow2_pos j) as Hpj.
    pose proof (pow2_pos (j - 1)) as Hpj1.
    assert (Hup : / q <= 2 ^ j).
    { eapply Qle_trans; [exact Hc|]. rewrite <- pow2_Z by lia.
      now rewrite <- Zle_Qle. }
    assert (Hdn : 2 ^ (j - 1) < / q).
    { eapply Qle_lt_trans; [|exact Hc']. rewrite <- pow2_Z by lia.
      rewrite <- Zle_Qle.
      replace (Z.pred j) with (j - 1)%Z in Hlo by (unfold Z.pred; lia).
      lia. }
    split.
    + rewrite Qpower_opp. apply Qle_shift_inv_r; [exact Hpj|].
      apply Qle_trans with (q * / q); [lra|].
      apply Qmult_le_l; [exact Hq|exact Hup].
    + replace (- j + 1)%Z with (- (j - 1))%Z by lia.
      rewrite Qpower_opp. apply Qlt_shift_inv_l; [exact Hpj1|].
      apply Qlt_le_trans with (q * / q); [|lra].
      apply Qmult_lt_l; [exact Hq|exact Hdn].
Qed.

Lemma ilog2_le q1 q2 : 0 < q1 -> q1 <= q2 -> (ilog2 q1 <= ilog2 q2)%Z.
Proof.
  intros H1 H12.
  destruct (ilog2_spec q1 H1) as [Hlo _].
  destruct (ilog2_spec q2) as [_ Hhi]; [lra|].
  assert (H : 2 ^ ilog2 q1 < 2 ^ (ilog2 q2 + 1)) by lra.
  apply pow2_lt_inv in H. lia.
Qed.

(** Rounding to the nearest integer. *)
Lemma rhe_cases x :
  let f := Qfloor x in
  (round_half_even x = f /\ x - inject_Z f <= 1 # 2)
  \/ (round_half_even x = (f + 1)%Z /\ (1 # 2) <= x - inject_Z f).
Proof.
  cbv zeta. unfold round_half_even.
  destruct (Qcompare_spec (x - inject_Z (Qfloor x)) (1 # 2)) as [H|H|H].
  - destruct (Z.even (Qfloor x)); [left|right]; split; auto; lra.
  - left. split; auto; lra.
  - right. split; auto; lra.
Qed.

Lemma rhe_Z n : round_half_even (inject_Z n) = n.
Proof.
  unfold round_half_even. rewrite Qfloor_Z.
  destruct (Qcompare_spec (inject_Z n - inject_Z n) (1 # 2)) as [H|H|H];
    [lra|reflexivity|lra].
Qed.

Lemma rhe_le x y : x <= y -> (round_half_even x <= round_half_even y)%Z.
Proof.
  intros Hxy. pose proof (Qfloor_resp_le x y Hxy) as Hf.
  destruct (Z.eq_dec (Qfloor x) (Qfloor y)) as [E|E].
  - unfold round_half_even. rewrite <- E.
    destruct (Qcompare_spec (x - inject_Z (Qfloor x)) (1 # 2)) as [Hx|Hx|Hx];
      destruct (Qcompare_spec (y - inject_Z (Qfloor x)) (1 # 2))
        as [Hy|Hy|Hy];
      try lia; try lra; destruct (Z.even (Qfloor x)); lia.
  - destruct (rhe_cases x) as [[-> _]|[-> _]];
      destruct (rhe_cases y) as [[-> _]|[-> _]]; lia.
Qed.

Lemma rhe_le_Z x n : x <= inject_Z n -> (round_half_even x <= n)%Z.
Proof. intros H. apply rhe_le in H. now rewrite rhe_Z in H. Qed.

Lemma rhe_ge_Z x n : inject_Z n <= x -> (n <= round_half_even x)%Z.
Proof. intros H. apply rhe_le in H. now rewrite rhe_Z in H. Qed.

Lemma ulp_exponent_le q1 q2 :
  0 < q1 -> q1 <= q2 -> (ulp_exponent q1 <= ulp_exponent q2)%Z.
Proof.
  intros H1 H12. pose proof (ilog2_le q1 q2 H1 H12). unfold ulp_exponent. lia.
Qed.

Lemma float64_pos_nonneg q : 0 < q -> 0 <= float64_pos q.
Proof.
  intros Hq. unfold float64_pos. pose proof (pow2_pos (ulp_exponent q)) as Hp.
  apply Qmult_le_0_compat; [|lra].
  change 0 with (inject_Z 0). rewrite <- Zle_Qle. apply rhe_ge_Z.
  change (inject_Z 0) with 0. apply Qle_shift_div_l; [exact Hp|lra].
Qed.

Lemma float64_pos_le q1 q2 :
  0 < q1 -> q1 <= q2 -> float64_pos q1 <= float64_pos q2.
Proof.
  intros H1 H12. pose proof (ulp_exponent_le q1 q2 H1 H12) as He.
  unfold float64_pos. cbv zeta.
  pose proof (pow2_pos (ulp_exponent q1)) as Hp1.
  pose proof (pow2_pos (ulp_exponent q2)) as Hp2.
  destruct (Z.eq_dec (ulp_exponent q1) (ulp_exponent q2)) as [E|E].
  - rewrite <- E. apply Qmult_le_compat_r; [|lra].
    rewrite <- Zle_Qle. apply rhe_le.
    apply Qle_shift_div_l; [exact Hp1|].
    setoid_replace (q1 / 2 ^ ulp_exponent q1 * 2 ^ ulp_exponent q1) with q1
      by (field; lra).
    exact H12.
  - assert (Hlt : (ulp_exponent q1 < ulp_exponent q2)%Z) by lia.
    set (e1 := ulp_exponent q1) in *. set (e2 := ulp_exponent q2) in *.
    destruct (ilog2_spec q1 H1) as [_ Hhi1].
    destruct (ilog2_spec q2) as [Hlo2 _]; [lra|].
    assert (Ek2 : ilog2 q2 = (e2 + 52)%Z)
      by (unfold e1, e2, ulp_exponent in *; lia).
    assert (Ek1 : (ilog2 q1 + 1 <= e2 + 52)%Z)
      by (unfold e1, e2, ulp_exponent in *; lia).
    rewrite Ek2 in Hlo2.
    pose proof (pow2_le _ _ Ek1) as Hmid.
    apply Qle_trans with (2 ^ (e2 + 52)).
    + set (n := (e2 + 52 - e1)%Z).
      assert (Hn : (0 <= n)%Z) by (unfold n; lia).
      assert (Hsplit : 2 ^ (e2 + 52) == 2 ^ n * 2 ^ e1).
      { rewrite <- pow2_add. replace (n + e1)%Z with (e2 + 52)%Z
          by (unfold n; lia). reflexivity. }
      rewrite Hsplit. apply Qmult_le_compat_r; [|lra].
      rewrite <- (pow2_Z n Hn). rewrite <- Zle_Qle. apply rhe_le_Z.
      rewrite (pow2_Z n Hn). apply Qle_shift_div_r; [exact Hp1|].
      rewrite <- Hsplit. lra.
    + assert (Hsplit : 2 ^ (e2 + 52) == 2 ^ 52 * 2 ^ e2).
      { rewrite <- pow2_add. replace (52 + e2)%Z with (e2 + 52)%Z by lia.
        reflexivity. }
      rewrite Hsplit. apply Qmult_le_compat_r; [|lra].
      rewrite <- (pow2_Z 52) by lia. rewrite <- Zle_Qle. apply rhe_ge_Z.
      rewrite (pow2_Z 52) by lia. apply Qle_shift_div_l; [exact Hp2|].
      rewrite <- Hsplit. exact Hlo2.
Qed.

Lemma float64_sign q :
  (0 <= q -> 0 <= float64 q) /\ (q <= 0 -> float64 q <= 0).
Proof.
  unfold float64. rewrite Qred_correct.
  destruct (Qcompare_spec q 0) as [H|H|H].
  - split; intros; lra.
  - pose proof (float64_pos_nonneg (- q)). split; intros; lra.
  - pose proof (float64_pos_nonneg q H). split; intros; lra.
Qed.

Lemma float64_le q1 q2 : q1 <= q2 -> float64 q1 <= float64 q2.
Proof.
  intros H12.
  destruct (Qlt_le_dec 0 q1) as [H1|H1].
  - unfold float64. rewrite !Qred_correct.
    destruct (Qcompare_spec q1 0) as [?|?|_]; [lra|lra|].
    destruct (Qcompare_spec q2 0) as [?|?|_]; [lra|lra|].
    now apply float64_pos_le.
  - destruct (Qlt_le_dec q2 0) as [H2|H2].
    + unfold float64. rewrite !Qred_correct.
      destruct (Qcompare_spec q1 0) as [?|_|?]; [lra| |lra].
      destruct (Qcompare_spec q2 0) as [?|_|?]; [lra| |lra].
      apply Qopp_le_compat. apply float64_pos_le; lra.
    + destruct (float64_sign q1) as [_ Ha]. destruct (float64_sign q2) as [Hb _].
      specialize (Ha H1). specialize (Hb H2). lra.
Qed.

End FloatFacts.

(** ** The material validator *)

Lemma is_short_iff r :
  is_short r = true
  <-> (on_hand_or_zero (m_on_hand_qty r) < m_needed_qty r)%Q.
Proof.
  unfold is_short. rewrite negb_true_iff.
  destruct (Qle_bool (m_needed_qty r) (on_hand_or_zero (m_on_hand_qty r)))
    eqn:E.
  - apply Qle_bool_iff in E. split; [discriminate|].
    intros H. exfalso. now apply (Qlt_not_le _ _ H).
  - split; auto. intros _. apply Qnot_le_lt. intros H.
    apply Qle_bool_iff in H. congruence.
Qed.


Lemma shortage_notes_In n sku_bom inv_df note :
  In note (map shortage_note
             (filter is_short (merge_left n sku_bom inv_df)))
  <-> exists b cell,
        In b sku_bom /\ In cell (joined_on_hand b inv_df)
        /\ (on_hand_or_zero cell < needed_qty (b_qty_per_case b) n)%Q
        /\ note = MaterialShort (b_material_name b)
                    (float64 (needed_qty (b_qty_per_case b) n
                              - on_hand_or_zero cell))%Q
                    (b_supplier_lead_time_days b).
Proof.
  rewrite in_map_iff. unfold merge_left, merge_left_one. split.
  - intros [r [<- Hr]]. apply filter_In in Hr. destruct Hr as [Hr Hs].
    apply in_flat_map in Hr. destruct Hr as [b [Hb Hr]].
    apply in_map_iff in Hr. destruct Hr as [cell [<- Hc]].
    apply is_short_iff in Hs. cbn [m_needed_qty m_on_hand_qty] in Hs.
    exists b, cell. auto.
  - intros [b [cell (Hb & Hc & Hs & ->)]].
    exists (mkMerged b (needed_qty (b_qty_per_case b) n) cell).
    split; [reflexivity|]. apply filter_In. split.
    + apply in_flat_map. exists b. split; auto. apply in_map_iff. eauto.
    + now apply is_short_iff.
Qed.



(** ** No capable line *)

Lemma capable_lines_nil pid data :
  capable_lines pid data = []
  <-> forall c, In c (capability data) -> c_product_id c <> pid.
Proof.
  split.
  - intros E c Hc Hp.
    assert (H : In (c_line_id c) (capable_lines pid data))
      by (apply capable_lines_In; eauto).
    rewrite E in H. contradiction.
  - intros H. destruct (capable_lines pid data) as [|l ls] eqn:E; auto.
    assert (Hl : In l (capable_lines pid data)) by (rewrite E; now left).
    apply capable_lines_In in Hl. destruct Hl as [c (Hc & Hp & _)].
    exfalso. eapply H; eauto.
Qed.

(** [C7] checked on the code. When more is requested than is planned and
    no capability row names the product, nothing is allocated: main.py
    answers [no] with the already-planned quantity, the rest as remaining,
    the one no-capable-line capacity note and no material note. app.py
    answers with the same quantities and one no-capable-line capacity
    blocker, but it also reports a material blocker, "No line can run this
    product". *)
Theorem no_capable_line
  (to_datetime : string -> option timestamp)
  (product_id : string) (qty : Z) (due_str dc : string) (due : date)
  (data : Data) :
  to_datetime due_str = Some (Day due) ->
  already_planned_cases product_id due data < qty ->
  (forall c, In c (capability data) -> c_product_id c <> product_id) ->
  let A := already_planned_cases product_id due data in
  exists rm ra,
    Main.simulate_request_core to_datetime product_id qty due_str dc data
    = Returned rm
    /\ App.simulate_request to_datetime product_id qty due_str data
       = Returned ra
    /\ Main.status_of rm = Main.no
    /\ Main.covered_qty_on_requested_date rm = A
    /\ Main.remaining_qty rm = qty - A
    /\ Main.existing_orders_used rm = Main.covering_rows product_id due data
    /\ Main.capacity_notes rm = [Text "No capable line for this SKU"]
    /\ Main.material_notes rm = []
    /\ App.can_fulfill ra = false
    /\ App.allocated_total ra = A
    /\ App.remaining ra = qty - A
    /\ App.plan_rows ra = App.covering_rows product_id due data
    /\ App.capacity_blockers ra = [Text "No capable line found"]
    /\ App.material_blockers ra = [Text "No line can run this product"].
Proof.
  intros Hd Hlt Hnone A.
  exists (main_answer product_id qty dc due data),
         (app_answer product_id qty due data).
  split; [now apply main_simulate_eq|].
  split; [now apply app_simulate_eq|].
  assert (Eb : branch_of product_id qty due data = NoCapableLine)
    by (apply branch_no_capable_line; split; auto;
        now apply capable_lines_nil).
  unfold main_answer, app_answer. rewrite Eb. cbn.
  repeat split; reflexivity.
Qed.

(** ** The two copies side by side *)

Lemma render_plan_rows pid qty dc due data :
  Main.existing_orders_used (main_answer pid qty dc due data)
  = map render (App.plan_rows (app_answer pid qty due data)).
Proof.
  unfold main_answer, app_answer.
  destruct (branch_of pid qty due data); cbn.
  - now rewrite render_covering.
  - now rewrite render_covering.
  - now rewrite map_app, render_covering, render_extra.
  - rewrite map_app, render_covering.
    pose proof (mat_blockers_length pid qty due data) as Hl.
    rewrite main_new_capacity_eq, app_new_capacity_eq.
    destruct (Main.mat_blockers pid qty due data),
             (App.mat_blockers pid qty due data); try discriminate Hl.
    + destruct (0 <? _); [now rewrite render_extra|reflexivity].
    + reflexivity.
Qed.

(** [C9] checked on the code. On every request the two copies return the
    same covered and remaining quantities, the same plan rows in the same
    order (main.py holding [str] of the line and date cells), the same
    number of capacity blockers, and app.py's [can_fulfill] is true exactly
    when main.py's status is [full]. The number of material blockers is the
    same in every branch but the no-capable-line one, where app.py reports
    one material blocker and main.py none. *)
Theorem copies_side_by_side
  (to_datetime : string -> option timestamp)
  (product_id : string) (qty : Z) (due_str dc : string) (due : date)
  (data : Data) :
  to_datetime due_str = Some (Day due) ->
  exists ra rm,
    App.simulate_request to_datetime product_id qty due_str data
    = Returned ra
    /\ Main.simulate_request_core to_datetime product_id qty due_str dc data
       = Returned rm
    /\ Main.covered_qty_on_requested_date rm = App.allocated_total ra
    /\ Main.remaining_qty rm = App.remaining ra
    /\ Main.existing_orders_used rm = map render (App.plan_rows ra)
    /\ List.length (Main.capacity_notes rm)
       = List.length (App.capacity_blockers ra)
    /\ (App.can_fulfill ra = true <-> Main.status_of rm = Main.full)
    /\ (branch_of product_id qty due data <> NoCapableLine ->
        List.length (Main.material_notes rm)
        = List.length (App.material_blockers ra))
    /\ (branch_of product_id qty due data = NoCapableLine ->
        List.length (Main.material_notes rm) = 0%nat
        /\ List.length (App.material_blockers ra) = 1%nat).
Proof.
  intros Hd.
  exists (app_answer product_id qty due data),
         (main_answer product_id qty dc due data).
  split; [now apply app_simulate_eq|].
  split; [now apply main_simulate_eq|].
  split; [|split; [|split; [apply render_plan_rows|]]].
  1, 2: unfold main_answer, app_answer;
    pose proof (mat_blockers_length product_id qty due data) as Hl;
    destruct (branch_of product_id qty due data); cbn; auto;
    rewrite main_new_capacity_eq, app_new_capacity_eq;
    destruct (Main.mat_blockers product_id qty due data),
             (App.mat_blockers product_id qty due data);
    try discriminate Hl; reflexivity.
  unfold main_answer, app_answer.
  pose proof (mat_blockers_length product_id qty due data) as Hl.
  destruct (branch_of product_id qty due data); cbn.
  - intuition (try discriminate; congruence).
  - intuition (try discriminate; congruence).
  - intuition (try discriminate; congruence).
  - rewrite shortfall_eq.
    split; [reflexivity|]. split; [|split].
    + destruct (0 <? _); split; intros E; discriminate E.
    + intros _. exact Hl.
    + intros E. discriminate E.
Qed.

(** ** Monotonicity of the remainder *)

Lemma needed_monotone (q : Q) (n1 n2 : Z) :
  (0 <= q)%Q -> n1 <= n2 -> (needed_qty q n1 <= needed_qty q n2)%Q.
Proof.
  intros Hq Hn. unfold needed_qty. apply FloatFacts.float64_le.
  rewrite (Qmult_comm (float64 q) (float64 (inject_Z n1))),
          (Qmult_comm (float64 q) (float64 (inject_Z n2))).
  apply Qmult_le_compat_r.
  - apply FloatFacts.float64_le. now rewrite <- Zle_Qle.
  - now apply FloatFacts.float64_sign.
Qed.

Lemma material_check_monotone pid n1 n2 bom_df inv_df :
  (forall b, In b bom_df -> b_product_id b = pid -> (0 <= b_qty_per_case b)%Q) ->
  n1 <= n2 ->
  App.material_check pid n1 bom_df inv_df <> [] ->
  App.material_check pid n2 bom_df inv_df <> [].
Proof.
  intros Hpos Hle. unfold App.material_check.
  destruct (Z.ltb_spec 0 n1); [|congruence].
  destruct (Z.ltb_spec 0 n2); [|lia].
  destruct (filter _ bom_df) as [|b0 rest] eqn:Ef; [congruence|].
  rewrite <- Ef. intros H1 H2.
  destruct (map shortage_note
              (filter is_short
                 (merge_left n1
                    (filter (fun b => String.eqb (b_product_id b) pid) bom_df)
                    inv_df))) as [|note notes] eqn:E1; [congruence|].
  assert (Hin : In note (note :: notes)) by now left.
  rewrite <- E1 in Hin. apply shortage_notes_In in Hin.
  destruct Hin as [b [cell (Hb & Hc & Hs & _)]].
  assert (Hin2 : In (MaterialShort (b_material_name b)
                       (float64 (needed_qty (b_qty_per_case b) n2
                                 - on_hand_or_zero cell))%Q
                       (b_supplier_lead_time_days b))
                    (map shortage_note
                       (filter is_short
                          (merge_left n2
                             (filter (fun b => String.eqb (b_product_id b) pid)
                                     bom_df)
                             inv_df)))).
  { apply shortage_notes_In. exists b, cell. repeat split; auto.
    eapply Qlt_le_trans; [exact Hs|]. apply needed_monotone; auto.
    apply filter_In in Hb. destruct Hb as [Hb Hp].
    apply String.eqb_eq in Hp. auto. }
  rewrite H2 in Hin2. contradiction.
Qed.

Section Remaining.

Variables (product_id : string) (due : date) (data : Data).

Let A := already_planned_cases product_id due data.
Let H := total (slots_of (lines data) (sched_window due data)
                         (visited_pairs due product_id data)).

Lemma total_headroom_nonneg : 0 <= H.
Proof.
  apply total_nonneg, slots_of_positive.
Qed.

Lemma new_capacity_value qty :
  A < qty -> App.new_capacity_cases product_id qty due data = Z.min (qty - A) H.
Proof.
  intros Hlt. rewrite app_new_capacity_eq. unfold fill.
  rewrite greedy_total; auto using slots_of_positive. unfold A in Hlt. lia.
Qed.

Lemma app_remaining_cases qty :
  let r := App.remaining (app_answer product_id qty due data) in
  (qty <= A -> r = 0)
  /\ (A < qty -> capable_lines product_id data = [] -> r = qty - A)
  /\ (A < qty -> capable_lines product_id data <> [] ->
      App.mat_blockers product_id qty due data = [] ->
      r = qty - A - Z.min (qty - A) H)
  /\ (A < qty -> capable_lines product_id data <> [] ->
      App.mat_blockers product_id qty due data <> [] -> r = qty - A).
Proof.
  cbv zeta. unfold app_answer.
  destruct (branch_of product_id qty due data) eqn:Eb; cbn.
  - apply branch_already_covered in Eb. fold A in Eb.
    repeat split; intros; try lia.
  - apply branch_no_capable_line in Eb. destruct Eb as [Hlt Hc].
    fold A in Hlt. repeat split; intros; try lia; try contradiction.
  - apply branch_full_after_allocation in Eb.
    destruct Eb as (Hlt & Hc & Hs & Hm). fold A in Hlt.
    rewrite shortfall_value in Hs by exact Hlt.
    rewrite new_capacity_value in Hs by exact Hlt. fold A in Hs.
    repeat split; intros; try lia; try contradiction.
  - apply branch_partial_or_no in Eb. destruct Eb as (Hlt & Hc & Hwhy).
    fold A in Hlt.
    pose proof (new_capacity_value qty Hlt) as Hn.
    pose proof (fill_total_bounds product_id qty due data Hlt) as Hb.
    rewrite <- app_new_capacity_eq in Hb. fold A in Hb.
    destruct (App.mat_blockers product_id qty due data) eqn:Em.
    + repeat split; intros; try lia; try contradiction.
    + repeat split; intros; try lia; try contradiction; try discriminate.
Qed.

Lemma app_remaining_nonneg qty :
  0 <= App.remaining (app_answer product_id qty due data).
Proof.
  destruct (app_quantities product_id qty due data) as (_ & H1 & H2).
  destruct (App.can_fulfill (app_answer product_id qty due data)).
  - assert (E : App.remaining (app_answer product_id qty due data) = 0)
      by now apply H1.
    rewrite E. lia.
  - apply Z.lt_le_incl. now apply H2.
Qed.

Hypothesis bom_nonneg :
  forall b, In b (bom data) -> b_product_id b = product_id ->
            (0 <= b_qty_per_case b)%Q.

Lemma app_remaining_monotone q1 q2 :
  q1 <= q2 ->
  App.remaining (app_answer product_id q1 due data)
  <= App.remaining (app_answer product_id q2 due data).
Proof.
  intros Hle. pose proof total_headroom_nonneg as H0.
  destruct (app_remaining_cases q1) as (Ha1 & Hb1 & Hc1 & Hd1).
  destruct (app_remaining_cases q2) as (Ha2 & Hb2 & Hc2 & Hd2).
  destruct (Z.le_gt_cases q1 A) as [H1|H1].
  { rewrite Ha1 by auto. apply app_remaining_nonneg. }
  assert (H2 : A < q2) by lia.
  destruct (capable_lines product_id data) as [|l ls] eqn:Ec.
  { rewrite Hb1, Hb2 by auto. clear - Hle H1 H2 H0. lia. }
  assert (Hne : l :: ls <> []) by discriminate.
  assert (Hmats : forall q, A < q ->
            App.mat_blockers product_id q due data = []
            \/ App.mat_blockers product_id q due data <> []).
  { intros q _. destruct (App.mat_blockers product_id q due data);
      [left; auto|right; discriminate]. }
  destruct (Hmats q1 H1) as [E1|E1].
  - rewrite Hc1 by auto.
    destruct (Hmats q2 H2) as [E2|E2].
    + rewrite Hc2 by auto. clear - Hle H1 H2 H0. lia.
    + rewrite Hd2 by auto. clear - Hle H1 H2 H0. lia.
  - rewrite Hd1 by auto.
    assert (E2 : App.mat_blockers product_id q2 due data <> []).
    { unfold App.mat_blockers in *.
      eapply material_check_monotone; [exact bom_nonneg| |exact E1].
      rewrite !new_capacity_value by auto. fold A H.
      clear - Hle H1 H2 H0. lia. }
    rewrite Hd2 by auto. clear - Hle H1 H2 H0. lia.
Qed.

End Remaining.

Lemma remaining_agree pid qty dc due data :
  Main.remaining_qty (main_answer pid qty dc due data)
  = App.remaining (app_answer pid qty due data).
Proof.
  unfold main_answer, app_answer.
  pose proof (mat_blockers_length pid qty due data) as Hl.
  destruct (branch_of pid qty due data); cbn; auto.
  rewrite main_new_capacity_eq, app_new_capacity_eq.
  destruct (Main.mat_blockers pid qty due data),
           (App.mat_blockers pid qty due data);
    try discriminate Hl; reflexivity.
Qed.

(** [C8], as the code has it. On a snapshot in which no BOM line of the
    product has a negative quantity per case, asking for more never lowers
    the remaining quantity, in either copy. *)
Theorem remaining_monotone
  (to_datetime : string -> option timestamp)
  (product_id : string) (q1 q2 : Z) (due_str dc : string) (due : date)
  (data : Data) :
  to_datetime due_str = Some (Day due) ->
  (forall b, In b (bom data) -> b_product_id b = product_id ->
             (0 <= b_qty_per_case b)%Q) ->
  0 < q1 -> q1 <= q2 ->
  exists ra1 ra2 rm1 rm2,
    App.simulate_request to_datetime product_id q1 due_str data
    = Returned ra1
    /\ App.simulate_request to_datetime product_id q2 due_str data
       = Returned ra2
    /\ Main.simulate_request_core to_datetime product_id q1 due_str dc data
       = Returned rm1
    /\ Main.simulate_request_core to_datetime product_id q2 due_str dc data
       = Returned rm2
    /\ App.remaining ra1 <= App.remaining ra2
    /\ Main.remaining_qty rm1 <= Main.remaining_qty rm2.
Proof.
  intros Hd Hbom _ Hle.
  exists (app_answer product_id q1 due data),
         (app_answer product_id q2 due data),
         (main_answer product_id q1 dc due data),
         (main_answer product_id q2 dc due data).
  repeat split; try (now apply app_simulate_eq);
    try (now apply main_simulate_eq).
  - now apply app_remaining_monotone.
  - rewrite !remaining_agree. now apply app_remaining_monotone.
Qed.

(** [C8], as stated, fails on a snapshot with a negative quantity per case:
    for [P4] (BOM quantity -1, -5 on hand) a request for 3 cases is blocked
    by the material check and leaves 3 remaining, while a request for 6
    cases passes it and leaves nothing. *)
Lemma remaining_not_monotone :
  exists ra1 ra2 rm1 rm2,
    App.simulate_request parse_iso "P4" 3 "2025-11-04" Sample.snapshot
    = Returned ra1
    /\ App.simulate_request parse_iso "P4" 6 "2025-11-04" Sample.snapshot
       = Returned ra2
    /\ Main.simulate_request_core parse_iso "P4" 3 "2025-11-04" "DC"
         Sample.snapshot = Returned rm1
    /\ Main.simulate_request_core parse_iso "P4" 6 "2025-11-04" "DC"
         Sample.snapshot = Returned rm2
    /\ App.remaining ra1 = 3 /\ App.remaining ra2 = 0
    /\ Main.remaining_qty rm1 = 3 /\ Main.remaining_qty rm2 = 0
    /\ ~ (App.remaining ra1 <= App.remaining ra2)
    /\ ~ (Main.remaining_qty rm1 <= Main.remaining_qty rm2).
Proof.
  do 4 eexists.
  split; [vm_compute; reflexivity|].
  split; [vm_compute; reflexivity|].
  split; [vm_compute; reflexivity|].
  split; [vm_compute; reflexivity|].
  cbn. repeat split; try reflexivity; lia.
Qed.

(** * Worked requests *)

(** The four branches are all reached on the sample snapshot. *)
Example branches_reached :
  branch_of "P1" 300 Sample.nov4 Sample.snapshot = AlreadyCovered
  /\ branch_of "P9" 10 Sample.nov4 Sample.snapshot = NoCapableLine
  /\ branch_of "P1" 1200 Sample.nov4 Sample.snapshot = FullAfterAllocation
  /\ branch_of "P1" 5000 Sample.nov4 Sample.snapshot = PartialOrNo
  /\ branch_of "P5" 100 Sample.nov4 Sample.snapshot = PartialOrNo.
Proof. repeat split; vm_compute; reflexivity. Qed.

Lemma allocated_plus_remaining_witness :
  parse_iso "2025-11-04" = Some (Day Sample.nov4)
  /\ exists ra rm,
       App.simulate_request parse_iso "P1" 5000 "2025-11-04" Sample.snapshot
       = Returned ra
       /\ Main.simulate_request_core parse_iso "P1" 5000 "2025-11-04" "DC"
            Sample.snapshot = Returned rm
       /\ App.allocated_total ra + App.remaining ra = 5000
       /\ Main.covered_qty_on_requested_date rm + Main.remaining_qty rm
          = 5000.
Proof.
  split; [reflexivity|].
  apply (allocated_plus_remaining parse_iso "P1" 5000 "2025-11-04" "DC"
           Sample.nov4 Sample.snapshot).
  reflexivity.
Defined.

Lemma full_iff_nothing_remains_witness :
  exists ra rm,
    App.simulate_request parse_iso "P1" 1200 "2025-11-04" Sample.snapshot
    = Returned ra
    /\ Main.simulate_request_core parse_iso "P1" 1200 "2025-11-04" "DC"
         Sample.snapshot = Returned rm
    /\ (Main.status_of rm = Main.full <-> Main.remaining_qty rm = 0)
    /\ (Main.status_of rm = Main.partial \/ Main.status_of rm = Main.no ->
        0 < Main.remaining_qty rm)
    /\ (App.can_fulfill ra = true <-> App.remaining ra = 0)
    /\ (App.can_fulfill ra = false -> 0 < App.remaining ra).
Proof.
  apply (full_iff_nothing_remains parse_iso "P1" 1200 "2025-11-04" "DC"
           Sample.nov4 Sample.snapshot).
  reflexivity.
Defined.

(** Capacity would suffice for 100 cases of [P5], but its material has no
    inventory row: nothing new is confirmed. *)
Lemma last_branch_outcome_witness :
  exists rm ra,
    Main.simulate_request_core parse_iso "P5" 100 "2025-11-04" "DC"
      Sample.snapshot = Returned rm
    /\ App.simulate_request parse_iso "P5" 100 "2025-11-04" Sample.snapshot
       = Returned ra
    /\ Main.capacity_shortfall "P5" 100 Sample.nov4 Sample.snapshot = 0
    /\ Main.new_capacity_cases "P5" 100 Sample.nov4 Sample.snapshot = 100
    /\ Main.covered_qty_on_requested_date rm = 0
    /\ Main.status_of rm = Main.no
    /\ Main.existing_orders_used rm = []
    /\ Main.capacity_notes rm = []
    /\ Main.material_notes rm = [MaterialShort "Syrup" (3 * 100 - 0)%Q (Some 7)]
    /\ App.allocated_total ra = 0.
Proof.
  destruct (last_branch_outcome parse_iso "P5" 100 "2025-11-04" "DC"
              Sample.nov4 Sample.snapshot)
    as (rm & ra & Hm & Ha & _ & Hcov & Hrows & Hst & Hcap & Hmat & _ & Hall
        & _).
  - reflexivity.
  - vm_compute. reflexivity.
  - discriminate.
  - right. vm_compute. discriminate.
  - exists rm, ra.
    split; [exact Hm|]. split; [exact Ha|].
    split; [vm_compute; reflexivity|]. split; [vm_compute; reflexivity|].
    rewrite Hst, Hcov, Hrows, Hcap, Hmat, Hall.
    repeat split; vm_compute; reflexivity.
Defined.

Lemma new_rows_within_headroom_witness :
  exists ra rm,
    App.simulate_request parse_iso "P1" 5000 "2025-11-04" Sample.snapshot
    = Returned ra
    /\ Main.simulate_request_core parse_iso "P1" 5000 "2025-11-04" "DC"
         Sample.snapshot = Returned rm
    /\ NoDup (map row_key (new_rows (App.plan_rows ra)))
    /\ main_new_rows (Main.existing_orders_used rm)
       = map render (new_rows (App.plan_rows ra)).
Proof.
  destruct (new_rows_within_headroom parse_iso "P1" 5000 "2025-11-04" "DC"
              Sample.nov4 Sample.snapshot eq_refl)
    as (ra & rm & Ha & Hm & Hr & Hn & _).
  exists ra, rm. auto.
Defined.

Lemma allocation_order_witness :
  exists ra rm,
    App.simulate_request parse_iso "P1" 5000 "2025-11-04" Sample.snapshot
    = Returned ra
    /\ Main.simulate_request_core parse_iso "P1" 5000 "2025-11-04" "DC"
         Sample.snapshot = Returned rm
    /\ StronglySorted (fun a b => date_leb a b = true)
         (map App.production_date (new_rows (App.plan_rows ra))).
Proof.
  destruct (allocation_order parse_iso "P1" 5000 "2025-11-04" "DC"
              Sample.nov4 Sample.snapshot eq_refl)
    as (ra & rm & Ha & Hm & _ & _ & _ & _ & _ & Hs).
  exists ra, rm. auto.
Defined.

Lemma invalid_input_handling_witness :
  (exists e,
     Main.simulate_request parse_iso
       (Main.mkSimulateIn "P1" 10 "soon" "DC") Sample.snapshot = Raised e)
  /\ (exists rm,
        Main.simulate_request parse_iso
          (Main.mkSimulateIn "P1" 10 "" "DC") Sample.snapshot = Returned rm
        /\ Main.requested_date rm = "NaT"
        /\ Main.status_of rm = Main.no)
  /\ (exists rm,
        Main.simulate_request_core parse_iso "P1" 0 "2025-11-04" "DC"
          Sample.snapshot = Returned rm
        /\ Main.status_of rm = Main.full).
Proof.
  assert (R10 : - 2 ^ 63 <= 10 < 2 ^ 63) by (vm_compute; split; congruence).
  assert (R0 : - 2 ^ 63 <= 0 < 2 ^ 63) by (vm_compute; split; congruence).
  split; [|split].
  - apply (proj1 (invalid_input_handling parse_iso "P1" 10 "soon" "DC"
                    Sample.snapshot R10)).
    reflexivity.
  - destruct (invalid_input_handling parse_iso "P1" 10 "" "DC"
                Sample.snapshot R10) as (_ & _ & Hnat & _).
    destruct (Hnat eq_refl)
      as (rm & ra & Hm & _ & Hdate & _ & _ & _ & _ & _ & Hpos).
    exists rm. split; [exact Hm|]. split; [exact Hdate|].
    apply Hpos. reflexivity.
  - destruct (invalid_input_handling parse_iso "P1" 0 "2025-11-04" "DC"
                Sample.snapshot R0) as (_ & _ & _ & Hqty).
    destruct (Hqty Sample.nov4 eq_refl) as (rm & ra & Hm & _ & _ & _ & Hfull).
    + discriminate.
    + exists rm. split; [exact Hm|]. apply Hfull. vm_compute. discriminate.
Defined.


(** A product no line can run: app.py adds a material blocker, main.py
    does not. *)
Lemma no_capable_line_witness :
  exists rm ra,
    Main.simulate_request_core parse_iso "P9" 10 "2025-11-04" "DC"
      Sample.snapshot = Returned rm
    /\ App.simulate_request parse_iso "P9" 10 "2025-11-04" Sample.snapshot
       = Returned ra
    /\ Main.status_of rm = Main.no
    /\ Main.material_notes rm = []
    /\ App.material_blockers ra = [Text "No line can run this product"].
Proof.
  destruct (no_capable_line parse_iso "P9" 10 "2025-11-04" "DC"
              Sample.nov4 Sample.snapshot)
    as (rm & ra & Hm & Ha & Hst & _ & _ & _ & _ & Hmat & _ & _ & _ & _ & _
        & Hbl).
  - reflexivity.
  - vm_compute. reflexivity.
  - intros c Hc. vm_compute in Hc.
    repeat (destruct Hc as [<-|Hc]; [discriminate|]). contradiction.
  - exists rm, ra. auto.
Defined.

Lemma copies_side_by_side_witness :
  exists ra rm,
    App.simulate_request parse_iso "P9" 10 "2025-11-04" Sample.snapshot
    = Returned ra
    /\ Main.simulate_request_core parse_iso "P9" 10 "2025-11-04" "DC"
         Sample.snapshot = Returned rm
    /\ Main.remaining_qty rm = App.remaining ra
    /\ List.length (Main.material_notes rm) = 0%nat
    /\ List.length (App.material_blockers ra) = 1%nat.
Proof.
  destruct (copies_side_by_side parse_iso "P9" 10 "2025-11-04" "DC"
              Sample.nov4 Sample.snapshot eq_refl)
    as (ra & rm & Ha & Hm & _ & Hrem & _ & _ & _ & _ & Hno).
  exists ra, rm.
  destruct Hno as [H0 H1]; [vm_compute; reflexivity|]. auto.
Defined.

Lemma remaining_monotone_witness :
  exists ra1 ra2 rm1 rm2,
    App.simulate_request parse_iso "P1" 1200 "2025-11-04" Sample.snapshot
    = Returned ra1
    /\ App.simulate_request parse_iso "P1" 5000 "2025-11-04" Sample.snapshot
       = Returned ra2
    /\ Main.simulate_request_core parse_iso "P1" 1200 "2025-11-04" "DC"
         Sample.snapshot = Returned rm1
    /\ Main.simulate_request_core parse_iso "P1" 5000 "2025-11-04" "DC"
         Sample.snapshot = Returned rm2
    /\ App.remaining ra1 <= App.remaining ra2
    /\ Main.remaining_qty rm1 <= Main.remaining_qty rm2.
Proof.
  apply (remaining_monotone parse_iso "P1" 1200 5000 "2025-11-04" "DC"
           Sample.nov4 Sample.snapshot).
  - reflexivity.
  - intros b Hb Hp. vm_compute in Hb.
    repeat (destruct Hb as [<-|Hb];
            [first [discriminate Hp | vm_compute; discriminate]|]).
    contradiction.
  - lia.
  - lia.
Defined.

(** * Further properties of the simulator *)

(** ** Order on strings *)

Lemma ascii_compare_trans (a b c : ascii) :
  Ascii.compare a b <> Gt -> Ascii.compare b c <> Gt ->
  Ascii.compare a c <> Gt.
Proof.
  unfold Ascii.compare. rewrite !N.compare_le_iff. apply N.le_trans.
Qed.

Lemma ascii_compare_eq (a b : ascii) : Ascii.compare a b = Eq <-> a = b.
Proof.
  unfold Ascii.compare. rewrite N.compare_eq_iff. split; [|congruence].
  intros E. rewrite <- (ascii_N_embedding a), <- (ascii_N_embedding b).
  congruence.
Qed.

Lemma string_compare_trans (a b c : string) :
  String.compare a b <> Gt -> String.compare b c <> Gt ->
  String.compare a c <> Gt.
Proof.
  revert b c. induction a as [|x a IH]; intros [|y b] [|z c]; simpl;
    try congruence.
  destruct (Ascii.compare x y) eqn:Exy; try congruence;
    destruct (Ascii.compare y z) eqn:Eyz; try congruence; intros H1 H2.
  - apply ascii_compare_eq in Exy, Eyz. subst.
    assert (E : Ascii.compare z z = Eq) by now apply ascii_compare_eq.
    rewrite E. eauto.
  - apply ascii_compare_eq in Exy. subst. now rewrite Eyz.
  - apply ascii_compare_eq in Eyz. subst. now rewrite Exy.
  - assert (Hxz : Ascii.compare x z <> Gt)
      by (apply (ascii_compare_trans x y z); congruence).
    assert (Hne : Ascii.compare x z <> Eq).
    { intros E. apply ascii_compare_eq in E. subst.
      unfold Ascii.compare in *. rewrite N.compare_lt_iff in *. lia. }
    destruct (Ascii.compare x z); congruence.
Qed.

Lemma string_leb_trans (a b c : string) :
  String.leb a b = true -> String.leb b c = true -> String.leb a c = true.
Proof.
  unfold String.leb. intros H1 H2.
  pose proof (string_compare_trans a b c) as H.
  destruct (String.compare a b), (String.compare b c); try discriminate;
    destruct (String.compare a c); auto; exfalso; apply H; congruence.
Qed.

Lemma key_leb_total (a b : date * string) :
  key_leb a b = true \/ key_leb b a = true.
Proof.
  destruct a as [d1 l1], b as [d2 l2]. unfold key_leb. simpl.
  destruct (date_ltb d1 d2) eqn:E1; [now left|].
  destruct (date_ltb d2 d1) eqn:E2; [now right|].
  assert (E : d1 = d2).
  { pose proof (date_leb_total d1 d2) as Ht. unfold date_leb in Ht.
    rewrite E1, E2 in Ht. simpl in Ht.
    destruct Ht as [Ht|Ht]; apply date_eqb_eq in Ht; congruence. }
  subst. rewrite date_eqb_refl. simpl. apply String.leb_total.
Qed.

Lemma date_ltb_trans (a b c : date) :
  date_ltb a b = true -> date_ltb b c = true -> date_ltb a c = true.
Proof. destruct a, b, c; date_bools; lia. Qed.

Lemma key_leb_trans (a b c : date * string) :
  key_leb a b = true -> key_leb b c = true -> key_leb a c = true.
Proof.
  destruct a as [d1 l1], b as [d2 l2], c as [d3 l3]. unfold key_leb. simpl.
  rewrite !orb_true_iff, !andb_true_iff.
  intros [H1|[H1 L1]] [H2|[H2 L2]].
  - left. eapply date_ltb_trans; eauto.
  - apply date_eqb_eq in H2. subst. auto.
  - apply date_eqb_eq in H1. subst. auto.
  - apply date_eqb_eq in H1, H2. subst. right. split.
    + apply date_eqb_refl.
    + eapply string_leb_trans; eauto.
Qed.

(** ** What a plan contains *)

Lemma sum_planned_perm (l1 l2 : list ScheduleRow) :
  Permutation l1 l2 -> sum_planned l1 = sum_planned l2.
Proof. induction 1; simpl; lia. Qed.

Lemma sum_cases_app (l1 l2 : list App.plan_row) :
  sum_cases (l1 ++ l2) = sum_cases l1 + sum_cases l2.
Proof. induction l1 as [|r l1 IH]; simpl; [reflexivity|rewrite IH; lia]. Qed.

Lemma main_sum_cases_render (l : list App.plan_row) :
  main_sum_cases (map render l) = sum_cases l.
Proof. induction l as [|r l IH]; simpl; [reflexivity|now rewrite IH]. Qed.

Lemma sum_cases_covering pid due data :
  sum_cases (App.covering_rows pid due data)
  = already_planned_cases pid due data.
Proof.
  unfold App.covering_rows, App.covering_rows_of, already_planned_cases.
  rewrite <- (sum_planned_perm _ _ (sort_by_perm sched_key_leb _)).
  induction (sort_by sched_key_leb _) as [|r l IH]; simpl;
    [reflexivity|now rewrite IH].
Qed.

Lemma sum_cases_fill (g : list ((date * string) * Z)) :
  sum_cases (map app_row g) = total g.
Proof. induction g as [|p g IH]; simpl; [reflexivity|now rewrite IH]. Qed.

Lemma planned_rows_app l1 l2 :
  planned_rows (l1 ++ l2) = planned_rows l1 ++ planned_rows l2.
Proof. apply filter_app. Qed.

Lemma planned_of_covering pid due data :
  planned_rows (App.covering_rows pid due data)
  = App.covering_rows pid due data.
Proof.
  unfold planned_rows, App.covering_rows, App.covering_rows_of.
  induction (sort_by _ _) as [|r l IH]; simpl; congruence.
Qed.

Lemma planned_of_extra pid qty due data :
  planned_rows (App.extra_plan_rows pid qty due data) = [].
Proof.
  unfold planned_rows. rewrite app_extra_rows_eq.
  induction (fill pid qty due data); simpl; auto.
Qed.

(** Whatever the branch, a plan is the covering rows followed by all of
    the fill or none of it. *)
Lemma app_plan_rows_form pid qty due data :
  exists g,
    (g = [] \/ g = fill pid qty due data)
    /\ App.plan_rows (app_answer pid qty due data)
       = App.covering_rows pid due data ++ map app_row g.
Proof.
  unfold app_answer. destruct (branch_of pid qty due data); cbn.
  - exists []. simpl. rewrite app_nil_r. auto.
  - exists []. simpl. rewrite app_nil_r. auto.
  - exists (fill pid qty due data). rewrite app_extra_rows_eq. auto.
  - destruct (0 <? _).
    + exists (fill pid qty due data). rewrite app_extra_rows_eq. auto.
    + exists []. auto.
Qed.

Lemma covering_rows_from_schedule pid due data r :
  In r (App.covering_rows pid due data) ->
  App.row_source r = already_planned
  /\ exists s, In s (schedule data)
               /\ s_product_id s = pid
               /\ date_leb (s_production_date s) due = true
               /\ App.line_id r = s_line_id s
               /\ App.production_date r = s_production_date s
               /\ App.allocated_cases r = s_planned_qty_cases s.
Proof.
  unfold App.covering_rows, App.covering_rows_of. intros H.
  apply in_map_iff in H. destruct H as [s [<- Hs]].
  apply (Permutation_in _ (sort_by_perm _ _)) in Hs.
  unfold sku_sched_of, sched_window, sched_window_of, on_or_before in Hs.
  apply filter_In in Hs. destruct Hs as [Hs Hp].
  apply filter_In in Hs. destruct Hs as [Hs Hd].
  apply String.eqb_eq in Hp. split; [reflexivity|].
  exists s. simpl. auto 10.
Qed.

Lemma fill_rows_in_window pid qty due data p :
  In p (fill pid qty due data) ->
  date_leb (fst (fst p)) due = true
  /\ In (snd (fst p)) (capable_lines pid data)
  /\ 0 < snd p.
Proof.
  intros H.
  pose proof (greedy_bound
                (slots_of (lines data) (sched_window due data)
                          (visited_pairs due pid data))
                (qty - already_planned_cases pid due data)
                (slots_of_positive _ _ _)) as Hb.
  rewrite Forall_forall in Hb. destruct (Hb p H) as [h (Hin & Hq & _)].
  apply slots_of_In in Hin. destruct Hin as [Hv _].
  destruct p as [[d l] q]. simpl in *. split; [|split; [|lia]].
  - eapply visited_in_window; eauto.
  - unfold visited_pairs in Hv. apply in_prod_iff in Hv. tauto.
Qed.

(** [X1] No row of a plan is dated after the due date. An already-planned
    row repeats a scheduled run of the product; a new-plan row is on a
    line with a capability row for the product. main.py's plan is app.py's
    with line and date rendered by [str]. *)
Theorem plan_rows_in_window
  (to_datetime : string -> option timestamp)
  (product_id : string) (qty : Z) (due_str dc : string) (due : date)
  (data : Data) :
  to_datetime due_str = Some (Day due) ->
  exists ra rm,
    App.simulate_request to_datetime product_id qty due_str data
    = Returned ra
    /\ Main.simulate_request_core to_datetime product_id qty due_str dc data
       = Returned rm
    /\ Main.existing_orders_used rm = map render (App.plan_rows ra)
    /\ Forall
         (fun r =>
            date_leb (App.production_date r) due = true
            /\ match App.row_source r with
               | already_planned =>
                   exists s, In s (schedule data)
                             /\ s_product_id s = product_id
                             /\ s_line_id s = App.line_id r
                             /\ s_production_date s = App.production_date r
                             /\ s_planned_qty_cases s = App.allocated_cases r
               | new_plan =>
                   exists c, In c (capability data)
                             /\ c_product_id c = product_id
                             /\ c_line_id c = App.line_id r
               end)
         (App.plan_rows ra).
Proof.
  intros Hd.
  exists (app_answer product_id qty due data),
         (main_answer product_id qty dc due data).
  split; [now apply app_simulate_eq|].
  split; [now apply main_simulate_eq|].
  split; [apply render_plan_rows|].
  destruct (app_plan_rows_form product_id qty due data) as (g & Hg & ->).
  apply Forall_app. split.
  - apply Forall_forall. intros r Hr.
    apply covering_rows_from_schedule in Hr.
    destruct Hr as [Hsrc (s & Hs & Hp & Hdt & El & Ed & Eq)].
    rewrite Hsrc, Ed. split; auto. exists s. auto 10.
  - apply Forall_forall. intros r Hr. apply in_map_iff in Hr.
    destruct Hr as [p [<- Hp]].
    assert (Hin : In p (fill product_id qty due data))
      by (destruct Hg as [->| ->]; [contradiction|exact Hp]).
    apply fill_rows_in_window in Hin. destruct Hin as (Hw & Hc & _).
    simpl. split; auto. now apply capable_lines_In.
Qed.

Lemma filter_filter_and {X : Type} (f g : X -> bool) (l : list X) :
  filter f (filter g l) = filter (fun x => g x && f x) l.
Proof.
  induction l as [|x l IH]; simpl; [reflexivity|].
  destruct (g x); simpl; [destruct (f x)|]; now rewrite IH.
Qed.

Lemma StronglySorted_weaken {X : Type} (R S : X -> X -> Prop) (l : list X) :
  (forall a b, R a b -> S a b) -> StronglySorted R l -> StronglySorted S l.
Proof.
  intros HRS. induction 1 as [|a l H IH Ha]; constructor; auto.
  eapply Forall_impl; [|exact Ha]. intros b. apply HRS.
Qed.

(** [X2] The already-planned rows of a plan list each scheduled run of the
    product that is dated on or before the due date exactly once, with its
    line, date and quantity; they add up to the already-planned quantity
    the classifier compares with the request, and they come in ascending
    order of their dates. main.py returns the same rows, rendered. *)
Theorem planned_rows_account
  (to_datetime : string -> option timestamp)
  (product_id : string) (qty : Z) (due_str dc : string) (due : date)
  (data : Data) :
  to_datetime due_str = Some (Day due) ->
  exists ra rm,
    App.simulate_request to_datetime product_id qty due_str data
    = Returned ra
    /\ Main.simulate_request_core to_datetime product_id qty due_str dc data
       = Returned rm
    /\ sum_cases (planned_rows (App.plan_rows ra))
       = already_planned_cases product_id due data
    /\ Permutation
         (planned_rows (App.plan_rows ra))
         (map (fun r => App.mkRow (s_line_id r) (s_production_date r)
                                  (s_planned_qty_cases r) already_planned)
              (filter (fun r => date_leb (s_production_date r) due
                                && String.eqb (s_product_id r) product_id)
                      (schedule data)))
    /\ StronglySorted
         (fun a b =>
            date_leb (App.production_date a) (App.production_date b) = true)
         (planned_rows (App.plan_rows ra))
    /\ Main.existing_orders_used rm = map render (App.plan_rows ra).
Proof.
  intros Hd.
  exists (app_answer product_id qty due data),
         (main_answer product_id qty dc due data).
  split; [now apply app_simulate_eq|].
  split; [now apply main_simulate_eq|].
  assert (Hpl : planned_rows (App.plan_rows (app_answer product_id qty due data))
                = App.covering_rows product_id due data).
  { destruct (app_plan_rows_form product_id qty due data) as (g & Hg & ->).
    rewrite planned_rows_app, planned_of_covering.
    replace (planned_rows (map app_row g)) with (@nil App.plan_row);
      [now rewrite app_nil_r|].
    unfold planned_rows. clear. induction g; simpl; auto. }
  rewrite Hpl, sum_cases_covering.
  split; [reflexivity|]. split; [|split; [|apply render_plan_rows]].
  - unfold App.covering_rows, App.covering_rows_of, sku_sched_of,
      sched_window, sched_window_of, on_or_before.
    rewrite filter_filter_and. apply Permutation_map, sort_by_perm.
  - unfold App.covering_rows, App.covering_rows_of.
    apply StronglySorted_map. cbn [App.production_date].
    apply (StronglySorted_weaken (fun a b => sched_key_leb a b = true)).
    + intros a b H. unfold sched_key_leb in H. unfold date_leb.
      apply orb_true_iff in H. apply orb_true_iff.
      destruct H as [H|H]; [now left|].
      apply andb_true_iff in H. now right.
    + apply (sort_by_sorted sched_key_leb).
      * intros x y. apply (key_leb_total (s_production_date x, s_line_id x)
                                         (s_production_date y, s_line_id y)).
      * intros x y z.
        apply (key_leb_trans (s_production_date x, s_line_id x)
                             (s_production_date y, s_line_id y)
                             (s_production_date z, s_line_id z)).
Qed.

Lemma fill_nonneg_total pid qty due data : 0 <= total (fill pid qty due data).
Proof.
  unfold fill. generalize (qty - already_planned_cases pid due data).
  generalize (slots_of_positive (lines data) (sched_window due data)
                (visited_pairs due pid data)).
  generalize (slots_of (lines data) (sched_window due data)
                (visited_pairs due pid data)).
  intros s Hs. induction Hs as [|[k h] s Hh Hs IH]; intros n; simpl; [lia|].
  destruct (Z.leb_spec n 0); simpl; [lia|].
  specialize (IH (n - Z.min h n)). simpl in Hh. lia.
Qed.

(** [X3] The rows of a plan add up to the covered quantity the result
    reports, except when the schedule already holds more than was asked
    for: then the plan shows all of the already-planned quantity. *)
Theorem plan_adds_up
  (to_datetime : string -> option timestamp)
  (product_id : string) (qty : Z) (due_str dc : string) (due : date)
  (data : Data) :
  to_datetime due_str = Some (Day due) ->
  exists ra rm,
    App.simulate_request to_datetime product_id qty due_str data
    = Returned ra
    /\ Main.simulate_request_core to_datetime product_id qty due_str dc data
       = Returned rm
    /\ sum_cases (App.plan_rows ra)
       = Z.max (App.allocated_total ra)
               (already_planned_cases product_id due data)
    /\ main_sum_cases (Main.existing_orders_used rm)
       = Z.max (Main.covered_qty_on_requested_date rm)
               (already_planned_cases product_id due data).
Proof.
  intros Hd.
  exists (app_answer product_id qty due data),
         (main_answer product_id qty dc due data).
  split; [now apply app_simulate_eq|].
  split; [now apply main_simulate_eq|].
  rewrite render_plan_rows, main_sum_cases_render.
  assert (Hm : Main.covered_qty_on_requested_date
                 (main_answer product_id qty dc due data)
               = App.allocated_total (app_answer product_id qty due data)).
  { unfold main_answer, app_answer.
    pose proof (mat_blockers_length product_id qty due data) as Hl.
    destruct (branch_of product_id qty due data); cbn; auto.
    rewrite main_new_capacity_eq, app_new_capacity_eq.
    destruct (Main.mat_blockers product_id qty due data),
             (App.mat_blockers product_id qty due data);
      try discriminate Hl; reflexivity. }
  rewrite Hm.
  cut (sum_cases (App.plan_rows (app_answer product_id qty due data))
       = Z.max (App.allocated_total (app_answer product_id qty due data))
               (already_planned_cases product_id due data));
    [intros E; split; exact E|].
  pose proof (fill_nonneg_total product_id qty due data) as Hn.
  unfold app_answer.
  destruct (branch_of product_id qty due data) eqn:Eb; cbn.
  - apply branch_already_covered in Eb. rewrite sum_cases_covering. lia.
  - rewrite sum_cases_covering. lia.
  - apply branch_full_after_allocation in Eb.
    destruct Eb as (Hlt & _ & Hs & _).
    rewrite shortfall_value, app_new_capacity_eq in Hs by exact Hlt.
    rewrite sum_cases_app, sum_cases_covering, app_extra_rows_eq,
      sum_cases_fill. lia.
  - rewrite sum_cases_app, sum_cases_covering, app_new_capacity_eq.
    destruct (App.mat_blockers product_id qty due data).
    + destruct (Z.ltb_spec 0 (total (fill product_id qty due data))).
      * rewrite app_extra_rows_eq, sum_cases_fill. lia.
      * simpl. lia.
    + simpl. lia.
Qed.

(** ** When a request is feasible *)

Lemma headroom_at_nonneg ld sw d l : 0 <= headroom_at ld sw d l.
Proof. unfold headroom_at. destruct (line_info_of l ld); lia. Qed.

Lemma total_slots_of ld sw ps :
  total (slots_of ld sw ps)
  = fold_right (fun k acc => headroom_at ld sw (fst k) (snd k) + acc) 0 ps.
Proof.
  induction ps as [|k ps IH]; [reflexivity|].
  rewrite slots_of_cons, total_app, IH. simpl.
  pose proof (headroom_at_nonneg ld sw (fst k) (snd k)).
  destruct (Z.ltb_spec 0 (headroom_at ld sw (fst k) (snd k))); simpl; lia.
Qed.

Lemma total_headroom_slots due pid data :
  total_headroom due pid data
  = total (slots_of (lines data) (sched_window due data)
                    (visited_pairs due pid data)).
Proof. unfold total_headroom. now rewrite total_slots_of. Qed.

Lemma total_headroom_no_line due pid data :
  capable_lines pid data = [] -> total_headroom due pid data = 0.
Proof.
  intros E. unfold total_headroom, visited_pairs. rewrite E.
  induction (window_dates _); simpl; auto.
Qed.

Lemma material_check_nil pid n bom_df inv_df :
  Main.material_check pid n bom_df inv_df = []
  <-> App.material_check pid n bom_df inv_df = [].
Proof.
  rewrite <- !length_zero_iff_nil, material_check_length. tauto.
Qed.

(** [X4] What the loops allocate is the smaller of the need and the free
    headroom of the window, added over its dates and the capable lines. So
    a request is answered as fully feasible exactly when the schedule
    already covers it, or that headroom covers the need and the material
    check passes for the whole need. *)
Theorem feasibility_criterion
  (to_datetime : string -> option timestamp)
  (product_id : string) (qty : Z) (due_str dc : string) (due : date)
  (data : Data) :
  to_datetime due_str = Some (Day due) ->
  let A := already_planned_cases product_id due data in
  let H := total_headroom due product_id data in
  exists ra rm,
    App.simulate_request to_datetime product_id qty due_str data
    = Returned ra
    /\ Main.simulate_request_core to_datetime product_id qty due_str dc data
       = Returned rm
    /\ (A < qty ->
        App.new_capacity_cases product_id qty due data = Z.min (qty - A) H
        /\ Main.new_capacity_cases product_id qty due data
           = Z.min (qty - A) H
        /\ Main.capacity_shortfall product_id qty due data
           = Z.max (qty - A - H) 0)
    /\ (App.can_fulfill ra = true <->
        qty <= A
        \/ (qty - A <= H
            /\ App.material_check product_id (qty - A)
                 (bom data) (inventory data) = []))
    /\ (Main.status_of rm = Main.full <->
        qty <= A
        \/ (qty - A <= H
            /\ Main.material_check product_id (qty - A)
                 (bom data) (inventory data) = [])).
Proof.
  intros Hd A H.
  exists (app_answer product_id qty due data),
         (main_answer product_id qty dc due data).
  split; [now apply app_simulate_eq|].
  split; [now apply main_simulate_eq|].
  assert (H0 : 0 <= H)
    by (unfold H; rewrite total_headroom_slots;
        apply total_nonneg, slots_of_positive).
  assert (Hnew : A < qty ->
                 App.new_capacity_cases product_id qty due data
                 = Z.min (qty - A) H).
  { intros Hlt. unfold H. rewrite total_headroom_slots.
    now apply new_capacity_value. }
  split.
  { intros Hlt. split; [auto|]. split.
    - rewrite main_new_capacity_eq, <- app_new_capacity_eq. auto.
    - rewrite shortfall_eq, shortfall_value by exact Hlt.
      rewrite Hnew by exact Hlt. fold A. lia. }
  assert (Hfull :
    branch_of product_id qty due data = AlreadyCovered
    \/ branch_of product_id qty due data = FullAfterAllocation
    <-> qty <= A
        \/ (qty - A <= H
            /\ App.material_check product_id (qty - A)
                 (bom data) (inventory data) = [])).
  { rewrite branch_already_covered, branch_full_after_allocation. fold A.
    split.
    - intros [Hle|(Hlt & Hc & Hs & Hm)]; [now left|right].
      rewrite shortfall_value in Hs by exact Hlt.
      unfold App.mat_blockers in Hm. rewrite Hnew in Hs, Hm by exact Hlt.
      fold A in Hs.
      assert (E : Z.min (qty - A) H = qty - A) by lia.
      rewrite E in Hm. split; [lia|exact Hm].
    - intros [Hle|[Hh Hm]]; [now left|].
      destruct (Z.le_gt_cases qty A) as [Hle|Hlt]; [now left|right].
      assert (E : Z.min (qty - A) H = qty - A) by lia.
      split; [exact Hlt|]. split.
      + intros Ec. apply (total_headroom_no_line due) in Ec. fold H in Ec.
        lia.
      + rewrite shortfall_value by exact Hlt. unfold App.mat_blockers.
        rewrite Hnew by exact Hlt. fold A. rewrite E. split; [lia|exact Hm]. }
  split.
  - rewrite <- Hfull. unfold app_answer.
    destruct (branch_of product_id qty due data); cbn;
      intuition discriminate.
  - rewrite material_check_nil, <- Hfull. unfold main_answer.
    destruct (branch_of product_id qty due data); cbn;
      try (intuition discriminate).
    destruct (0 <? _); intuition discriminate.
Qed.

(** ** The fill is greedy *)

Lemma greedy_front_full {K : Type} (s : list (K * Z)) (n : Z)
  (front : list (K * Z)) (last : K * Z) :
  positive_slots s ->
  greedy s n = front ++ [last] ->
  Forall (fun p => In p s) front.
Proof.
  intros Hs. revert n front.
  induction Hs as [|[k h] s Hh Hs IH]; intros n front E; simpl in E.
  - destruct front; discriminate.
  - destruct (Z.leb_spec n 0) as [Hn|Hn]; [destruct front; discriminate|].
    destruct front as [|p front]; [constructor|].
    simpl in E. injection E as <- E.
    assert (Hrest : 0 < n - Z.min h n).
    { destruct (Z.leb_spec (n - Z.min h n) 0) as [Hle|]; [|assumption].
      rewrite greedy_nonpos in E by exact Hle. destruct front; discriminate. }
    constructor.
    + left. f_equal. lia.
    + eapply Forall_impl; [|eapply IH; eauto]. intros p Hp. now right.
Qed.

Lemma slot_headroom_value due pid data k h :
  In (k, h) (slots_of (lines data) (sched_window due data)
                      (visited_pairs due pid data)) ->
  exists line_info rest,
    line_info_of (snd k) (lines data) = line_info :: rest
    /\ h = Z.max (l_daily_capacity_cases line_info
                  - scheduled_on data (snd k) (fst k)) 0.
Proof.
  intros Hin.
  pose proof (slots_of_positive (lines data) (sched_window due data)
                (visited_pairs due pid data)) as Hp.
  unfold positive_slots in Hp. rewrite Forall_forall in Hp.
  specialize (Hp _ Hin). simpl in Hp.
  apply slots_of_In in Hin. destruct Hin as [Hv ->].
  destruct (headroom_positive _ _ _ _ Hp) as (info & rest & El & Eh).
  exists info, rest. split; auto. rewrite Eh.
  unfold scheduled_on, sched_window. destruct k as [d l]. simpl in *.
  rewrite todays_runs_window by (eapply visited_in_window; eauto).
  reflexivity.
Qed.

(** [X5] The allocation is greedy: every new-plan row but the last takes
    the whole headroom of its line and day, and together the new-plan rows
    never exceed what was still needed beyond the schedule. *)
Theorem all_but_last_row_full
  (to_datetime : string -> option timestamp)
  (product_id : string) (qty : Z) (due_str dc : string) (due : date)
  (data : Data) :
  to_datetime due_str = Some (Day due) ->
  exists ra rm,
    App.simulate_request to_datetime product_id qty due_str data
    = Returned ra
    /\ Main.simulate_request_core to_datetime product_id qty due_str dc data
       = Returned rm
    /\ main_new_rows (Main.existing_orders_used rm)
       = map render (new_rows (App.plan_rows ra))
    /\ sum_cases (new_rows (App.plan_rows ra))
       <= Z.max (qty - already_planned_cases product_id due data) 0
    /\ forall front last,
         new_rows (App.plan_rows ra) = front ++ [last] ->
         Forall
           (fun r =>
              exists line_info rest,
                line_info_of (App.line_id r) (lines data) = line_info :: rest
                /\ App.allocated_cases r
                   = Z.max (l_daily_capacity_cases line_info
                            - scheduled_on data (App.line_id r)
                                           (App.production_date r)) 0)
           front.
Proof.
  intros Hd.
  exists (app_answer product_id qty due data),
         (main_answer product_id qty dc due data).
  split; [now apply app_simulate_eq|].
  split; [now apply main_simulate_eq|].
  destruct (new_rows_form product_id qty dc due data) as (g & Hg & -> & ->).
  split; [rewrite map_map; apply map_ext, render_app_row|].
  split.
  - rewrite sum_cases_fill. destruct Hg as [->| ->]; [simpl; lia|].
    destruct (Z.le_gt_cases qty (already_planned_cases product_id due data)).
    + unfold fill. rewrite greedy_nonpos by lia. simpl. lia.
    + pose proof (fill_total_bounds product_id qty due data H). lia.
  - intros front last E.
    destruct Hg as [->| ->]; [destruct front; discriminate|].
    assert (Hsplit : exists gf gl,
               fill product_id qty due data = gf ++ [gl]
               /\ front = map app_row gf).
    { clear -E. revert front E.
      induction (fill product_id qty due data) as [|p g IH]; intros front E.
      - destruct front; discriminate.
      - destruct front as [|r front]; simpl in E.
        + injection E as _ E. destruct g; [|discriminate].
          exists [], p. auto.
        + injection E as <- E. destruct (IH _ E) as (gf & gl & -> & ->).
          exists (p :: gf), gl. auto. }
    destruct Hsplit as (gf & gl & Eg & ->).
    apply Forall_map.
    pose proof (greedy_front_full _ _ gf gl
                  (slots_of_positive _ _ _) Eg) as Hf.
    eapply Forall_impl; [|exact Hf].
    intros [k h] Hin. apply slot_headroom_value in Hin.
    destruct k as [d l]. exact Hin.
Qed.

(** ** Edge cases *)

(** [X6] Capacity is only looked for on dates that already occur in the
    schedule up to the due date. When no scheduled run is dated on or
    before the due date, a positive request gets nothing: the answer is
    [no] with nothing covered, the whole quantity remaining and an empty
    plan; with a capable line the capacity note reports the whole quantity
    as short and there is no material note. *)
Theorem empty_window_allocates_nothing
  (to_datetime : string -> option timestamp)
  (product_id : string) (qty : Z) (due_str dc : string) (due : date)
  (data : Data) :
  to_datetime due_str = Some (Day due) ->
  (forall s, In s (schedule data) ->
             date_leb (s_production_date s) due = false) ->
  0 < qty ->
  exists ra rm,
    App.simulate_request to_datetime product_id qty due_str data
    = Returned ra
    /\ Main.simulate_request_core to_datetime product_id qty due_str dc data
       = Returned rm
    /\ Main.status_of rm = Main.no
    /\ Main.covered_qty_on_requested_date rm = 0
    /\ Main.remaining_qty rm = qty
    /\ Main.existing_orders_used rm = []
    /\ App.can_fulfill ra = false
    /\ App.allocated_total ra = 0
    /\ App.remaining ra = qty
    /\ App.plan_rows ra = []
    /\ (capable_lines product_id data <> [] ->
        Main.capacity_notes rm = [ShortCases qty (Day due)]
        /\ Main.material_notes rm = []
        /\ App.capacity_blockers ra = [ShortCases qty (Day due)]
        /\ App.material_blockers ra = []).
Proof.
  intros Hd Hempty Hq.
  exists (app_answer product_id qty due data),
         (main_answer product_id qty dc due data).
  split; [now apply app_simulate_eq|].
  split; [now apply main_simulate_eq|].
  assert (Hw : sched_window due data = []).
  { unfold sched_window, sched_window_of, on_or_before.
    induction (schedule data) as [|s l IH]; simpl; auto.
    rewrite (Hempty s) by now left. apply IH.
    intros s' Hs'. apply Hempty. now right. }
  assert (HA : already_planned_cases product_id due data = 0)
    by (unfold already_planned_cases; now rewrite Hw).
  assert (Hf : fill product_id qty due data = [])
    by (unfold fill, visited_pairs; now rewrite Hw).
  assert (Hca : App.covering_rows product_id due data = [])
    by (unfold App.covering_rows; now rewrite Hw).
  assert (Hcm : Main.covering_rows product_id due data = [])
    by (unfold Main.covering_rows; now rewrite Hw).
  assert (Hna : App.new_capacity_cases product_id qty due data = 0)
    by (now rewrite app_new_capacity_eq, Hf).
  assert (Hnm : Main.new_capacity_cases product_id qty due data = 0)
    by (now rewrite main_new_capacity_eq, Hf).
  assert (Hma : App.mat_blockers product_id qty due data = [])
    by (unfold App.mat_blockers; now rewrite Hna).
  assert (Hmm : Main.mat_blockers product_id qty due data = [])
    by (unfold Main.mat_blockers; now rewrite Hnm).
  assert (Hsa : App.capacity_shortfall product_id qty due data = qty)
    by (unfold App.capacity_shortfall; rewrite Hna, HA; lia).
  assert (Hsm : Main.capacity_shortfall product_id qty due data = qty)
    by (now rewrite shortfall_eq).
  unfold app_answer, main_answer.
  destruct (branch_of product_id qty due data) eqn:Eb.
  - apply branch_already_covered in Eb. lia.
  - apply branch_no_capable_line in Eb. destruct Eb as [_ Ec].
    cbn. rewrite HA, Hca, Hcm, Z.sub_0_r.
    repeat split; auto; contradiction.
  - apply branch_full_after_allocation in Eb. lia.
  - cbn. rewrite HA, Hca, Hcm, Hna, Hnm, Hma, Hmm, Hsa, Hsm. cbn.
    destruct (Z.ltb_spec 0 qty); [|lia].
    rewrite Z.sub_0_r, Z.max_l by lia. repeat split; auto.
Qed.

(** ** What the fields of a result tell *)

(** [X7] A result that lists a material blocker confirms nothing new: the
    covered quantity is the already-planned one and the plan has no
    new-plan row. *)
Theorem material_blockers_block_all_new
  (to_datetime : string -> option timestamp)
  (product_id : string) (qty : Z) (due_str dc : string) (due : date)
  (data : Data) :
  to_datetime due_str = Some (Day due) ->
  exists ra rm,
    App.simulate_request to_datetime product_id qty due_str data
    = Returned ra
    /\ Main.simulate_request_core to_datetime product_id qty due_str dc data
       = Returned rm
    /\ (Main.material_notes rm <> [] ->
        Main.covered_qty_on_requested_date rm
        = already_planned_cases product_id due data
        /\ main_new_rows (Main.existing_orders_used rm) = []
        /\ Main.status_of rm <> Main.full)
    /\ (App.material_blockers ra <> [] ->
        App.allocated_total ra = already_planned_cases product_id due data
        /\ new_rows (App.plan_rows ra) = []
        /\ App.can_fulfill ra = false).
Proof.
  intros Hd.
  exists (app_answer product_id qty due data),
         (main_answer product_id qty dc due data).
  split; [now apply app_simulate_eq|].
  split; [now apply main_simulate_eq|].
  unfold app_answer, main_answer.
  destruct (branch_of product_id qty due data); cbn;
    try (split; intros H; contradiction).
  - split; [intros H; contradiction|]. intros _.
    rewrite app_new_of_covering. auto.
  - split.
    + destruct (Main.mat_blockers product_id qty due data);
        [intros H; contradiction|]. intros _. cbn.
      rewrite main_new_rows_app, main_new_of_covering, Z.add_0_r.
      repeat split; auto. destruct (0 <? _); discriminate.
    + destruct (App.mat_blockers product_id qty due data);
        [intros H; contradiction|]. intros _. cbn.
      rewrite new_rows_app, app_new_of_covering, Z.add_0_r. auto.
Qed.

(** [X8] The remaining quantity is never negative and never more than the
    need beyond the schedule, so the covered quantity is at least the
    smaller of the request and the already-planned quantity. A [partial]
    answer covers a positive part and leaves a positive rest; a [no]
    answer covers nothing, unless it is [no] for want of a capable line, in
    which case it still reports the already-planned quantity as covered. *)
Theorem status_and_bounds
  (to_datetime : string -> option timestamp)
  (product_id : string) (qty : Z) (due_str dc : string) (due : date)
  (data : Data) :
  to_datetime due_str = Some (Day due) ->
  let A := already_planned_cases product_id due data in
  exists rm,
    Main.simulate_request_core to_datetime product_id qty due_str dc data
    = Returned rm
    /\ 0 <= Main.remaining_qty rm <= Z.max (qty - A) 0
    /\ Z.min qty A <= Main.covered_qty_on_requested_date rm
    /\ (Main.status_of rm = Main.partial ->
        0 < Main.covered_qty_on_requested_date rm
        /\ 0 < Main.remaining_qty rm)
    /\ (Main.status_of rm = Main.no ->
        (capable_lines product_id data <> [] ->
         Main.covered_qty_on_requested_date rm <= 0)
        /\ (capable_lines product_id data = [] ->
            Main.covered_qty_on_requested_date rm = A)).
Proof.
  intros Hd A.
  exists (main_answer product_id qty dc due data).
  split; [now apply main_simulate_eq|].
  pose proof (fill_nonneg_total product_id qty due data) as Hn.
  unfold main_answer.
  destruct (branch_of product_id qty due data) eqn:Eb; cbn; fold A.
  - apply branch_already_covered in Eb. fold A in Eb.
    repeat split; try lia; discriminate.
  - apply branch_no_capable_line in Eb. destruct Eb as [Hlt Ec].
    fold A in Hlt. repeat split; try lia; try discriminate; auto;
      congruence.
  - apply branch_full_after_allocation in Eb. destruct Eb as (Hlt & _).
    fold A in Hlt. repeat split; try lia; discriminate.
  - apply branch_partial_or_no in Eb. destruct Eb as (Hlt & Hc & Hwhy).
    fold A in Hlt.
    pose proof (fill_total_bounds product_id qty due data Hlt) as Hb.
    fold A in Hb. rewrite main_new_capacity_eq.
    pose proof (shortfall_value product_id qty due data Hlt) as Hs.
    rewrite app_new_capacity_eq in Hs. fold A in Hs.
    rewrite <- mat_blockers_length_nil in Hwhy.
    destruct (Main.mat_blockers product_id qty due data) eqn:Em.
    + destruct Hwhy as [Hw|Hw]; [|contradiction].
      destruct (Z.ltb_spec 0 (A + total (fill product_id qty due data)));
        repeat split; try lia; try discriminate; try contradiction.
    + destruct (Z.ltb_spec 0 (A + 0));
        repeat split; try lia; try discriminate; try contradiction.
Qed.

(** [X9] A shortfall note in the capacity notes is dated with the due
    date; the shortfall it reports is positive and at most the remaining
    quantity, and it is the remaining quantity when there is no material
    note. *)
Theorem shortfall_note_and_remaining
  (to_datetime : string -> option timestamp)
  (product_id : string) (qty : Z) (due_str dc : string) (due : date)
  (data : Data) :
  to_datetime due_str = Some (Day due) ->
  exists ra rm,
    App.simulate_request to_datetime product_id qty due_str data
    = Returned ra
    /\ Main.simulate_request_core to_datetime product_id qty due_str dc data
       = Returned rm
    /\ (List.length (Main.capacity_notes rm) <= 1)%nat
    /\ (forall short d,
          In (ShortCases short d) (Main.capacity_notes rm) ->
          d = Day due /\ 0 < short <= Main.remaining_qty rm
          /\ (Main.material_notes rm = [] -> short = Main.remaining_qty rm))
    /\ (forall short d,
          In (ShortCases short d) (App.capacity_blockers ra) ->
          d = Day due /\ 0 < short <= App.remaining ra
          /\ (App.material_blockers ra = [] -> short = App.remaining ra)).
Proof.
  intros Hd.
  exists (app_answer product_id qty due data),
         (main_answer product_id qty dc due data).
  split; [now apply app_simulate_eq|].
  split; [now apply main_simulate_eq|].
  pose proof (fill_nonneg_total product_id qty due data) as Hn.
  unfold app_answer, main_answer.
  destruct (branch_of product_id qty due data) eqn:Eb; cbn.
  - split; [lia|]. split; intros short d [].
  - split; [lia|]. split; intros short d [H|[]]; discriminate.
  - split; [lia|]. split; intros short d [].
  - apply branch_partial_or_no in Eb. destruct Eb as (Hlt & Hc & Hwhy).
    pose proof (fill_total_bounds product_id qty due data Hlt) as Hb.
    pose proof (shortfall_value product_id qty due data Hlt) as Hs.
    rewrite app_new_capacity_eq in Hs.
    rewrite shortfall_eq, main_new_capacity_eq, app_new_capacity_eq, Hs.
    split; [destruct (0 <? _); simpl; lia|].
    pose proof (mat_blockers_length product_id qty due data) as Hl.
    destruct (Z.ltb_spec 0 (qty - already_planned_cases product_id due data
                            - total (fill product_id qty due data)));
      split; intros short d Hin; try contradiction;
      destruct Hin as [E|[]]; injection E as <- <-;
      destruct (Main.mat_blockers product_id qty due data),
               (App.mat_blockers product_id qty due data);
      try discriminate Hl;
      repeat split; try lia; intros; try discriminate.
Qed.

(** [X10] The next-available entries of main.py's result carry no
    forecast: the additional quantity repeats the covered quantity, and the
    date is the due date itself, or absent exactly when more is needed
    than is planned and no line can run the product. A [full] answer has
    neither capacity nor material notes. *)
Theorem next_available_is_placeholder
  (to_datetime : string -> option timestamp)
  (product_id : string) (qty : Z) (due_str dc : string) (due : date)
  (data : Data) :
  to_datetime due_str = Some (Day due) ->
  exists rm,
    Main.simulate_request_core to_datetime product_id qty due_str dc data
    = Returned rm
    /\ Main.next_available_additional_qty rm
       = Main.covered_qty_on_requested_date rm
    /\ (Main.next_available_date rm = None
        \/ Main.next_available_date rm = Some (Main.requested_date rm))
    /\ (Main.next_available_date rm = None <->
        already_planned_cases product_id due data < qty
        /\ capable_lines product_id data = [])
    /\ (Main.status_of rm = Main.full ->
        Main.capacity_notes rm = [] /\ Main.material_notes rm = []).
Proof.
  intros Hd.
  exists (main_answer product_id qty dc due data).
  split; [now apply main_simulate_eq|].
  unfold main_answer.
  destruct (branch_of product_id qty due data) eqn:Eb; cbn.
  - apply branch_already_covered in Eb.
    repeat split; auto; try discriminate. intros [H _]. lia.
  - apply branch_no_capable_line in Eb.
    repeat split; auto; try tauto; discriminate.
  - apply branch_full_after_allocation in Eb. destruct Eb as (_ & Hc & _).
    repeat split; auto; try discriminate. intros [_ H]. contradiction.
  - apply branch_partial_or_no in Eb. destruct Eb as (_ & Hc & _).
    repeat split; auto; try discriminate.
    + intros [_ H]. contradiction.
    + destruct (0 <? _); discriminate.
    + destruct (0 <? _); discriminate.
Qed.

(** * The reply of [build_dc_reply] to a result of the simulator *)

Lemma main_answer_for_reply pid qty dc due data :
  let r := main_answer pid qty dc due data in
  (Main.status_of r = Main.full ->
   Main.capacity_notes r = [] /\ Main.material_notes r = [])
  /\ (Main.status_of r <> Main.full ->
      Main.capacity_notes r <> [] \/ Main.material_notes r <> [])
  /\ (Main.status_of r = Main.partial ->
      0 < Main.covered_qty_on_requested_date r /\ 0 < Main.remaining_qty r).
Proof.
  destruct (main_quantities pid qty dc due data) as (_ & _ & Hpos).
  cbv zeta in *. revert Hpos. unfold main_answer.
  destruct (branch_of pid qty due data) eqn:Eb; cbn; intros Hpos.
  - intuition (try discriminate; congruence).
  - split; [discriminate|]. split; [|discriminate].
    intros _. left. discriminate.
  - intuition (try discriminate; congruence).
  - apply branch_partial_or_no in Eb. destruct Eb as (Hlt & _ & Hwhy).
    rewrite <- shortfall_eq, <- mat_blockers_length_nil in Hwhy.
    split; [destruct (0 <? _); discriminate|]. split.
    + intros _. destruct Hwhy as [Hs|Hm]; [left|right; exact Hm].
      destruct (Z.ltb_spec 0 (Main.capacity_shortfall pid qty due data));
        [discriminate|lia].
    + set (c := already_planned_cases pid due data + _) in *.
      destruct (Z.ltb_spec 0 c) as [Hc|Hc]; [|discriminate].
      intros _. split; [exact Hc|]. apply Hpos. discriminate.
Qed.

(** [X11] For a result of [simulate_request_core], the reply is worded by
    the template of its status: the full, the partial or the refusal text,
    filled with the quantities and names of the result. The generic
    wording kept for other cases is never used, because a [partial] result
    always has a positive covered and a positive remaining quantity. *)
Theorem reply_follows_status
  (to_datetime : string -> option timestamp) (show : note -> string)
  (product_id : string) (qty : Z) (due_str dc : string) (due : date)
  (data : Data) :
  to_datetime due_str = Some (Day due) ->
  exists rm,
    Main.simulate_request_core to_datetime product_id qty due_str dc data
    = Returned rm
    /\ Reply.body_lines (Reply.of_result show rm)
       = match Main.status_of rm with
         | Main.full =>
             Reply.full_body qty (Main.product_name rm) dc (isoformat due)
         | Main.partial =>
             Reply.partial_body qty
               (Main.covered_qty_on_requested_date rm)
               (Main.remaining_qty rm)
               (Main.product_name rm) dc (isoformat due)
         | Main.no =>
             Reply.no_body qty (Main.product_name rm) dc (isoformat due)
         end
    /\ Main.product_name rm
       = Main.product_name_of product_id (products data).
Proof.
  intros Hd.
  exists (main_answer product_id qty dc due data).
  split; [now apply main_simulate_eq|].
  destruct (main_answer_for_reply product_id qty dc due data)
    as (_ & _ & Hpart).
  cbv zeta in Hpart.
  assert (Hecho :
    Main.requested_qty (main_answer product_id qty dc due data) = qty
    /\ Main.dc_name (main_answer product_id qty dc due data) = dc
    /\ Main.requested_date (main_answer product_id qty dc due data)
       = isoformat due
    /\ Main.product_name (main_answer product_id qty dc due data)
       = Main.product_name_of product_id (products data)).
  { unfold main_answer. destruct (branch_of product_id qty due data);
      cbn; auto. }
  destruct Hecho as (Eq & Edc & Edate & Ename).
  split; [|exact Ename].
  unfold Reply.body_lines, Reply.of_result. cbn [Reply.get Reply.product_name
    Reply.sku Reply.dc_name Reply.requested_qty Reply.requested_date
    Reply.covered_qty_on_requested_date Reply.remaining_qty Reply.status].
  rewrite Eq, Edc, Edate.
  destruct (Main.status_of (main_answer product_id qty dc due data)) eqn:Es.
  - reflexivity.
  - destruct (Hpart eq_refl) as [Hc Hr].
    destruct (Z.ltb_spec 0 (Main.covered_qty_on_requested_date
                              (main_answer product_id qty dc due data)));
      [|lia].
    destruct (Z.ltb_spec 0 (Main.remaining_qty
                              (main_answer product_id qty dc due data)));
      [|lia].
    reflexivity.
  - reflexivity.
Qed.

(** [X12] The reply to a [full] result is the four lines of the full text
    and the signature, with no planning information. The reply to any
    other result of the simulator always carries the "Info for planning:"
    block, since such a result has a capacity or a material note. *)
Theorem reply_planning_info
  (to_datetime : string -> option timestamp) (show : note -> string)
  (product_id : string) (qty : Z) (due_str dc : string) (due : date)
  (data : Data) :
  to_datetime due_str = Some (Day due) ->
  exists rm,
    Main.simulate_request_core to_datetime product_id qty due_str dc data
    = Returned rm
    /\ (Main.status_of rm = Main.full ->
        Reply.build_dc_reply (Reply.of_result show rm)
        = String.concat Reply.newline
            (Reply.full_body qty (Main.product_name rm) dc (isoformat due)
             ++ [""; "Thanks,"; "Planning Team"]))
    /\ (Main.status_of rm <> Main.full ->
        exists bits,
          bits <> []
          /\ Reply.build_dc_reply (Reply.of_result show rm)
             = String.concat Reply.newline
                 (Reply.body_lines (Reply.of_result show rm)
                  ++ [""; "Info for planning:"] ++ bits
                  ++ [""; "Thanks,"; "Planning Team"])
          /\ bits
             = (match Main.capacity_notes rm with
                | [] => []
                | _ :: _ =>
                    [("Capacity notes: "
                        ++ String.concat "; "
                             (map show (Main.capacity_notes rm)))%string]
                end)
               ++ (match Main.material_notes rm with
                   | [] => []
                   | _ :: _ =>
                       [("Material notes: "
                           ++ String.concat "; "
                                (map show (Main.material_notes rm)))%string]
                   end)).
Proof.
  intros Hd.
  exists (main_answer product_id qty dc due data).
  split; [now apply main_simulate_eq|].
  destruct (main_answer_for_reply product_id qty dc due data)
    as (Hfull & Hnot & _).
  cbv zeta in Hfull, Hnot.
  assert (Hbits :
    Reply.tech_bits
      (Reply.of_result show (main_answer product_id qty dc due data))
    = (match Main.capacity_notes (main_answer product_id qty dc due data) with
       | [] => []
       | _ :: _ =>
           [("Capacity notes: "
               ++ String.concat "; "
                    (map show
                       (Main.capacity_notes
                          (main_answer product_id qty dc due data))))%string]
       end)
      ++ (match Main.material_notes (main_answer product_id qty dc due data)
          with
          | [] => []
          | _ :: _ =>
              [("Material notes: "
                  ++ String.concat "; "
                       (map show
                          (Main.material_notes
                             (main_answer product_id qty dc due data))))%string]
          end)).
  { unfold Reply.tech_bits, Reply.of_result. cbn [Reply.get
      Reply.capacity_notes Reply.material_notes].
    destruct (Main.capacity_notes _), (Main.material_notes _); reflexivity. }
  split.
  - intros Hs. destruct (Hfull Hs) as [Ec Em].
    unfold Reply.build_dc_reply, Reply.reply_lines.
    rewrite Hbits, Ec, Em. cbn [app Reply.nonempty].
    f_equal. f_equal.
    unfold Reply.body_lines, Reply.of_result. cbn [Reply.get
      Reply.product_name Reply.sku Reply.dc_name Reply.requested_qty
      Reply.requested_date Reply.covered_qty_on_requested_date
      Reply.remaining_qty Reply.status].
    rewrite Hs. cbn.
    unfold main_answer. destruct (branch_of product_id qty due data);
      reflexivity.
  - intros Hs.
    exists (Reply.tech_bits
              (Reply.of_result show (main_answer product_id qty dc due data))).
    assert (Hne : Reply.nonempty
              (Reply.tech_bits
                 (Reply.of_result show
                    (main_answer product_id qty dc due data))) = true).
    { rewrite Hbits. destruct (Hnot Hs) as [Hc|Hm].
      - destruct (Main.capacity_notes _); [contradiction|reflexivity].
      - destruct (Main.material_notes _); [contradiction|].
        destruct (Main.capacity_notes _); reflexivity. }
    split; [|split; [|exact Hbits]].
    + intros E. rewrite E in Hne. discriminate.
    + unfold Reply.build_dc_reply, Reply.reply_lines.
      rewrite Hne. rewrite <- !app_assoc. reflexivity.
Qed.

(** * Worked requests, continued *)

(** A snapshot whose only run is dated after the due date asked for. *)
Lemma plan_rows_in_window_witness :
  exists ra rm,
    App.simulate_request parse_iso "P1" 5000 "2025-11-04" Sample.snapshot
    = Returned ra
    /\ Main.simulate_request_core parse_iso "P1" 5000 "2025-11-04" "DC"
         Sample.snapshot = Returned rm
    /\ Main.existing_orders_used rm = map render (App.plan_rows ra)
    /\ Forall (fun r => date_leb (App.production_date r) Sample.nov4 = true)
              (App.plan_rows ra).
Proof.
  destruct (plan_rows_in_window parse_iso "P1" 5000 "2025-11-04" "DC"
              Sample.nov4 Sample.snapshot eq_refl)
    as (ra & rm & Ha & Hm & Hr & Hall).
  exists ra, rm. repeat split; auto.
  eapply Forall_impl; [|exact Hall]. intros r [H _]. exact H.
Defined.

Lemma planned_rows_account_witness :
  exists ra rm,
    App.simulate_request parse_iso "P1" 5000 "2025-11-04" Sample.snapshot
    = Returned ra
    /\ Main.simulate_request_core parse_iso "P1" 5000 "2025-11-04" "DC"
         Sample.snapshot = Returned rm
    /\ sum_cases (planned_rows (App.plan_rows ra)) = 400
    /\ Permutation (planned_rows (App.plan_rows ra))
         [App.mkRow "L1" Sample.nov3 400 already_planned].
Proof.
  destruct (planned_rows_account parse_iso "P1" 5000 "2025-11-04" "DC"
              Sample.nov4 Sample.snapshot eq_refl)
    as (ra & rm & Ha & Hm & Hs & Hp & _).
  exists ra, rm. repeat split; auto.
Defined.

Lemma plan_adds_up_witness :
  exists ra rm,
    App.simulate_request parse_iso "P1" 300 "2025-11-04" Sample.snapshot
    = Returned ra
    /\ Main.simulate_request_core parse_iso "P1" 300 "2025-11-04" "DC"
         Sample.snapshot = Returned rm
    /\ sum_cases (App.plan_rows ra) = Z.max (App.allocated_total ra) 400
    /\ main_sum_cases (Main.existing_orders_used rm)
       = Z.max (Main.covered_qty_on_requested_date rm) 400.
Proof.
  apply (plan_adds_up parse_iso "P1" 300 "2025-11-04" "DC"
           Sample.nov4 Sample.snapshot eq_refl).
Defined.

Lemma feasibility_criterion_witness :
  total_headroom Sample.nov4 "P1" Sample.snapshot = 2500
  /\ exists ra rm,
       App.simulate_request parse_iso "P1" 1200 "2025-11-04" Sample.snapshot
       = Returned ra
       /\ Main.simulate_request_core parse_iso "P1" 1200 "2025-11-04" "DC"
            Sample.snapshot = Returned rm
       /\ (App.can_fulfill ra = true <->
           1200 <= 400
           \/ (1200 - 400 <= 2500
               /\ App.material_check "P1" (1200 - 400)
                    (bom Sample.snapshot) (inventory Sample.snapshot) = [])).
Proof.
  split; [vm_compute; reflexivity|].
  destruct (feasibility_criterion parse_iso "P1" 1200 "2025-11-04" "DC"
              Sample.nov4 Sample.snapshot eq_refl)
    as (ra & rm & Ha & Hm & _ & Hc & _).
  exists ra, rm. repeat split; auto; apply Hc.
Defined.

Lemma all_but_last_row_full_witness :
  exists ra rm,
    App.simulate_request parse_iso "P1" 1200 "2025-11-04" Sample.snapshot
    = Returned ra
    /\ Main.simulate_request_core parse_iso "P1" 1200 "2025-11-04" "DC"
         Sample.snapshot = Returned rm
    /\ sum_cases (new_rows (App.plan_rows ra)) <= Z.max (1200 - 400) 0.
Proof.
  destruct (all_but_last_row_full parse_iso "P1" 1200 "2025-11-04" "DC"
              Sample.nov4 Sample.snapshot eq_refl)
    as (ra & rm & Ha & Hm & _ & Hs & _).
  exists ra, rm. repeat split; auto.
Defined.

(** Asked for 2 November, before the first scheduled run. *)
Lemma empty_window_allocates_nothing_witness :
  exists ra rm,
    App.simulate_request parse_iso "P1" 500 "2025-11-02" Sample.snapshot
    = Returned ra
    /\ Main.simulate_request_core parse_iso "P1" 500 "2025-11-02" "DC"
         Sample.snapshot = Returned rm
    /\ Main.status_of rm = Main.no
    /\ Main.remaining_qty rm = 500
    /\ Main.capacity_notes rm = [ShortCases 500 (Day (mkDate 2025 11 2))].
Proof.
  destruct (empty_window_allocates_nothing parse_iso "P1" 500 "2025-11-02"
              "DC" (mkDate 2025 11 2) Sample.snapshot)
    as (ra & rm & Ha & Hm & Hst & _ & Hrem & _ & _ & _ & _ & _ & Hnotes).
  - reflexivity.
  - intros s Hs. vm_compute in Hs.
    repeat (destruct Hs as [<-|Hs]; [reflexivity|]). contradiction.
  - lia.
  - exists ra, rm. repeat split; auto.
    apply Hnotes. vm_compute. discriminate.
Defined.

Lemma material_blockers_block_all_new_witness :
  exists ra rm,
    App.simulate_request parse_iso "P5" 100 "2025-11-04" Sample.snapshot
    = Returned ra
    /\ Main.simulate_request_core parse_iso "P5" 100 "2025-11-04" "DC"
         Sample.snapshot = Returned rm
    /\ (Main.material_notes rm <> [] ->
        Main.covered_qty_on_requested_date rm = 0)
    /\ (App.material_blockers ra <> [] -> App.allocated_total ra = 0).
Proof.
  destruct (material_blockers_block_all_new parse_iso "P5" 100 "2025-11-04"
              "DC" Sample.nov4 Sample.snapshot eq_refl)
    as (ra & rm & Ha & Hm & H1 & H2).
  exists ra, rm. repeat split; auto.
  - intros H. apply H1 in H. destruct H as [H _]. exact H.
  - intros H. apply H2 in H. destruct H as [H _]. exact H.
Defined.

Lemma status_and_bounds_witness :
  exists rm,
    Main.simulate_request_core parse_iso "P1" 5000 "2025-11-04" "DC"
      Sample.snapshot = Returned rm
    /\ 0 <= Main.remaining_qty rm <= Z.max (5000 - 400) 0
    /\ Z.min 5000 400 <= Main.covered_qty_on_requested_date rm.
Proof.
  destruct (status_and_bounds parse_iso "P1" 5000 "2025-11-04" "DC"
              Sample.nov4 Sample.snapshot eq_refl)
    as (rm & Hm & Hb & Hc & _).
  exists rm. repeat split; auto; apply Hb.
Defined.

Lemma shortfall_note_and_remaining_witness :
  exists ra rm,
    App.simulate_request parse_iso "P1" 5000 "2025-11-04" Sample.snapshot
    = Returned ra
    /\ Main.simulate_request_core parse_iso "P1" 5000 "2025-11-04" "DC"
         Sample.snapshot = Returned rm
    /\ (List.length (Main.capacity_notes rm) <= 1)%nat.
Proof.
  destruct (shortfall_note_and_remaining parse_iso "P1" 5000 "2025-11-04"
              "DC" Sample.nov4 Sample.snapshot eq_refl)
    as (ra & rm & Ha & Hm & Hl & _).
  exists ra, rm. repeat split; auto.
Defined.

Lemma next_available_is_placeholder_witness :
  exists rm,
    Main.simulate_request_core parse_iso "P9" 10 "2025-11-04" "DC"
      Sample.snapshot = Returned rm
    /\ Main.next_available_additional_qty rm
       = Main.covered_qty_on_requested_date rm.
Proof.
  destruct (next_available_is_placeholder parse_iso "P9" 10 "2025-11-04"
              "DC" Sample.nov4 Sample.snapshot eq_refl)
    as (rm & Hm & Hq & _).
  exists rm. auto.
Defined.

Lemma reply_follows_status_witness :
  exists rm,
    Main.simulate_request_core parse_iso "P1" 5000 "2025-11-04" "Lyon DC"
      Sample.snapshot = Returned rm
    /\ Reply.body_lines (Reply.of_result (fun _ => "note") rm)
       = Reply.partial_body 5000 2900 2100 "Cola" "Lyon DC" "2025-11-04".
Proof.
  destruct (reply_follows_status parse_iso (fun _ => "note") "P1" 5000
              "2025-11-04" "Lyon DC" Sample.nov4 Sample.snapshot eq_refl)
    as (rm & Hm & Hb & Hn).
  exists rm. split; [exact Hm|]. rewrite Hb.
  vm_compute in Hm. injection Hm as <-. reflexivity.
Defined.

Lemma reply_planning_info_witness :
  exists rm,
    Main.simulate_request_core parse_iso "P1" 1200 "2025-11-04" "Lyon DC"
      Sample.snapshot = Returned rm
    /\ Reply.build_dc_reply (Reply.of_result (fun _ => "note") rm)
       = String.concat Reply.newline
           (Reply.full_body 1200 "Cola" "Lyon DC" "2025-11-04"
            ++ [""; "Thanks,"; "Planning Team"]).
Proof.
  destruct (reply_planning_info parse_iso (fun _ => "note") "P1" 1200
              "2025-11-04" "Lyon DC" Sample.nov4 Sample.snapshot eq_refl)
    as (rm & Hm & Hfull & _).
  exists rm. split; [exact Hm|].
  vm_compute in Hm. injection Hm as <-. apply Hfull. reflexivity.
Defined.

(** * The email parser *)

Module EmailFacts.

Import Email.

Lemma last_cons_default {X : Type} (a d : X) (l : list X) :
  last (a :: l) d = last l a.
Proof.
  revert a d. induction l as [|b l IH]; intros a d; [reflexivity|].
  change (last (a :: b :: l) d) with (last (b :: l) d).
  rewrite (IH b d), (IH b a). reflexivity.
Qed.

Lemma last_of_cons prev c cs : last_of prev (c :: cs) = last_of (Some c) cs.
Proof. unfold last_of. simpl map. apply last_cons_default. Qed.

Lemma last_of_app prev cs1 cs2 :
  last_of prev (cs1 ++ cs2) = last_of (last_of prev cs1) cs2.
Proof.
  revert prev. induction cs1 as [|c cs1 IH]; intros prev; [reflexivity|].
  simpl. now rewrite !last_of_cons, IH.
Qed.

(** ** The matcher finds only matches *)

Lemma many_sound {R : Type} p least prev s
  (k : option ascii -> list ascii -> option R) res :
  many p least prev s k = Some res ->
  exists cs s',
    s = cs ++ s' /\ Forall (fun c => p c = true) cs
    /\ (least <= List.length cs)%nat
    /\ k (last_of prev cs) s' = Some res.
Proof.
  revert least prev. induction s as [|c s IH]; intros least prev H.
  - simpl in H. destruct least; [|discriminate].
    exists [], []. repeat split; auto.
  - simpl in H. destruct (p c) eqn:Ep.
    + destruct (many p (Nat.pred least) (Some c) s k) as [r|] eqn:Em.
      * injection H as <-. apply IH in Em.
        destruct Em as (cs & s' & -> & Hall & Hlen & Hk).
        exists (c :: cs), s'. rewrite last_of_cons. repeat split; auto.
        simpl. lia.
      * destruct least; [|discriminate].
        exists [], (c :: s). repeat split; auto.
    + destruct least; [|discriminate].
      exists [], (c :: s). repeat split; auto.
Qed.

Lemma run_sound {R : Type} r prev s
  (k : option ascii -> list ascii -> option R) res :
  run r prev s k = Some res ->
  exists prev' s', matches r prev s prev' s' /\ k prev' s' = Some res.
Proof.
  revert prev s k. induction r as [|p| |p least|r1 IH1 r2 IH2];
    intros prev s k H; simpl in H.
  - exists prev, s. split; [constructor|exact H].
  - destruct s as [|c s]; [discriminate|]. destruct (p c) eqn:Ep;
      [|discriminate].
    exists (Some c), s. split; [now constructor|exact H].
  - destruct (at_boundary prev s) eqn:Eb; [|discriminate].
    exists prev, s. split; [now constructor|exact H].
  - apply many_sound in H. destruct H as (cs & s' & -> & Hall & Hlen & Hk).
    exists (last_of prev cs), s'. split; [now constructor|exact Hk].
  - apply IH1 in H. destruct H as (p1 & s1 & Hm1 & H).
    apply IH2 in H. destruct H as (p2 & s2 & Hm2 & H).
    exists p2, s2. split; [econstructor; eauto|exact H].
Qed.

Lemma matches_consumed r prev s prev' s' :
  matches r prev s prev' s' ->
  exists cs, s = cs ++ s' /\ prev' = last_of prev cs.
Proof.
  induction 1 as [prev s|p prev c s Hp|prev s Hb|p least prev cs s Hall Hlen
                 |r1 r2 prev s p1 s1 p2 s2 H1 IH1 H2 IH2].
  - exists []. auto.
  - exists [c]. auto.
  - exists []. auto.
  - exists cs. auto.
  - destruct IH1 as (cs1 & -> & ->). destruct IH2 as (cs2 & -> & ->).
    exists (cs1 ++ cs2). now rewrite app_assoc, last_of_app.
Qed.

Lemma firstn_consumed {X : Type} (g rest : list X) :
  firstn (List.length (g ++ rest) - List.length rest) (g ++ rest) = g.
Proof.
  rewrite length_app, Nat.add_sub.
  rewrite firstn_app, Nat.sub_diag, firstn_all. simpl. apply app_nil_r.
Qed.

(** A match at a position splits the text into what stands before the
    group, the group, what stands after it, and the rest. *)
Lemma match_at_sound pat prev s g :
  match_at pat prev s = Some g ->
  exists b a rest p1 p2 p3,
    s = b ++ g ++ a ++ rest
    /\ matches (before pat) prev s p1 (g ++ a ++ rest)
    /\ matches (group pat) p1 (g ++ a ++ rest) p2 (a ++ rest)
    /\ matches (after pat) p2 (a ++ rest) p3 rest.
Proof.
  unfold match_at. intros H.
  apply run_sound in H. destruct H as (p1 & s1 & Hb & H).
  apply run_sound in H. destruct H as (p2 & s2 & Hg & H).
  apply run_sound in H. destruct H as (p3 & s3 & Ha & H).
  injection H as <-.
  destruct (matches_consumed _ _ _ _ _ Hb) as (b & Eb & _).
  destruct (matches_consumed _ _ _ _ _ Hg) as (gs & Eg & _).
  destruct (matches_consumed _ _ _ _ _ Ha) as (a & Ea & _).
  subst s2 s1 s. rewrite firstn_consumed.
  exists b, a, s3, p1, p2, p3. auto.
Qed.

Lemma search_sound pat prev s g :
  search pat prev s = Some g ->
  exists pre rest,
    s = pre ++ rest /\ match_at pat (last_of prev pre) rest = Some g.
Proof.
  revert prev. induction s as [|c s IH]; intros prev H; simpl in H.
  - destruct (match_at pat prev []) eqn:Em; [|discriminate].
    injection H as ->. exists [], []. auto.
  - destruct (match_at pat prev (c :: s)) eqn:Em.
    + injection H as ->. exists [], (c :: s). auto.
    + apply IH in H. destruct H as (pre & rest & -> & Hm).
      exists (c :: pre), rest. rewrite last_of_cons. auto.
Qed.

(** A found group occurs in the text and matches the group of the
    pattern. *)
Lemma search_found pat s g :
  search pat None s = Some g ->
  exists pre post p1 p2,
    s = pre ++ g ++ post /\ matches (group pat) p1 (g ++ post) p2 post.
Proof.
  intros H. apply search_sound in H. destruct H as (pre & rest & -> & Hm).
  apply match_at_sound in Hm.
  destruct Hm as (b & a & rest' & p1 & p2 & p3 & -> & _ & Hg & _).
  exists (pre ++ b), (a ++ rest'), p1, p2.
  split; [now rewrite <- app_assoc|exact Hg].
Qed.

(** ** The matcher finds a match when there is one *)




End EmailFacts.

Module EmailShapes.

Import Email EmailFacts.

Lemma matches_lang r prev s prev' s' :
  matches r prev s prev' s' -> exists g, s = g ++ s' /\ lang r g.
Proof.
  induction 1 as [prev s|p prev c s Hp|prev s Hb|p least prev cs s Hall Hlen
                 |r1 r2 prev s p1 s1 p2 s2 H1 IH1 H2 IH2]; simpl.
  - exists []. auto.
  - exists [c]. split; eauto.
  - exists []. auto.
  - exists cs. auto.
  - destruct IH1 as (g1 & -> & L1). destruct IH2 as (g2 & -> & L2).
    exists (g1 ++ g2). split; [now rewrite app_assoc|eauto].
Qed.

(** A group that was found occurs in the text and is a text of the group
    of the pattern. *)
Lemma search_lang pat s g :
  search pat None s = Some g ->
  exists pre post, s = pre ++ g ++ post /\ lang (group pat) g.
Proof.
  intros H. apply search_found in H.
  destruct H as (pre & post & p1 & p2 & -> & Hm).
  apply matches_lang in Hm. destruct Hm as (g' & E & L).
  apply app_inv_tail in E. subst g'. eauto.
Qed.

Lemma search_none_if pat s :
  (forall g, lang (group pat) g ->
             forall pre post, s = pre ++ g ++ post -> False) ->
  search pat None s = None.
Proof.
  intros H. destruct (search pat None s) as [g|] eqn:E; [|reflexivity].
  apply search_lang in E. destruct E as (pre & post & E & L).
  exfalso. eapply H; eauto.
Qed.

Lemma Forall_false_in {X : Type} (p : X -> bool) (pre g post : list X) c :
  Forall (fun c => p c = false) (pre ++ g ++ post) ->
  In c g -> p c = true -> False.
Proof.
  rewrite !Forall_app. intros (_ & Hg & _) Hin Hp.
  rewrite Forall_forall in Hg. specialize (Hg c Hin). congruence.
Qed.

Lemma some_string_inv (o : option (list ascii)) (s : string) :
  option_map string_of_list_ascii o = Some s ->
  o = Some (list_ascii_of_string s).
Proof.
  destruct o as [g|]; simpl; [|discriminate]. intros H. injection H as <-.
  now rewrite list_ascii_of_string_of_list_ascii.
Qed.

End EmailShapes.

(** [X13] An email without any digit yields neither a quantity nor a
    date; one without an underscore yields no SKU; one without a capital D
    yields no DC name. *)
Theorem nothing_without_marks (email : string) :
  Email.plain (list_ascii_of_string email) ->
  (Forall (fun c => Email.is_digit c = false) (list_ascii_of_string email) ->
   Email.qty_requested (Email.parse_dc_email_with_llm email) = None
   /\ Email.requested_date (Email.parse_dc_email_with_llm email) = None)
  /\ (Forall (fun c => Email.is_char "_" c = false)
             (list_ascii_of_string email) ->
      Email.sku (Email.parse_dc_email_with_llm email) = None)
  /\ (Forall (fun c => Email.is_char "D" c = false)
             (list_ascii_of_string email) ->
      Email.dc_name (Email.parse_dc_email_with_llm email) = None).
Proof.
  intros _. unfold Email.parse_dc_email_with_llm, Email.parse_chars.
  cbn [Email.qty_requested Email.requested_date Email.sku Email.dc_name].
  set (text := list_ascii_of_string email).
  split; [|split].
  - intros Hno.
    assert (Hk : Email.search Email.k_pattern None text = None).
    { apply EmailShapes.search_none_if.
      intros g [Hall Hlen] pre post E. simpl in Hlen.
      destruct g as [|c g]; [simpl in Hlen; lia|].
      rewrite E in Hno. inversion Hall; subst.
      eapply (EmailShapes.Forall_false_in Email.is_digit); eauto.
      now left. }
    assert (Hn : Email.search Email.num_pattern None text = None).
    { apply EmailShapes.search_none_if.
      intros g [Hall Hlen] pre post E.
      destruct g as [|c g]; [simpl in Hlen; lia|].
      rewrite E in Hno. inversion Hall; subst.
      eapply (EmailShapes.Forall_false_in Email.is_digit); eauto.
      now left. }
    assert (Hd : Email.search Email.date_pattern None text = None).
    { apply EmailShapes.search_none_if.
      intros g L pre post E. simpl in L.
      destruct L as (g1 & g2 & -> & (c & -> & Hc) & _).
      rewrite E in Hno.
      eapply (EmailShapes.Forall_false_in Email.is_digit _ _ _ c); eauto.
      - now left.
      - unfold Email.is_char in Hc. apply Ascii.eqb_eq in Hc. now subst. }
    rewrite Hk, Hn, Hd. auto.
  - intros Hno.
    assert (Hs : Email.search Email.sku_pattern None text = None).
    { apply EmailShapes.search_none_if.
      intros g L pre post E. simpl in L.
      destruct L as (g1 & g2 & -> & _ & (g3 & g4 & -> & (c & -> & Hc) & _)).
      rewrite E in Hno.
      eapply (EmailShapes.Forall_false_in (Email.is_char "_") _ _ _ c); eauto.
      apply in_or_app. right. now left. }
    now rewrite Hs.
  - intros Hno.
    assert (Hs : Email.search Email.dc_pattern None text = None).
    { apply EmailShapes.search_none_if.
      intros g L pre post E. simpl in L.
      destruct L as (g1 & g2 & -> & _ & (g3 & g4 & -> & _
                     & (g5 & g6 & -> & _ & (g7 & g8 & -> & (c & -> & Hc) & _)))).
      rewrite E in Hno.
      eapply (EmailShapes.Forall_false_in (Email.is_char "D") _ _ _ c); eauto.
      apply in_or_app. right. apply in_or_app. right.
      apply in_or_app. right. now left. }
    now rewrite Hs.
Qed.

(** [X14] Every text field the parser returns occurs verbatim in the
    email and has the shape of its pattern: a date reads [20dd-dd-dd] with
    decimal digits (it is not checked to be a day of the calendar); a SKU
    consists of capitals, digits and underscores and has an underscore
    after its first character; a DC name is a capital, further letters,
    blanks and [DC]. *)
Theorem extracted_fields_shape (email : string) :
  Email.plain (list_ascii_of_string email) ->
  let text := list_ascii_of_string email in
  let out := Email.parse_dc_email_with_llm email in
  (forall d, Email.requested_date out = Some d ->
     exists pre post y1 y2 m1 m2 d1 d2,
       text = pre ++ list_ascii_of_string d ++ post
       /\ list_ascii_of_string d
          = ["2"; "0"; y1; y2; "-"; m1; m2; "-"; d1; d2]%char
       /\ Forall (fun c => Email.is_digit c = true) [y1; y2; m1; m2; d1; d2])
  /\ (forall s, Email.sku out = Some s ->
        exists pre post head tail,
          text = pre ++ list_ascii_of_string s ++ post
          /\ list_ascii_of_string s = head ++ "_"%char :: tail
          /\ head <> [] /\ tail <> []
          /\ Forall (fun c => Email.is_sku_head c = true) head
          /\ Forall (fun c => Email.is_sku_tail c = true) tail)
  /\ (forall n, Email.dc_name out = Some n ->
        exists pre post first letters blanks,
          text = pre ++ list_ascii_of_string n ++ post
          /\ list_ascii_of_string n
             = first :: letters ++ blanks ++ ["D"; "C"]%char
          /\ Email.is_upper first = true
          /\ letters <> [] /\ blanks <> []
          /\ Forall (fun c => Email.is_letter c = true) letters
          /\ Forall (fun c => Email.is_space c = true) blanks).
Proof.
  intros _ text out. unfold out, Email.parse_dc_email_with_llm,
    Email.parse_chars.
  cbn [Email.qty_requested Email.requested_date Email.sku Email.dc_name].
  fold text.
  assert (Hchar : forall x c, Email.is_char x c = true -> c = x)
    by (intros x c H; now apply Ascii.eqb_eq in H).
  assert (Hne : forall (p : ascii -> bool) (g : list ascii),
             (1 <= List.length g)%nat -> g <> [])
    by (intros p g Hl E; subst; simpl in Hl; lia).
  split; [|split].
  - intros d Hd. apply EmailShapes.some_string_inv in Hd.
    apply EmailShapes.search_lang in Hd. destruct Hd as (pre & post & E & L).
    remember (list_ascii_of_string d) as g eqn:Eg. simpl in L.
    destruct L as (? & ? & -> & (c1 & -> & H1) & ? & ? & -> & (c2 & -> & H2)
      & ? & ? & -> & (c3 & -> & H3) & ? & ? & -> & (c4 & -> & H4)
      & ? & ? & -> & (c5 & -> & H5) & ? & ? & -> & (c6 & -> & H6)
      & ? & ? & -> & (c7 & -> & H7) & ? & ? & -> & (c8 & -> & H8)
      & ? & ? & -> & (c9 & -> & H9) & (c10 & -> & H10)).
    apply Hchar in H1, H2, H5, H8. subst.
    exists pre, post, c3, c4, c6, c7, c9, c10.
    split; [exact E|]. split; [reflexivity|].
    repeat constructor; assumption.
  - intros s Hs. apply EmailShapes.some_string_inv in Hs.
    apply EmailShapes.search_lang in Hs. destruct Hs as (pre & post & E & L).
    remember (list_ascii_of_string s) as g eqn:Eg. simpl in L.
    destruct L as (head & ? & -> & [Hh Hhl] & ? & tail & ->
                   & (c & -> & Hc) & [Ht Htl]).
    apply Hchar in Hc. subst c.
    exists pre, post, head, tail.
    repeat split; eauto; try (apply (Hne Email.is_digit); assumption).
  - intros n Hn. apply EmailShapes.some_string_inv in Hn.
    apply EmailShapes.search_lang in Hn. destruct Hn as (pre & post & E & L).
    remember (list_ascii_of_string n) as g eqn:Eg. simpl in L.
    destruct L as (? & ? & -> & (first & -> & Hf) & letters & ? & ->
                   & [Hl Hll] & blanks & ? & -> & [Hb Hbl]
                   & ? & ? & -> & (cd & -> & Hcd) & (cc & -> & Hcc)).
    apply Hchar in Hcd, Hcc. subst.
    exists pre, post, first, letters, blanks.
    repeat split; eauto; try (apply (Hne Email.is_digit); assumption).
Qed.

Module EmailQuantity.

Import Email EmailFacts EmailShapes.

Lemma matches_full r prev s prev' s' :
  matches r prev s prev' s' ->
  exists g, s = g ++ s' /\ prev' = last_of prev g /\ lang r g.
Proof.
  induction 1 as [prev s|p prev c s Hp|prev s Hb|p least prev cs s Hall Hlen
                 |r1 r2 prev s p1 s1 p2 s2 H1 IH1 H2 IH2]; simpl.
  - exists []. auto.
  - exists [c]. repeat split; eauto.
  - exists []. auto.
  - exists cs. auto.
  - destruct IH1 as (g1 & -> & -> & L1). destruct IH2 as (g2 & -> & -> & L2).
    exists (g1 ++ g2). rewrite app_assoc, last_of_app. repeat split; eauto.
Qed.

Lemma last_of_in prev g :
  g <> [] -> exists c, last_of prev g = Some c /\ In c g.
Proof.
  revert prev. induction g as [|c g IH]; intros prev Hne; [contradiction|].
  rewrite last_of_cons. destruct g as [|c' g].
  - exists c. split; [reflexivity|now left].
  - destruct (IH (Some c)) as (x & E & Hin); [discriminate|].
    exists x. split; [exact E|now right].
Qed.

Lemma digit_is_word c : is_digit c = true -> is_word c = true.
Proof. unfold is_word. intros ->. reflexivity. Qed.

Lemma k_is_not_digit c : is_k c = true -> is_digit c = false.
Proof.
  unfold is_k, is_char. intros H. apply orb_true_iff in H.
  destruct H as [H|H]; apply Ascii.eqb_eq in H; subst; reflexivity.
Qed.

(** What a successful search for the k form, or for a plain number, has
    found. *)
Lemma k_search_sound text g :
  search k_pattern None text = Some g -> k_form text g.
Proof.
  intros H. apply search_sound in H. destruct H as (pre & rest & -> & Hm).
  apply match_at_sound in Hm.
  destruct Hm as (b & a & rest' & p1 & p2 & p3 & E & Hb & Hg & Ha).
  apply matches_full in Hb, Hg, Ha.
  destruct Hb as (b' & Eb & _ & Lb). destruct Hg as (g' & Eg & _ & Lg).
  destruct Ha as (a' & Ea & _ & La).
  apply app_inv_tail in Eg, Ea. subst g' a'.
  simpl in Lb. subst b'. simpl in Eb. subst rest.
  simpl in Lg, La. destruct Lg as [Hd Hl].
  destruct La as (blanks & ? & -> & [Hs _] & (c & -> & Hc)).
  apply (app_inv_tail _ b []) in Eb. subst b.
  exists pre, blanks, c, rest'. repeat split; auto.
  - simpl. now rewrite <- !app_assoc.
  - intros ->. simpl in Hl. lia.
Qed.




End EmailQuantity.


Module EmailFirst.

Import Email EmailFacts EmailShapes EmailQuantity.

Lemma search_skip pat prev pre rest :
  (forall p1 c p2, pre = p1 ++ c :: p2 ->
     match_at pat (last_of prev p1) (c :: p2 ++ rest) = None) ->
  search pat prev (pre ++ rest) = search pat (last_of prev pre) rest.
Proof.
  revert prev. induction pre as [|c pre IH]; intros prev H; [reflexivity|].
  cbn [app search]. rewrite (H [] c pre eq_refl : match_at pat prev _ = None).
  rewrite (last_of_cons prev c pre). apply IH.
  intros p1 c' p2 E. rewrite <- (last_of_cons prev c p1).
  apply (H (c :: p1) c' p2). now rewrite E.
Qed.

Lemma search_here pat prev s g :
  match_at pat prev s = Some g -> search pat prev s = Some g.
Proof. intros H. destruct s; simpl; now rewrite H. Qed.

(** A greedy repetition takes the whole run when the text after the run
    cannot continue it and what follows accepts. *)
Lemma many_all {R : Type} p least prev cs s
  (k : option ascii -> list ascii -> option R) r :
  Forall (fun c => p c = true) cs ->
  (least <= List.length cs)%nat ->
  match s with c :: _ => p c = false | [] => True end ->
  k (last_of prev cs) s = Some r ->
  many p least prev (cs ++ s) k = Some r.
Proof.
  intros Hall. revert least prev.
  induction Hall as [|c cs Hc Hall IH]; intros least prev Hlen Hstop Hk.
  - simpl in Hlen. assert (least = 0%nat) by lia. subst least.
    simpl. destruct s as [|c s]; [exact Hk|]. simpl. now rewrite Hstop.
  - simpl. rewrite Hc. rewrite last_of_cons in Hk.
    rewrite (IH (Nat.pred least) (Some c)); auto. simpl in Hlen. lia.
Qed.

Lemma not_word_not_digit (post : list ascii) :
  not_word (hd_error post) ->
  match post with c :: _ => is_digit c = false | [] => True end.
Proof.
  destruct post as [|c post]; simpl; auto. unfold is_word.
  intros H. destruct (is_digit c); [discriminate|reflexivity].
Qed.

Lemma boundary_before prev c s :
  not_word prev -> is_word c = true -> at_boundary prev (c :: s) = true.
Proof.
  unfold at_boundary, not_word. intros Hp ->.
  destruct prev as [x|]; [now rewrite Hp|reflexivity].
Qed.

Lemma boundary_after c post :
  is_word c = true -> not_word (hd_error post) ->
  at_boundary (Some c) post = true.
Proof.
  unfold at_boundary, not_word. intros ->.
  destruct post as [|x post]; simpl; [reflexivity|]. now intros ->.
Qed.

(** The first whole number of three digits or more is what the search for
    a plain number returns. *)
Lemma first_number_found pre digits post :
  Forall (fun c => is_digit c = false) pre ->
  not_word (last_of None pre) ->
  Forall (fun c => is_digit c = true) digits ->
  (3 <= List.length digits)%nat ->
  not_word (hd_error post) ->
  search num_pattern None (pre ++ digits ++ post) = Some digits.
Proof.
  intros Hpre Hbefore Hd Hlen Hafter.
  rewrite search_skip.
  - apply search_here. unfold match_at, num_pattern.
    cbn [before group after run].
    destruct digits as [|c ds]; [simpl in Hlen; lia|].
    assert (Hc : is_digit c = true) by now inversion Hd.
    change ((c :: ds) ++ post) with (c :: ds ++ post).
    rewrite boundary_before; auto using digit_is_word.
    change (c :: ds ++ post) with ((c :: ds) ++ post).
    apply many_all; auto.
    + now apply not_word_not_digit.
    + destruct (last_of_in (last_of None pre) (c :: ds)) as (x & Ex & Hin);
        [discriminate|].
      rewrite Ex. rewrite Forall_forall in Hd.
      rewrite (boundary_after x post); auto.
      * now rewrite firstn_consumed.
      * apply digit_is_word. auto.
  - intros p1 c p2 E. unfold match_at, num_pattern. cbn [before group after run].
    assert (Hc : is_digit c = false).
    { rewrite E in Hpre. apply Forall_app in Hpre. destruct Hpre as [_ Hpre].
      now inversion Hpre. }
    destruct (at_boundary _ _); [|reflexivity]. simpl. now rewrite Hc.
Qed.

Lemma no_k_no_k_form text :
  Forall (fun c => is_k c = false) text ->
  search k_pattern None text = None.
Proof.
  intros Hno. destruct (search k_pattern None text) as [g|] eqn:E;
    [|reflexivity].
  apply k_search_sound in E.
  destruct E as (pre & blanks & c & post & -> & _ & _ & _ & Hc).
  rewrite !Forall_app in Hno. destruct Hno as (_ & _ & _ & Hno).
  inversion Hno; subst. congruence.
Qed.

End EmailFirst.

(** [X16] In an email without a letter k or K, the quantity is the first
    number of the email, provided it has at least three digits and stands
    as a word of its own; any later number is ignored. *)
Theorem first_number_wins (email : string) (pre digits post : list ascii) :
  Email.plain (list_ascii_of_string email) ->
  list_ascii_of_string email = pre ++ digits ++ post ->
  Forall (fun c => Email.is_digit c = false) pre ->
  Email.not_word (Email.last_of None pre) ->
  Forall (fun c => Email.is_digit c = true) digits ->
  (3 <= List.length digits)%nat ->
  Email.not_word (hd_error post) ->
  Forall (fun c => Email.is_k c = false) (pre ++ post) ->
  Email.qty_requested (Email.parse_dc_email_with_llm email)
  = Some (Email.int_of digits).
Proof.
  intros _ E Hpre Hb Hd Hl Ha Hk.
  unfold Email.parse_dc_email_with_llm, Email.parse_chars.
  cbn [Email.qty_requested]. rewrite E.
  rewrite EmailFirst.no_k_no_k_form.
  - now rewrite EmailFirst.first_number_found.
  - apply Forall_app in Hk. destruct Hk as [Hk1 Hk2].
    rewrite !Forall_app. repeat split; auto.
    eapply Forall_impl; [|exact Hd]. intros c Hc. simpl in Hc.
    destruct (Email.is_k c) eqn:Ek; [|reflexivity].
    apply EmailQuantity.k_is_not_digit in Ek. congruence.
Qed.

Module EmailDate.

Import Email EmailFacts EmailShapes EmailQuantity EmailFirst.

Lemma list_ascii_app (a b : string) :
  list_ascii_of_string (a ++ b)
  = list_ascii_of_string a ++ list_ascii_of_string b.
Proof. induction a as [|c a IH]; simpl; [reflexivity|now rewrite IH]. Qed.

Lemma nondigit_is_not c x :
  is_digit c = false -> is_digit x = true -> is_char x c = false.
Proof.
  intros Hc Hx. unfold is_char. destruct (Ascii.eqb_spec c x); [|reflexivity].
  subst. congruence.
Qed.

(** A date in ISO form that stands as a word of its own, after a text
    without digits, is what the search for a date returns. *)
Lemma date_found pre post y1 y2 m1 m2 d1 d2 :
  Forall (fun c => is_digit c = false) pre ->
  not_word (last_of None pre) ->
  Forall (fun c => is_digit c = true) [y1; y2; m1; m2; d1; d2] ->
  not_word (hd_error post) ->
  search date_pattern None
    (pre ++ ["2"; "0"; y1; y2; "-"; m1; m2; "-"; d1; d2]%char ++ post)
  = Some ["2"; "0"; y1; y2; "-"; m1; m2; "-"; d1; d2]%char.
Proof.
  intros Hpre Hbefore Hd Hafter.
  inversion Hd as [|? ? Hy1 Hd1]; subst. inversion Hd1 as [|? ? Hy2 Hd2]; subst.
  inversion Hd2 as [|? ? Hm1 Hd3]; subst. inversion Hd3 as [|? ? Hm2 Hd4]; subst.
  inversion Hd4 as [|? ? Hd1' Hd5]; subst. inversion Hd5 as [|? ? Hd2' _]; subst.
  rewrite search_skip.
  - apply search_here. unfold match_at, date_pattern, lit, digit_class.
    cbn [before group after run app].
    rewrite boundary_before; auto.
    cbn [is_char Ascii.eqb Bool.eqb andb]. rewrite Hy1, Hy2.
    cbn [is_char Ascii.eqb Bool.eqb andb]. rewrite Hm1, Hm2.
    cbn [is_char Ascii.eqb Bool.eqb andb]. rewrite Hd1', Hd2'.
    rewrite boundary_after; auto using digit_is_word.
    f_equal.
    apply (firstn_consumed ["2"; "0"; y1; y2; "-"; m1; m2; "-"; d1; d2]%char
                           post).
  - intros p1 c p2 E. unfold match_at, date_pattern, lit.
    cbn [before group after run].
    assert (Hc : is_digit c = false).
    { rewrite E in Hpre. apply Forall_app in Hpre. destruct Hpre as [_ Hpre].
      now inversion Hpre. }
    destruct (at_boundary _ _); [|reflexivity].
    now rewrite (nondigit_is_not c "2"%char Hc eq_refl).
Qed.

Section Digits.

Let dchar (n : Z) : ascii := ascii_of_nat (48 + Z.to_nat (n mod 10)).

Lemma dchar_code n : code (dchar n) = (48 + Z.to_nat (n mod 10))%nat.
Proof.
  unfold code, dchar. apply nat_ascii_embedding.
  pose proof (Z.mod_pos_bound n 10). lia.
Qed.

Lemma dchar_digit n : is_digit (dchar n) = true.
Proof.
  unfold is_digit, between. rewrite dchar_code.
  pose proof (Z.mod_pos_bound n 10).
  apply andb_true_iff. split; apply Nat.leb_le; lia.
Qed.

Lemma dchar_value n : Z.of_nat (code (dchar n)) - 48 = n mod 10.
Proof.
  rewrite dchar_code. pose proof (Z.mod_pos_bound n 10). lia.
Qed.

Lemma isoformat_chars d :
  list_ascii_of_string (isoformat d)
  = [dchar (year d / 1000); dchar (year d / 100); dchar (year d / 10);
     dchar (year d); "-"%char; dchar (month d / 10); dchar (month d);
     "-"%char; dchar (day d / 10); dchar (day d)].
Proof. reflexivity. Qed.

Lemma year_digits y :
  0 <= y <= 9999 ->
  int_of [dchar (y / 1000); dchar (y / 100); dchar (y / 10); dchar y] = y.
Proof.
  intros Hy. unfold int_of. cbn [fold_left]. rewrite !dchar_value.
  pose proof (Z.div_mod y 1000). pose proof (Z.div_mod y 100).
  pose proof (Z.div_mod y 10).
  pose proof (Z.div_mod (y / 1000) 10). pose proof (Z.div_mod (y / 100) 10).
  pose proof (Z.div_mod (y / 10) 10).
  assert (E1 : y / 1000 / 10 = 0) by (rewrite Z.div_div by lia;
                                       apply Z.div_small; lia).
  assert (E2 : y / 100 / 10 = y / 1000) by (rewrite Z.div_div by lia;
                                            reflexivity).
  assert (E3 : y / 10 / 10 = y / 100) by (rewrite Z.div_div by lia;
                                          reflexivity).
  pose proof (Z.mod_pos_bound y 10). pose proof (Z.mod_pos_bound y 100).
  pose proof (Z.mod_pos_bound y 1000). lia.
Qed.

Lemma century_digits y :
  2000 <= y <= 2099 ->
  dchar (y / 1000) = "2"%char /\ dchar (y / 100) = "0"%char.
Proof.
  intros Hy. unfold dchar.
  assert (E1 : y / 1000 = 2)
    by (symmetry; apply (Z.div_unique y 1000 2 (y - 2000)); lia).
  assert (E2 : y / 100 = 20)
    by (symmetry; apply (Z.div_unique y 100 20 (y - 2000)); lia).
  rewrite E1, E2. split; reflexivity.
Qed.

End Digits.

End EmailDate.

(** [X17] An email that gives a due date in ISO form (of this century,
    standing as a word of its own) and otherwise has no digit and no letter
    k: the date is recognised, and its year is returned as the requested
    quantity. *)
Theorem year_taken_as_quantity (d : date) (intro outro : string) :
  let email := (intro ++ isoformat d ++ outro)%string in
  Email.plain (list_ascii_of_string email) ->
  2000 <= year d <= 2099 ->
  1 <= month d <= 12 ->
  1 <= day d <= 31 ->
  Forall (fun c => Email.is_digit c = false /\ Email.is_k c = false)
         (list_ascii_of_string intro ++ list_ascii_of_string outro) ->
  Email.not_word (Email.last_of None (list_ascii_of_string intro)) ->
  Email.not_word (hd_error (list_ascii_of_string outro)) ->
  Email.qty_requested (Email.parse_dc_email_with_llm email) = Some (year d)
  /\ Email.requested_date (Email.parse_dc_email_with_llm email)
     = Some (isoformat d).
Proof.
  intros email _ Hy _ _ Hclean Hb Ha.
  assert (Hnd : Forall (fun c => Email.is_digit c = false)
                       (list_ascii_of_string intro)
                /\ Forall (fun c => Email.is_k c = false)
                          (list_ascii_of_string intro)
                /\ Forall (fun c => Email.is_k c = false)
                          (list_ascii_of_string outro)).
  { apply Forall_app in Hclean. destruct Hclean as [H1 H2].
    repeat split; eapply Forall_impl; try exact H1; try exact H2;
      intros c [? ?]; assumption. }
  destruct Hnd as (Hpre & Hk1 & Hk2).
  pose proof (EmailDate.isoformat_chars d) as Hiso. cbv beta zeta in Hiso.
  pose proof (EmailDate.century_digits (year d) Hy) as Hc. cbv beta zeta in Hc.
  destruct Hc as [E2 E0]. rewrite E2, E0 in Hiso.
  pose proof (EmailDate.dchar_digit) as Hdig. cbv beta zeta in Hdig.
  unfold Email.parse_dc_email_with_llm, Email.parse_chars, email.
  cbn [Email.qty_requested Email.requested_date].
  rewrite !EmailDate.list_ascii_app.
  split.
  - rewrite EmailFirst.no_k_no_k_form.
    + rewrite Hiso.
      change (["2"; "0"; ascii_of_nat (48 + Z.to_nat ((year d / 10) mod 10));
               ascii_of_nat (48 + Z.to_nat (year d mod 10)); "-";
               ascii_of_nat (48 + Z.to_nat ((month d / 10) mod 10));
               ascii_of_nat (48 + Z.to_nat (month d mod 10)); "-";
               ascii_of_nat (48 + Z.to_nat ((day d / 10) mod 10));
               ascii_of_nat (48 + Z.to_nat (day d mod 10))]%char
              ++ list_ascii_of_string outro)
        with (["2"; "0"; ascii_of_nat (48 + Z.to_nat ((year d / 10) mod 10));
               ascii_of_nat (48 + Z.to_nat (year d mod 10))]%char
              ++ ("-"%char
                  :: ascii_of_nat (48 + Z.to_nat ((month d / 10) mod 10))
                  :: ascii_of_nat (48 + Z.to_nat (month d mod 10))
                  :: "-"%char
                  :: ascii_of_nat (48 + Z.to_nat ((day d / 10) mod 10))
                  :: ascii_of_nat (48 + Z.to_nat (day d mod 10))
                  :: list_ascii_of_string outro)).
      rewrite EmailFirst.first_number_found.
      * f_equal. rewrite <- E2, <- E0.
        pose proof (EmailDate.year_digits (year d)) as Hyd.
        cbv beta zeta in Hyd. apply Hyd. lia.
      * exact Hpre.
      * exact Hb.
      * repeat constructor; auto.
      * simpl. lia.
      * simpl. reflexivity.
    + rewrite Hiso, !Forall_app. repeat split; auto.
      repeat constructor; try reflexivity;
        (destruct (Email.is_k _) eqn:Ek; [|reflexivity];
         apply EmailQuantity.k_is_not_digit in Ek;
         rewrite Hdig in Ek; discriminate).
  - rewrite Hiso, EmailDate.date_found; auto.
    + cbn [option_map]. f_equal. rewrite <- Hiso.
      apply string_of_list_ascii_of_string.
    + repeat constructor; auto.
Qed.

(** * Worked emails *)

Ltac each_char :=
  repeat (apply Forall_cons; [first [reflexivity | split; reflexivity
                                    | apply Nat.ltb_lt; reflexivity]|]);
  apply Forall_nil.

Lemma nothing_without_marks_witness :
  Email.plain (list_ascii_of_string "Call me")
  /\ Email.qty_requested (Email.parse_dc_email_with_llm "Call me") = None
  /\ Email.requested_date (Email.parse_dc_email_with_llm "Call me") = None
  /\ Email.sku (Email.parse_dc_email_with_llm "Call me") = None
  /\ Email.dc_name (Email.parse_dc_email_with_llm "Call me") = None.
Proof.
  assert (Hp : Email.plain (list_ascii_of_string "Call me"))
    by (unfold Email.plain; simpl; each_char).
  destruct (nothing_without_marks "Call me" Hp) as (H1 & H2 & H3).
  split; [exact Hp|].
  destruct H1 as [Hq Hd]; [simpl; each_char|].
  split; [exact Hq|]. split; [exact Hd|]. split.
  - apply H2. simpl. each_char.
  - apply H3. simpl. each_char.
Defined.

(** The date pattern accepts a text that names no day of the calendar. *)
Lemma extracted_fields_shape_witness :
  Email.plain (list_ascii_of_string "by 2099-19-39")
  /\ Email.requested_date (Email.parse_dc_email_with_llm "by 2099-19-39")
     = Some "2099-19-39"
  /\ exists pre post y1 y2 m1 m2 d1 d2,
       list_ascii_of_string "by 2099-19-39"
       = pre ++ list_ascii_of_string "2099-19-39" ++ post
       /\ list_ascii_of_string "2099-19-39"
          = ["2"; "0"; y1; y2; "-"; m1; m2; "-"; d1; d2]%char
       /\ Forall (fun c => Email.is_digit c = true)
                 [y1; y2; m1; m2; d1; d2].
Proof.
  assert (Hp : Email.plain (list_ascii_of_string "by 2099-19-39"))
    by (unfold Email.plain; simpl; each_char).
  split; [exact Hp|]. split; [reflexivity|].
  destruct (extracted_fields_shape "by 2099-19-39" Hp) as (H1 & _).
  apply H1. reflexivity.
Defined.


Lemma first_number_wins_witness :
  Email.plain (list_ascii_of_string "by 2025-11-03, 1500 cases")
  /\ Email.qty_requested
       (Email.parse_dc_email_with_llm "by 2025-11-03, 1500 cases")
     = Some 2025.
Proof.
  assert (Hp : Email.plain (list_ascii_of_string "by 2025-11-03, 1500 cases"))
    by (unfold Email.plain; simpl; each_char).
  split; [exact Hp|].
  apply (first_number_wins "by 2025-11-03, 1500 cases"
           (list_ascii_of_string "by ") (list_ascii_of_string "2025")
           (list_ascii_of_string "-11-03, 1500 cases") Hp).
  - reflexivity.
  - simpl. each_char.
  - reflexivity.
  - simpl. each_char.
  - simpl. lia.
  - reflexivity.
  - simpl. each_char.
Defined.

Lemma year_taken_as_quantity_witness :
  Email.qty_requested
    (Email.parse_dc_email_with_llm
       ("Due " ++ isoformat Sample.nov3 ++ ", please"))
  = Some 2025
  /\ Email.requested_date
       (Email.parse_dc_email_with_llm
          ("Due " ++ isoformat Sample.nov3 ++ ", please"))
     = Some "2025-11-03".
Proof.
  apply (year_taken_as_quantity Sample.nov3 "Due " ", please").
  - unfold Email.plain. simpl. each_char.
  - simpl. lia.
  - simpl. lia.
  - simpl. lia.
  - simpl. each_char.
  - reflexivity.
  - reflexivity.
Defined.

(** * The product choice of the dashboard *)

Module SidebarFacts.

Import Sidebar.

Lemma dict_set_keys key value d :
  map fst (dict_set key value d)
  = if existsb (String.eqb key) (map fst d) then map fst d
    else map fst d ++ [key].
Proof.
  induction d as [|[k v] d IH]; simpl; [reflexivity|].
  rewrite (String.eqb_sym key k).
  destruct (String.eqb k key) eqn:E; simpl; [reflexivity|].
  rewrite IH. destruct (existsb _ _); reflexivity.
Qed.

Lemma dict_get_set_same key value d :
  dict_get key (dict_set key value d) = Some value.
Proof.
  induction d as [|[k v] d IH]; simpl.
  - now rewrite String.eqb_refl.
  - destruct (String.eqb k key) eqn:E; simpl; now rewrite E.
Qed.

Lemma dict_get_set_other key key' value d :
  key' <> key -> dict_get key' (dict_set key value d) = dict_get key' d.
Proof.
  intros Hne. induction d as [|[k v] d IH]; simpl.
  - destruct (String.eqb_spec key key'); [congruence|reflexivity].
  - destruct (String.eqb_spec k key); simpl.
    + subst. destruct (String.eqb_spec key key'); [congruence|reflexivity].
    + now rewrite IH.
Qed.

Lemma dict_set_NoDup key value d :
  NoDup (map fst d) -> NoDup (map fst (dict_set key value d)).
Proof.
  intros H. rewrite dict_set_keys.
  destruct (existsb (String.eqb key) (map fst d)) eqn:E; [exact H|].
  apply NoDup_app; auto.
  - repeat constructor. intros [].
  - intros a Ha [Ea|[]]. subst a.
    assert (existsb (String.eqb key) (map fst d) = true)
      by (apply existsb_exists; exists key; split; auto;
          apply String.eqb_refl).
    congruence.
Qed.

Lemma dict_set_In key value d k :
  In k (map fst (dict_set key value d)) <-> k = key \/ In k (map fst d).
Proof.
  rewrite dict_set_keys.
  destruct (existsb (String.eqb key) (map fst d)) eqn:E.
  - apply existsb_exists in E. destruct E as (x & Hx & Ex).
    apply String.eqb_eq in Ex. subst x. split; [auto|].
    intros [->|H]; auto.
  - rewrite in_app_iff. simpl. intuition.
Qed.

Lemma options_fold rows d :
  NoDup (map fst d) ->
  let d' := fold_left
              (fun d row => dict_set (p_product_name row) (p_product_id row) d)
              rows d in
  NoDup (map fst d')
  /\ (forall k, In k (map fst d')
                <-> In k (map fst d) \/ In k (map p_product_name rows))
  /\ (forall k, ~ In k (map p_product_name rows) ->
                dict_get k d' = dict_get k d)
  /\ (forall front row back,
        rows = front ++ row :: back ->
        ~ In (p_product_name row) (map p_product_name back) ->
        dict_get (p_product_name row) d' = Some (p_product_id row)).
Proof.
  revert d. induction rows as [|r rows IH]; intros d Hd; cbn [fold_left].
  - repeat split; auto.
    + intros [H|[]]; auto.
    + intros front row back E. destruct front; discriminate.
  - destruct (IH (dict_set (p_product_name r) (p_product_id r) d)
                 (dict_set_NoDup _ _ _ Hd)) as (H1 & H2 & H3 & H4).
    cbv zeta in *. split; [exact H1|]. split; [|split].
    + intros k. rewrite H2, dict_set_In. simpl.
      intuition (subst; auto).
    + intros k Hk. simpl in Hk. rewrite H3 by tauto.
      apply dict_get_set_other. intros ->. tauto.
    + intros front row back E Hlast.
      destruct front as [|f front]; simpl in E; injection E as -> ->.
      * rewrite H3 by exact Hlast. apply dict_get_set_same.
      * eapply H4; eauto.
Qed.

Lemma last_with_name rows name :
  In name (map p_product_name rows) ->
  exists front row back,
    rows = front ++ row :: back
    /\ p_product_name row = name
    /\ ~ In name (map p_product_name back).
Proof.
  induction rows as [|x rows IH]; intros Hin; [contradiction|].
  destruct (in_dec string_dec name (map p_product_name rows)) as [Hl|Hno].
  - destruct (IH Hl) as (front & row & back & -> & E & Hb).
    exists (x :: front), row, back. auto.
  - destruct Hin as [E|Hin]; [|contradiction].
    exists [], x, rows. auto.
Qed.

End SidebarFacts.

(** [X18] The product names offered in the sidebar are the names of the
    products table, each listed once. The product id a name stands for is
    that of the last row with this name: when several products share a
    name, only the last of them can be simulated from the dashboard. *)
Theorem product_options_last_wins (products_df : list ProductRow) :
  let options := Sidebar.product_options products_df in
  NoDup (Sidebar.product_display_names options)
  /\ (forall name,
        In name (Sidebar.product_display_names options)
        <-> exists row, In row products_df /\ p_product_name row = name)
  /\ (forall name,
        In name (Sidebar.product_display_names options) ->
        exists id, Sidebar.dict_get name options = Some id)
  /\ (forall front row back,
        products_df = front ++ row :: back ->
        (forall later, In later back ->
                       p_product_name later <> p_product_name row) ->
        Sidebar.dict_get (p_product_name row) options
        = Some (p_product_id row)).
Proof.
  intros options.
  destruct (SidebarFacts.options_fold products_df [] (NoDup_nil _))
    as (H1 & H2 & H3 & H4).
  cbv zeta in *. fold (Sidebar.product_options products_df) in *.
  fold options in H1, H2, H3, H4.
  assert (Hnames : forall name,
            In name (Sidebar.product_display_names options)
            <-> exists row, In row products_df /\ p_product_name row = name).
  { intros name. unfold Sidebar.product_display_names. rewrite H2.
    cbn [map In]. rewrite in_map_iff. split.
    - intros [[]|[row [E Hr]]]. eauto.
    - intros [row [Hr E]]. right. eauto. }
  assert (Hlast : forall front row back,
            products_df = front ++ row :: back ->
            (forall later, In later back ->
                           p_product_name later <> p_product_name row) ->
            Sidebar.dict_get (p_product_name row) options
            = Some (p_product_id row)).
  { intros front row back E Hlater. eapply H4; eauto.
    intros Hin. apply in_map_iff in Hin. destruct Hin as [later [E' Hl]].
    eapply Hlater; eauto. }
  split; [exact H1|]. split; [exact Hnames|]. split; [|exact Hlast].
  intros name Hin. apply Hnames in Hin. destruct Hin as [row [Hr <-]].
  destruct (SidebarFacts.last_with_name products_df (p_product_name row))
    as (front & r & back & E & Er & Hb).
  { apply in_map. exact Hr. }
  exists (p_product_id r). rewrite <- Er. eapply Hlast; eauto.
  intros later Hl E'. apply Hb. rewrite <- Er, <- E'. apply in_map. exact Hl.
Qed.

Lemma product_options_last_wins_witness :
  Sidebar.dict_get "Cola"
    (Sidebar.product_options
       [mkProduct "P1" "Cola"; mkProduct "P2" "Lemon"; mkProduct "P7" "Cola"])
  = Some "P7".
Proof.
  destruct (product_options_last_wins
              [mkProduct "P1" "Cola"; mkProduct "P2" "Lemon";
               mkProduct "P7" "Cola"]) as (_ & _ & _ & Hlast).
  apply (Hlast [mkProduct "P1" "Cola"; mkProduct "P2" "Lemon"]
               (mkProduct "P7" "Cola") [] eq_refl).
  intros later [].
Defined.

(** * A product the snapshot does not know *)

Lemma filter_none {A : Type} (f : A -> bool) (l : list A) :
  (forall x, In x l -> f x = false) -> filter f l = [].
Proof.
  induction l as [|a l IH]; intros H; simpl; [reflexivity|].
  rewrite (H a (or_introl eq_refl)). apply IH. intros x Hx.
  apply H. now right.
Qed.

Lemma sku_sched_unknown product_id due data :
  (forall r, In r (schedule data) -> s_product_id r <> product_id) ->
  sku_sched_of product_id (sched_window due data) = [].
Proof.
  intros H. apply filter_none. intros r Hr.
  apply filter_In in Hr. destruct Hr as [Hr _].
  destruct (String.eqb_spec (s_product_id r) product_id); [|reflexivity].
  exfalso. eapply H; eauto.
Qed.

(** [X19] A product id that occurs in no table of the snapshot is not
    refused: for a positive quantity both copies answer that nothing can be
    produced, with nothing covered, the whole quantity remaining, no plan
    rows and the missing-capable-line note; [simulate_request_core] echoes
    the id in place of the product name and gives no next date. *)
Theorem unknown_product_is_answered
  (to_datetime : string -> option timestamp)
  (product_id : string) (qty : Z) (due_str dc : string) (due : date)
  (data : Data) :
  to_datetime due_str = Some (Day due) ->
  0 < qty ->
  (forall r, In r (schedule data) -> s_product_id r <> product_id) ->
  (forall c, In c (capability data) -> c_product_id c <> product_id) ->
  (forall p, In p (products data) -> p_product_id p <> product_id) ->
  exists rm ra,
    Main.simulate_request_core to_datetime product_id qty due_str dc data
    = Returned rm
    /\ App.simulate_request to_datetime product_id qty due_str data
       = Returned ra
    /\ Main.status_of rm = Main.no
    /\ Main.product_name rm = product_id
    /\ Main.covered_qty_on_requested_date rm = 0
    /\ Main.remaining_qty rm = qty
    /\ Main.next_available_date rm = None
    /\ Main.next_available_additional_qty rm = 0
    /\ Main.existing_orders_used rm = []
    /\ Main.capacity_notes rm = [Text "No capable line for this SKU"]
    /\ Main.material_notes rm = []
    /\ App.can_fulfill ra = false
    /\ App.allocated_total ra = 0
    /\ App.remaining ra = qty
    /\ App.plan_rows ra = []
    /\ App.capacity_blockers ra = [Text "No capable line found"].
Proof.
  intros Hd Hq Hs Hc Hp.
  exists (main_answer product_id qty dc due data),
         (app_answer product_id qty due data).
  split; [now apply main_simulate_eq|].
  split; [now apply app_simulate_eq|].
  assert (EA : already_planned_cases product_id due data = 0).
  { unfold already_planned_cases.
    now rewrite (sku_sched_unknown product_id due data Hs). }
  assert (Eb : branch_of product_id qty due data = NoCapableLine).
  { apply branch_no_capable_line. split; [lia|].
    now apply capable_lines_nil. }
  assert (En : Main.product_name_of product_id (products data) = product_id).
  { unfold Main.product_name_of. rewrite filter_none; [reflexivity|].
    intros p Hin. destruct (String.eqb_spec (p_product_id p) product_id);
      [|reflexivity].
    exfalso. eapply Hp; eauto. }
  unfold main_answer, app_answer. rewrite Eb. cbn.
  unfold Main.covering_rows, App.covering_rows.
  rewrite En, EA, (sku_sched_unknown product_id due data Hs), Z.sub_0_r.
  cbn. repeat split; reflexivity.
Qed.

Lemma unknown_product_is_answered_witness :
  exists rm ra,
    Main.simulate_request_core parse_iso "P404" 500 "2025-11-04" "Lyon DC"
      Sample.snapshot = Returned rm
    /\ App.simulate_request parse_iso "P404" 500 "2025-11-04"
         Sample.snapshot = Returned ra
    /\ Main.status_of rm = Main.no
    /\ Main.product_name rm = "P404"
    /\ App.remaining ra = 500.
Proof.
  destruct (unknown_product_is_answered parse_iso "P404" 500 "2025-11-04"
              "Lyon DC" Sample.nov4 Sample.snapshot eq_refl eq_refl)
    as (rm & ra & H1 & H2 & H3 & H4 & _ & _ & _ & _ & _ & _ & _ & _ & _
        & H5 & _).
  - intros r Hr E. vm_compute in Hr.
    repeat (destruct Hr as [<-|Hr]; [discriminate E|]). exact Hr.
  - intros c Hc E. vm_compute in Hc.
    repeat (destruct Hc as [<-|Hc]; [discriminate E|]). exact Hc.
  - intros p Hp' E. vm_compute in Hp'.
    repeat (destruct Hp' as [<-|Hp']; [discriminate E|]). exact Hp'.
  - exists rm, ra. auto.
Defined.
